(** * DoH / ECH probe: the DNS query and response engine of [worker.ts]

    A shallow embedding of the query/decode/compare core of the worker
    (name decoding, SVCB parsing, the two query executors, the failure
    combiners and the comparison engine) together with the properties
    stated about it.

    Conventions.
    - A [Uint8Array] is a [list byte]; indexing is [nth_error], so that an
      index past the end is [None] where JavaScript yields [undefined].
    - Offsets and lengths are [nat]; byte values and 16-bit fields are [N]
      with the bit operations of the source written with [N.land],
      [N.lor] and [N.shiftl].
    - A JavaScript string is a [string]: a text that comes from outside
      is kept as the bytes of its UTF-8 form, a name read from a DNS
      message has one character for each byte, as [String.fromCharCode]
      makes it; the messages of the source are kept verbatim.
    - A JavaScript number is a double, kept as the rational it is.
    - A computation that may throw returns a [Completion]; every value
      thrown in the modelled code is an [Error] instance, which is
      represented by its message (what [normalizeErrorMessage] extracts).
      [Unfinished] is the outcome of a loop that was cut off by its fuel;
      the theorems show where it cannot occur. *)

From Stdlib Require Import List NArith ZArith QArith Bool Arith Lia String Ascii.
From Stdlib.Strings Require Import Byte.
From Stdlib Require DecimalString HexadecimalString.
Import ListNotations.

Local Open Scope string_scope.
Local Open Scope list_scope.
Local Open Scope nat_scope.

(* ================================================================== *)
(** * Part I: definitions                                              *)
(* ================================================================== *)

(** ** Completions *)

Inductive Completion (A : Type) : Type :=
| Normal (value : A)
| Thrown (message : string)
| Unfinished.

Arguments Normal {A} value.
Arguments Thrown {A} message.
Arguments Unfinished {A}.

Definition bind {A B : Type} (c : Completion A) (k : A -> Completion B)
  : Completion B :=
  match c with
  | Normal a => k a
  | Thrown m => Thrown m
  | Unfinished => Unfinished
  end.

Notation "'let*' x ':=' c 'in' k" := (bind c (fun x => k))
  (at level 10, x pattern, c at level 100, k at level 200).

(** The computation was not cut off by its fuel. *)
Definition finishes {A : Type} (c : Completion A) : Prop := c <> Unfinished.

(** [try { body } catch (error) { handler(normalizeErrorMessage(error)) }] *)
Definition try_catch {A : Type} (body : Completion A)
  (handler : string -> Completion A) : Completion A :=
  match body with
  | Thrown m => handler m
  | other => other
  end.

(** The outcome of a promise, as an entry of [Promise.allSettled] or as
    what [await] sees; a rejection carries what [normalizeErrorMessage]
    makes of its reason.  It also serves for a call into the platform
    that returns or throws. *)
Inductive Settled (A : Type) : Type :=
| fulfilled (value : A)
| rejected (reason : string).

Arguments fulfilled {A} value.
Arguments rejected {A} reason.

(** [await promise] *)
Definition await {A : Type} (promise : Settled A) : Completion A :=
  match promise with
  | fulfilled value => Normal value
  | rejected reason => Thrown reason
  end.

(** ** Name codec: [readDnsName] *)

Module NameCodec.

Definition ERR_SAFETY : string := "DNS 名称解析超出安全限制".
Definition ERR_OUT_OF_MESSAGE : string := "DNS 名称超出报文范围".
Definition ERR_POINTER_TRUNCATED : string := "DNS 名称指针截断".
Definition ERR_POINTER_OUT_OF_BOUNDS : string := "DNS 名称指针越界".
Definition ERR_LABEL_LENGTH : string := "DNS 标签长度非法".
Definition ERR_LABEL_OUT_OF_MESSAGE : string := "DNS 标签超出报文范围".

(** The errors that the specification groups under [MalformedName]. *)
Definition MalformedName (message : string) : Prop :=
  In message [ERR_SAFETY; ERR_OUT_OF_MESSAGE; ERR_POINTER_TRUNCATED;
              ERR_POINTER_OUT_OF_BOUNDS; ERR_LABEL_LENGTH;
              ERR_LABEL_OUT_OF_MESSAGE].

Record NameInfo : Type := mkNameInfo {
  name : string;
  length : nat
}.

(** [String.fromCharCode(message[i])]; a missing byte gives code 0. *)
Definition charAt (message : list byte) (i : nat) : ascii :=
  match nth_error message i with
  | Some b => ascii_of_byte b
  | None => Ascii.zero
  end.

(** [readLabel(message, start, length)] *)
Fixpoint readLabel (message : list byte) (start length : nat) : string :=
  match length with
  | O => EmptyString
  | S n => String (charAt message start) (readLabel message (S start) n)
  end.

(** [(len & 0xc0) === 0xc0] *)
Definition isPointer (len : N) : bool := (N.land len 0xc0 =? 0xc0)%N.

(** [((len & 0x3f) << 8) | nextByte] *)
Definition pointerTarget (len nextByte : N) : N :=
  N.lor (N.shiftl (N.land len 0x3f) 8) nextByte.

(** The [while (true)] loop of [readDnsName]. One unit of [fuel] is spent
    per evaluation of the loop head; the loop variables are those of the
    source. *)
Fixpoint readDnsName_loop (fuel : nat) (message : list byte)
  (labels : list string) (length : nat) (jumped : bool)
  (currentOffset safety : nat) : Completion NameInfo :=
  match fuel with
  | O => Unfinished
  | S fuel' =>
    if List.length message <? safety then Thrown ERR_SAFETY
    else
      let safety := S safety in
      match nth_error message currentOffset with
      | None => Thrown ERR_OUT_OF_MESSAGE
      | Some b =>
        let len := Byte.to_N b in
        if isPointer len then
          match nth_error message (currentOffset + 1) with
          | None => Thrown ERR_POINTER_TRUNCATED
          | Some nextByte =>
            let pointer := N.to_nat (pointerTarget len (Byte.to_N nextByte)) in
            let length := if jumped then length else length + 2 in
            if List.length message <=? pointer
            then Thrown ERR_POINTER_OUT_OF_BOUNDS
            else readDnsName_loop fuel' message labels length true
                   pointer safety
          end
        else if (len =? 0)%N then
          Normal {| name := String.concat "." labels;
                    length := if jumped then length else length + 1 |}
        else if (63 <? len)%N then Thrown ERR_LABEL_LENGTH
        else
          let start := currentOffset + 1 in
          let end_ := start + N.to_nat len in
          if List.length message <? end_ then Thrown ERR_LABEL_OUT_OF_MESSAGE
          else
            readDnsName_loop fuel' message
              (labels ++ [readLabel message start (N.to_nat len)])
              (if jumped then length else length + (1 + N.to_nat len))
              jumped end_ safety
      end
  end.

(** [readDnsName(message, offset)].  The fuel is the number of loop heads
    the safety counter lets through, plus the one that throws. *)
Definition readDnsName (message : list byte) (offset : nat)
  : Completion NameInfo :=
  readDnsName_loop (List.length message + 2) message [] 0 false offset 0.

(** The bytes a name occupies in the stream, in the words of the
    specification: labels are counted up to the first compression
    pointer, which counts for two bytes; nothing behind a pointer is
    followed. *)
Fixpoint bytesBeforeJump (fuel : nat) (message : list byte) (offset : nat)
  : nat :=
  match fuel with
  | O => 0
  | S fuel' =>
    match nth_error message offset with
    | None => 0
    | Some b =>
      let len := Byte.to_N b in
      if isPointer len then 2
      else if (len =? 0)%N then 1
      else 1 + N.to_nat len
           + bytesBeforeJump fuel' message (offset + 1 + N.to_nat len)
    end
  end.

(** [message] holds, at offset [a], a compression pointer to offset [b]. *)
Definition pointerAt (message : list byte) (a b : nat) : Prop :=
  exists hi lo,
    nth_error message a = Some hi /\
    nth_error message (a + 1) = Some lo /\
    isPointer (Byte.to_N hi) = true /\
    N.to_nat (pointerTarget (Byte.to_N hi) (Byte.to_N lo)) = b.

End NameCodec.

(** ** JavaScript helpers *)

Module Js.

(** Truthiness of a [string | null | undefined]: neither missing nor
    empty. *)
Definition truthy (s : option string) : bool :=
  match s with
  | Some EmptyString | None => false
  | Some _ => true
  end.

(** [array.find(predicate)] is [List.find]; [array.join(sep)] is
    [String.concat sep]. *)

(** The first element that is present, as the [for ... break] scans of
    the combiners compute it. *)
Fixpoint firstPresent {A : Type} (l : list (option A)) : option A :=
  match l with
  | [] => None
  | Some a :: _ => Some a
  | None :: rest => firstPresent rest
  end.

(** [value !== null] *)
Definition present {A : Type} (value : option A) : bool :=
  match value with
  | Some _ => true
  | None => false
  end.

(** [array[array.length - 1]] *)
Definition lastItem {A : Type} (l : list A) : option A :=
  nth_error l (List.length l - 1).

(** [array.filter(Boolean)] on an array of optional strings *)
Definition filterTruthy (l : list (option string)) : list string :=
  flat_map (fun item => match item with
                        | Some (String c rest) => [String c rest]
                        | _ => []
                        end) l.

(** [a === b] on values of type [string | null] *)
Definition strictEq (a b : option string) : bool :=
  match a, b with
  | Some x, Some y => String.eqb x y
  | None, None => true
  | _, _ => false
  end.

(** A [Set]: its elements in insertion order, each once. *)
Section JsSet.

Context {A : Type} (eqb : A -> A -> bool).

Definition has (set : list A) (item : A) : bool := existsb (eqb item) set.

Definition add (set : list A) (item : A) : list A :=
  if has set item then set else set ++ [item].

(** [new Set(items)]; [Array.from(set)] is the list itself. *)
Definition newSet (items : list A) : list A := fold_left add items [].

Definition size (set : list A) : nat := List.length set.

End JsSet.

(** [s.toLowerCase()] on the letters A to Z; other characters are left
    as they are.  It is applied to header values only, which are byte
    strings: none of their other characters becomes an ASCII letter, so
    the searches for ASCII media types that follow see the same text. *)
Fixpoint toLowerCase (s : string) : string :=
  match s with
  | EmptyString => EmptyString
  | String c rest =>
    let n := nat_of_ascii c in
    String (if (65 <=? n) && (n <=? 90) then ascii_of_nat (n + 32) else c)
      (toLowerCase rest)
  end.

(** [s.split(separator)] for a separator of one character *)
Fixpoint split (separator : ascii) (s : string) : list string :=
  match s with
  | EmptyString => [EmptyString]
  | String c rest =>
    if Ascii.eqb c separator then EmptyString :: split separator rest
    else
      match split separator rest with
      | head :: tail => String c head :: tail
      | [] => [String c EmptyString]
      end
  end.

(** [s.replace(/\.$/, empty)]: a final dot is dropped. *)
Fixpoint dropFinalDot (s : string) : string :=
  match s with
  | EmptyString => EmptyString
  | String "." EmptyString => EmptyString
  | String c rest => String c (dropFinalDot rest)
  end.

(** [haystack.includes(needle)] *)
Fixpoint includes (haystack needle : string) : bool :=
  if String.prefix needle haystack then true
  else match haystack with
       | EmptyString => false
       | String _ rest => includes rest needle
       end.

(** *** Code units

    A text that comes from outside (a request parameter, the body of a
    response) is kept as the bytes of its UTF-8 form, a surrogate that
    stands alone as the three bytes of its code point.  [s.length],
    [s.charCodeAt(i)] and [s.slice(start, end)] count in UTF-16 code
    units. *)

(** The code units of a text: one for a character of one, two or three
    bytes, the two surrogates for a character of four bytes.  A byte
    that begins no character stands for itself; no text holds one. *)
Fixpoint charCodes (s : string) : list N :=
  match s with
  | EmptyString => []
  | String c0 rest =>
    let b0 := N_of_ascii c0 in
    if (b0 <? 192)%N then b0 :: charCodes rest
    else
      match rest with
      | String c1 rest1 =>
        let b1 := N_of_ascii c1 in
        if (b0 <? 224)%N then
          (b0 mod 32 * 64 + b1 mod 64)%N :: charCodes rest1
        else
          match rest1 with
          | String c2 rest2 =>
            let b2 := N_of_ascii c2 in
            if (b0 <? 240)%N then
              (b0 mod 16 * 4096 + b1 mod 64 * 64 + b2 mod 64)%N
              :: charCodes rest2
            else
              match rest2 with
              | String c3 rest3 =>
                let b3 := N_of_ascii c3 in
                let offset :=
                  (b0 mod 8 * 262144 + b1 mod 64 * 4096 + b2 mod 64 * 64
                   + b3 mod 64 - 65536)%N in
                (55296 + offset / 1024)%N :: (56320 + offset mod 1024)%N
                :: charCodes rest3
              | EmptyString => b0 :: charCodes rest
              end
          | EmptyString => b0 :: charCodes rest
          end
      | EmptyString => [b0]
      end
  end.

(** The three bytes of a code unit from 2048 on, before [tail]. *)
Definition threeBytes (unit : N) (tail : string) : string :=
  String (ascii_of_N (224 + unit / 4096))
    (String (ascii_of_N (128 + unit / 64 mod 64))
       (String (ascii_of_N (128 + unit mod 64)) tail)).

(** The text with the given code units: a high surrogate and the low
    one behind it make a character of four bytes. *)
Fixpoint fromCharCodes (units : list N) : string :=
  match units with
  | [] => EmptyString
  | unit :: rest =>
    if (unit <? 128)%N then String (ascii_of_N unit) (fromCharCodes rest)
    else if (unit <? 2048)%N then
      String (ascii_of_N (192 + unit / 64))
        (String (ascii_of_N (128 + unit mod 64)) (fromCharCodes rest))
    else
      match rest with
      | low :: rest' =>
        if ((55296 <=? unit) && (unit <? 56320)
            && (56320 <=? low) && (low <? 57344))%N
        then
          let point :=
            (65536 + (unit - 55296) * 1024 + (low - 56320))%N in
          String (ascii_of_N (240 + point / 262144))
            (String (ascii_of_N (128 + point / 4096 mod 64))
               (String (ascii_of_N (128 + point / 64 mod 64))
                  (String (ascii_of_N (128 + point mod 64))
                     (fromCharCodes rest'))))
        else threeBytes unit (fromCharCodes rest)
      | [] => threeBytes unit EmptyString
      end
  end.

(** [s.length] *)
Definition length (s : string) : nat := List.length (charCodes s).

(** [s.slice(0, end)] *)
Definition sliceFromStart (limit : nat) (s : string) : string :=
  fromCharCodes (firstn limit (charCodes s)).

End Js.

(** ** Text encodings *)

Module Text.

(** [String(n)] for a non-negative integer *)
Definition decimal (n : N) : string :=
  DecimalString.NilZero.string_of_uint (N.to_uint n).

(** [n.toString(16)] for a non-negative integer *)
Definition hexadecimal (n : N) : string :=
  HexadecimalString.NilZero.string_of_uint (N.to_hex_uint n).

Definition BASE64_ALPHABET : string :=
  "ABCDEFGHIJKLMNOPQRSTUVWXYZabcdefghijklmnopqrstuvwxyz0123456789+/".

Definition base64Digit (n : N) : ascii :=
  match String.get (N.to_nat n) BASE64_ALPHABET with
  | Some c => c
  | None => "="%char
  end.

(** [bytesToBase64]: [btoa] of the binary string of the bytes. *)
Fixpoint bytesToBase64 (bytes : list byte) : string :=
  match bytes with
  | [] => EmptyString
  | [a] =>
    let a := Byte.to_N a in
    String (base64Digit (a / 4))
      (String (base64Digit (a mod 4 * 16)) "==")
  | [a; b] =>
    let a := Byte.to_N a in
    let b := Byte.to_N b in
    String (base64Digit (a / 4))
      (String (base64Digit (a mod 4 * 16 + b / 16))
         (String (base64Digit (b mod 16 * 4)) "="))
  | a :: b :: c :: rest =>
    let a := Byte.to_N a in
    let b := Byte.to_N b in
    let c := Byte.to_N c in
    String (base64Digit (a / 4))
      (String (base64Digit (a mod 4 * 16 + b / 16))
         (String (base64Digit (b mod 16 * 4 + c / 64))
            (String (base64Digit (c mod 64)) (bytesToBase64 rest))))
  end%N.

(** [bytesToBase64Url]: [+] becomes [-], [/] becomes [_], and the
    padding at the end is removed. *)
Fixpoint base64ToUrl (s : string) : string :=
  match s with
  | EmptyString => EmptyString
  | String c rest =>
    let rest := base64ToUrl rest in
    if Ascii.eqb c "+" then String "-" rest
    else if Ascii.eqb c "/" then String "_" rest
    else if Ascii.eqb c "=" then
      match rest with
      | EmptyString => EmptyString
      | _ => String c rest
      end
    else String c rest
  end.

Definition bytesToBase64Url (bytes : list byte) : string :=
  base64ToUrl (bytesToBase64 bytes).

End Text.

(** ** Wire message codec *)

Module Wire.
Import NameCodec.

Definition HTTPS_RECORD_TYPE : N := 65.

(** [message.subarray(begin, end)] *)
Definition subarray (message : list byte) (begin end_ : nat) : list byte :=
  firstn (end_ - begin) (skipn begin message).

(** [view.getUint16(byteOffset)], big-endian; a read past the end of the
    view throws a [RangeError]. *)
Definition getUint16 (view : list byte) (byteOffset : nat) : Completion N :=
  match nth_error view byteOffset, nth_error view (byteOffset + 1) with
  | Some hi, Some lo => Normal (Byte.to_N hi * 256 + Byte.to_N lo)%N
  | _, _ => Thrown "Offset is outside the bounds of the DataView"
  end.

(** [`${bytes[i]}`] *)
Definition byteText (bytes : list byte) (i : nat) : string :=
  match nth_error bytes i with
  | Some b => Text.decimal (Byte.to_N b)
  | None => "undefined"
  end.

(** [formatIpv4] *)
Definition formatIpv4 (bytes : list byte) : string :=
  (byteText bytes 0 ++ "." ++ byteText bytes 1 ++ "." ++ byteText bytes 2
   ++ "." ++ byteText bytes 3)%string.

(** A byte as an operand of [<<] and [|]: a missing one counts as 0. *)
Definition byteBits (bytes : list byte) (i : nat) : N :=
  match nth_error bytes i with
  | Some b => Byte.to_N b
  | None => 0%N
  end.

(** [formatIpv6] *)
Definition formatIpv6 (bytes : list byte) : string :=
  String.concat ":"
    (map (fun i =>
            Text.hexadecimal
              (N.lor (N.shiftl (byteBits bytes (i * 2)) 8)
                 (byteBits bytes (i * 2 + 1))))
       (seq 0 8)).

(** The loop over the question section, shared by the two decoders:
    [offset += nameInfo.length; offset += 4]. *)
Fixpoint skipQuestions (count : nat) (message : list byte) (offset : nat)
  : Completion nat :=
  match count with
  | O => Normal offset
  | S count' =>
    let* nameInfo := readDnsName message offset in
    skipQuestions count' message (offset + NameCodec.length nameInfo + 4)
  end.

(** The loop over the answer section of [extractIpsFromDnsMessage]. *)
Fixpoint collectAddresses (count : nat) (message : list byte) (offset : nat)
  (seen : list string) : Completion (list string) :=
  match count with
  | O => Normal seen
  | S count' =>
    let* nameInfo := readDnsName message offset in
    let offset := offset + NameCodec.length nameInfo in
    if List.length message <? offset + 10 then Normal seen
    else
      let* type := getUint16 message offset in
      let offset := offset + 2 in
      let offset := offset + 2 in
      let offset := offset + 4 in
      let* rdlength := getUint16 message offset in
      let rdlength := N.to_nat rdlength in
      let offset := offset + 2 in
      if List.length message <? offset + rdlength then Normal seen
      else
        let seen :=
          if (type =? 1)%N && (rdlength =? 4) then
            Js.add String.eqb seen
              (formatIpv4 (subarray message offset (offset + 4)))
          else if (type =? 28)%N && (rdlength =? 16) then
            Js.add String.eqb seen
              (formatIpv6 (subarray message offset (offset + 16)))
          else seen in
        collectAddresses count' message (offset + rdlength) seen
  end.

(** [extractIpsFromDnsMessage] *)
Definition extractIpsFromDnsMessage (buffer : list byte)
  : Completion (list string) :=
  if List.length buffer <? 12 then Normal []
  else
    let* qdcount := getUint16 buffer 4 in
    let* ancount := getUint16 buffer 6 in
    let* offset := skipQuestions (N.to_nat qdcount) buffer 12 in
    collectAddresses (N.to_nat ancount) buffer offset [].

(** The result of [parseHttpsSvcbRecord] *)
Record SvcbRecord : Type := mkSvcbRecord {
  hasEch : bool;
  description : string
}.

(** The state of the parameter loop of [parseHttpsSvcbRecord] *)
Record SvcbParams : Type := mkSvcbParams {
  params : list string;
  paramsHasEch : bool;
  echBase64 : option string
}.

(** The [while (cursor < rdlength)] loop of [parseHttpsSvcbRecord]; one
    unit of fuel per evaluation of the loop head. *)
Fixpoint svcbParams_loop (fuel : nat) (message view : list byte)
  (offset rdlength cursor : nat) (state : SvcbParams)
  : Completion SvcbParams :=
  match fuel with
  | O => Unfinished
  | S fuel' =>
    if cursor <? rdlength then
      if rdlength <? cursor + 4 then Normal state
      else
        let* key := getUint16 view cursor in
        let cursor := cursor + 2 in
        let* valueLength := getUint16 view cursor in
        let cursor := cursor + 2 in
        if rdlength <? cursor + N.to_nat valueLength then Normal state
        else
          let valueBytes :=
            subarray message (offset + cursor)
              (offset + cursor + N.to_nat valueLength) in
          svcbParams_loop fuel' message view offset rdlength
            (cursor + N.to_nat valueLength)
            {| params :=
                 params state
                 ++ [("key" ++ Text.decimal key ++ "("
                      ++ Text.decimal valueLength ++ "B)")%string];
               paramsHasEch :=
                 if (key =? 5)%N then true else paramsHasEch state;
               echBase64 :=
                 if (key =? 5)%N then Some (Text.bytesToBase64 valueBytes)
                 else echBase64 state |}
    else Normal state
  end.

(** [parseHttpsSvcbRecord] *)
Definition parseHttpsSvcbRecord (message : list byte) (offset rdlength : nat)
  : Completion SvcbRecord :=
  if List.length message <? offset + rdlength then
    Normal {| hasEch := false; description := EmptyString |}
  else
    let view := subarray message offset (offset + rdlength) in
    let cursor := 0 in
    if rdlength <? 4
    then Normal {| hasEch := false; description := EmptyString |}
    else
      let* priority := getUint16 view cursor in
      let cursor := cursor + 2 in
      let* nameInfo := readDnsName message (offset + cursor) in
      let cursor := cursor + NameCodec.length nameInfo in
      let targetName :=
        match NameCodec.name nameInfo with
        | EmptyString => "."
        | name => name
        end in
      let* state :=
        svcbParams_loop (S rdlength) message view offset rdlength cursor
          {| params := []; paramsHasEch := false; echBase64 := None |} in
      let description :=
        ("priority=" ++ Text.decimal priority ++ " target=" ++ targetName)
        %string in
      let description :=
        match params state with
        | [] => description
        | _ =>
          (description ++ " params=[" ++ String.concat ", " (params state)
           ++ "]")%string
        end in
      let description :=
        if paramsHasEch state then
          if Js.truthy (echBase64 state) then
            (description ++ " echconfig(base64)="
             ++ match echBase64 state with
                | Some text => text
                | None => EmptyString
                end)%string
          else (description ++ " echconfig")%string
        else description in
      Normal {| hasEch := paramsHasEch state; description := description |}.

(** The result of [findHttpsRecordInDnsMessage] *)
Record HttpsLookup : Type := mkHttpsLookup {
  found : bool;
  record : option string;
  error : option string
}.

(** The loop over the answer section of [findHttpsRecordInDnsMessage],
    up to the [return] behind it. *)
Fixpoint scanAnswers (count : nat) (message : list byte) (offset : nat)
  (fallbackRecord : option string) : Completion HttpsLookup :=
  let finish :=
    Normal {| found := false; record := fallbackRecord; error := None |} in
  match count with
  | O => finish
  | S count' =>
    let* nameInfo := readDnsName message offset in
    let offset := offset + NameCodec.length nameInfo in
    if List.length message <? offset + 10 then finish
    else
      let* type := getUint16 message offset in
      let offset := offset + 2 in
      let offset := offset + 2 in
      let offset := offset + 4 in
      let* rdlength := getUint16 message offset in
      let rdlength := N.to_nat rdlength in
      let offset := offset + 2 in
      if List.length message <? offset + rdlength then finish
      else if (type =? HTTPS_RECORD_TYPE)%N then
        let* svcb := parseHttpsSvcbRecord message offset rdlength in
        if hasEch svcb then
          Normal {| found := true; record := Some (description svcb);
                    error := None |}
        else
          let fallbackRecord :=
            if negb (Js.truthy fallbackRecord)
               && Js.truthy (Some (description svcb))
            then Some (description svcb)
            else fallbackRecord in
          scanAnswers count' message (offset + rdlength) fallbackRecord
      else scanAnswers count' message (offset + rdlength) fallbackRecord
  end.

(** [findHttpsRecordInDnsMessage] *)
Definition findHttpsRecordInDnsMessage (buffer : list byte)
  : Completion HttpsLookup :=
  if List.length buffer <? 12 then
    Normal {| found := false; record := None;
              error := Some "DNS 报文过短。" |}
  else
    let* qdcount := getUint16 buffer 4 in
    let* ancount := getUint16 buffer 6 in
    try_catch
      (let* offset := skipQuestions (N.to_nat qdcount) buffer 12 in
       scanAnswers (N.to_nat ancount) buffer offset None)
      (fun message =>
         Normal {| found := false; record := None; error := Some message |}).

End Wire.

(** ** The wire layout of HTTPS answers

    The layout of RFC 1035 messages and of SVCB/HTTPS rdata as the
    specification describes it, used to state what the decoder returns
    on a message that was laid out this way.  The names of questions and
    answers may be compressed; the target name inside HTTPS rdata is
    written in full. *)

Module WireFormat.

(** The byte holding [n mod 256]. *)
Definition byteOf (n : N) : byte :=
  match Byte.of_N (n mod 256) with
  | Some b => b
  | None => x00
  end.

Definition uint16 (n : N) : list byte := [byteOf (n / 256); byteOf n].

Definition uint32 (n : N) : list byte :=
  [byteOf (n / 16777216); byteOf (n / 65536); byteOf (n / 256); byteOf n].

(** The bytes [chunk] stand in [message] from [offset] on. *)
Definition occursAt (message : list byte) (offset : nat) (chunk : list byte)
  : Prop :=
  exists before after,
    message = before ++ chunk ++ after /\ List.length before = offset.

(** A name is its list of labels; the root name has none. *)
Definition Name : Type := list (list byte).

Definition encodeLabel (label : list byte) : list byte :=
  byteOf (N.of_nat (List.length label)) :: label.

Definition encodeName (name : Name) : list byte :=
  flat_map encodeLabel name ++ [x00].

Definition validLabel (label : list byte) : Prop :=
  1 <= List.length label <= 63.

Definition validName (name : Name) : Prop := Forall validLabel name.

(** The text of a name: its labels joined with dots. *)
Definition nameText (name : Name) : string :=
  String.concat "." (map string_of_list_byte name).

(** [NameAt message offset steps name size]: following RFC 1035, 4.1.4,
    the name [name] is written at [offset]: labels, closed by the root
    byte or by a compression pointer to a place where the rest of the
    name is written.  [size] counts the bytes of the field at [offset]
    itself, that is up to the root byte or up to and including the first
    pointer; [steps] counts the length bytes and pointers on the way. *)
Inductive NameAt (message : list byte) : nat -> nat -> Name -> nat -> Prop :=
| NameAt_root : forall offset,
    nth_error message offset = Some x00 ->
    NameAt message offset 1 [] 1
| NameAt_label : forall offset label steps name size,
    validLabel label ->
    occursAt message offset (encodeLabel label) ->
    NameAt message (offset + 1 + List.length label) steps name size ->
    NameAt message offset (S steps) (label :: name)
      (1 + List.length label + size)
| NameAt_pointer : forall offset target steps name size,
    NameCodec.pointerAt message offset target ->
    NameAt message target steps name size ->
    NameAt message offset (S steps) name 2.

(** At [offset] begins a name field of [size] bytes. *)
Definition nameFieldAt (message : list byte) (offset size : nat) : Prop :=
  exists steps name, NameAt message offset steps name size.

Record SvcParam : Type := mkSvcParam {
  key : N;
  value : list byte
}.

Definition encodeParam (param : SvcParam) : list byte :=
  uint16 (key param) ++ uint16 (N.of_nat (List.length (value param)))
  ++ value param.

Definition validParam (param : SvcParam) : Prop :=
  (key param < 65536)%N /\ (N.of_nat (List.length (value param)) < 65536)%N.

(** The rdata of an HTTPS record *)
Record HttpsData : Type := mkHttpsData {
  priority : N;
  target : Name;
  svcParams : list SvcParam
}.

Definition encodeHttps (data : HttpsData) : list byte :=
  uint16 (priority data) ++ encodeName (target data)
  ++ flat_map encodeParam (svcParams data).

Definition validHttps (data : HttpsData) : Prop :=
  (priority data < 65536)%N /\ validName (target data)
  /\ Forall validParam (svcParams data)
  /\ (N.of_nat (List.length (encodeHttps data)) < 65536)%N.

Definition isEchParam (param : SvcParam) : bool := (key param =? 5)%N.

(** Some parameter has key 5. *)
Definition carriesEch (data : HttpsData) : bool :=
  existsb isEchParam (svcParams data).

(** The value of the ECH parameter; of the last one should the key be
    repeated. *)
Definition echValue (data : HttpsData) : option (list byte) :=
  option_map value (find isEchParam (rev (svcParams data))).

(** The entry of one parameter in the listing of the keys. *)
Definition paramText (param : SvcParam) : string :=
  ("key" ++ Text.decimal (key param) ++ "("
   ++ Text.decimal (N.of_nat (List.length (value param))) ++ "B)")%string.

(** The descriptive record string: priority, target, the listing of the
    parameter keys and the base64 text of the ECH value. *)
Definition describe (data : HttpsData) : string :=
  ("priority=" ++ Text.decimal (priority data) ++ " target="
   ++ match target data with
      | [] => "."
      | _ => nameText (target data)
      end
   ++ match svcParams data with
      | [] => EmptyString
      | _ =>
        " params=[" ++ String.concat ", " (map paramText (svcParams data))
        ++ "]"
      end
   ++ match echValue data with
      | Some [] => " echconfig"
      | Some bytes => " echconfig(base64)=" ++ Text.bytesToBase64 bytes
      | None => EmptyString
      end)%string.

(** An answer record: an HTTPS record, or a record of another type with
    its rdata as it stands. *)
Inductive Rdata : Type :=
| Https (data : HttpsData)
| Other (type : N) (bytes : list byte).

(** An answer record; [owner] holds the bytes of its name field. *)
Record ResourceRecord : Type := mkResourceRecord {
  owner : list byte;
  class : N;
  ttl : N;
  rdata : Rdata
}.

Definition rdataType (rdata : Rdata) : N :=
  match rdata with
  | Https _ => 65%N
  | Other type _ => type
  end.

Definition rdataBytes (rdata : Rdata) : list byte :=
  match rdata with
  | Https data => encodeHttps data
  | Other _ bytes => bytes
  end.

Definition encodeRecord (rr : ResourceRecord) : list byte :=
  owner rr ++ uint16 (rdataType (rdata rr))
  ++ uint16 (class rr) ++ uint32 (ttl rr)
  ++ uint16 (N.of_nat (List.length (rdataBytes (rdata rr))))
  ++ rdataBytes (rdata rr).

Definition validRdata (rdata : Rdata) : Prop :=
  match rdata with
  | Https data => validHttps data
  | Other type bytes =>
    (type < 65536)%N /\ type <> 65%N
    /\ (N.of_nat (List.length bytes) < 65536)%N
  end.

(** The records [rrs] are laid out in [message] from [offset] on: each
    begins with a name field and carries valid rdata. *)
Fixpoint recordsAt (message : list byte) (offset : nat)
  (rrs : list ResourceRecord) : Prop :=
  match rrs with
  | [] => True
  | rr :: rest =>
    nameFieldAt message offset (List.length (owner rr)) /\
    validRdata (rdata rr) /\
    recordsAt message (offset + List.length (encodeRecord rr)) rest
  end.

(** A question; [qname] holds the bytes of its name field. *)
Record Question : Type := mkQuestion {
  qname : list byte;
  qtype : N;
  qclass : N
}.

Definition encodeQuestion (q : Question) : list byte :=
  qname q ++ uint16 (qtype q) ++ uint16 (qclass q).

Fixpoint questionsAt (message : list byte) (offset : nat)
  (qs : list Question) : Prop :=
  match qs with
  | [] => True
  | q :: rest =>
    nameFieldAt message offset (List.length (qname q)) /\
    questionsAt message (offset + List.length (encodeQuestion q)) rest
  end.

(** A response: header, question section, answer section, and whatever
    follows (authority and additional sections). *)
Record Message : Type := mkMessage {
  id : N;
  flags : N;
  questions : list Question;
  answers : list ResourceRecord;
  nscount : N;
  arcount : N;
  trailing : list byte
}.

Definition encodeMessage (m : Message) : list byte :=
  uint16 (id m) ++ uint16 (flags m)
  ++ uint16 (N.of_nat (List.length (questions m)))
  ++ uint16 (N.of_nat (List.length (answers m)))
  ++ uint16 (nscount m) ++ uint16 (arcount m)
  ++ flat_map encodeQuestion (questions m)
  ++ flat_map encodeRecord (answers m)
  ++ trailing m.

(** A well-formed response: the counts fit their fields, and in the
    encoded message the questions and the answers are laid out behind
    the header. *)
Definition validMessage (m : Message) : Prop :=
  (N.of_nat (List.length (questions m)) < 65536)%N /\
  (N.of_nat (List.length (answers m)) < 65536)%N /\
  questionsAt (encodeMessage m) 12 (questions m) /\
  recordsAt (encodeMessage m)
    (12 + List.length (flat_map encodeQuestion (questions m))) (answers m).

(** The HTTPS records among some answers, in order. *)
Definition httpsRecords (rrs : list ResourceRecord) : list HttpsData :=
  flat_map (fun rr => match rdata rr with
                      | Https data => [data]
                      | Other _ _ => []
                      end) rrs.

Definition httpsAnswers (m : Message) : list HttpsData :=
  httpsRecords (answers m).

(** An HTTPS record that [parseHttpsSvcbRecord] describes: its rdata has
    at least four bytes. *)
Definition described (data : HttpsData) : bool :=
  4 <=? List.length (encodeHttps data).

(** The lookup result in the words of the specification, restricted to
    the records that get a description: the first HTTPS record that
    carries ECH, or else the first HTTPS record. *)
Definition expectedLookup (m : Message) : Wire.HttpsLookup :=
  match find carriesEch (httpsAnswers m) with
  | Some data =>
    {| Wire.found := true; Wire.record := Some (describe data);
       Wire.error := None |}
  | None =>
    {| Wire.found := false;
       Wire.record := option_map describe (find described (httpsAnswers m));
       Wire.error := None |}
  end.

(** The lookup result as the specification words it: the first HTTPS
    record that carries ECH, or else the first HTTPS record seen. *)
Definition claimedLookup (m : Message) : Wire.HttpsLookup :=
  match find carriesEch (httpsAnswers m) with
  | Some data =>
    {| Wire.found := true; Wire.record := Some (describe data);
       Wire.error := None |}
  | None =>
    {| Wire.found := false;
       Wire.record := option_map describe (hd_error (httpsAnswers m));
       Wire.error := None |}
  end.

(** The rdata of the example of the specification: priority 1, the root
    name as target, and the single parameter [key=5, value=0xDEAD]. *)
Definition exampleEchData : HttpsData :=
  {| priority := 1; target := [];
     svcParams := [ {| key := 5; value := [xde; xad] |} ] |}.

(** A three-byte HTTPS rdata (priority 1, root target, no parameter) and
    an HTTPS rdata with one ALPN parameter. *)
Definition bareData : HttpsData :=
  {| priority := 1; target := []; svcParams := [] |}.

Definition alpnData : HttpsData :=
  {| priority := 2; target := [];
     svcParams := [ {| key := 1; value := [x02; x68; x32] |} ] |}.

(** The name "ab.c" written in full, as in a question, and the pointer to
    offset 12, where the name of the first question stands. *)
Definition exampleName : list byte := encodeName [[x61; x62]; [x63]].

Definition examplePointer : list byte := [xc0; x0c].

(** A response whose answers are the bare record followed by the ALPN
    record. *)
Definition bareFirstMessage : Message :=
  {| id := 43981; flags := 33152;
     questions := [ {| qname := exampleName; qtype := 65; qclass := 1 |} ];
     answers :=
       [ {| owner := examplePointer; class := 1; ttl := 300;
            rdata := Https bareData |};
         {| owner := examplePointer; class := 1; ttl := 300;
            rdata := Https alpnData |} ];
     nscount := 0; arcount := 0; trailing := [] |}.

(** A response with an address record, the ALPN record and the ECH
    record. *)
Definition echMessage : Message :=
  {| id := 43981; flags := 33152;
     questions := [ {| qname := exampleName; qtype := 65; qclass := 1 |} ];
     answers :=
       [ {| owner := examplePointer; class := 1; ttl := 300;
            rdata := Other 1 [x5d; xb8; xd8; x22] |};
         {| owner := examplePointer; class := 1; ttl := 300;
            rdata := Https alpnData |};
         {| owner := examplePointer; class := 1; ttl := 300;
            rdata := Https exampleEchData |} ];
     nscount := 0; arcount := 0; trailing := [] |}.

End WireFormat.

(** ** Record types: [recordTypeToNumber] *)

Module RecordType.

(** A JavaScript number.  [Finite q] is the double whose value is the
    rational [q]; the sign of a zero is not kept. *)
Inductive JsNumber : Type :=
| NaN
| Infinity (negative : bool)
| Finite (value : Q).

(** [Number.isFinite(n)] *)
Definition isFinite (n : JsNumber) : bool :=
  match n with
  | Finite _ => true
  | _ => false
  end.

(** [n > 0] *)
Definition greaterThanZero (n : JsNumber) : bool :=
  match n with
  | Finite q => negb (Qle_bool q 0)
  | Infinity negative => negb negative
  | NaN => false
  end.

Definition code (c : ascii) : nat := nat_of_ascii c.

Definition inRange (low high : nat) (c : ascii) : bool :=
  (low <=? code c) && (code c <=? high).

Definition isDigit (c : ascii) : bool := inRange 48 57 c.

Definition DIGITS : list ascii :=
  ["0"; "1"; "2"; "3"; "4"; "5"; "6"; "7"; "8"; "9"]%char.

Definition isHexDigit (c : ascii) : bool :=
  isDigit c || inRange 65 70 c || inRange 97 102 c.

Definition isOctalDigit (c : ascii) : bool := inRange 48 55 c.

Definition isBinaryDigit (c : ascii) : bool := inRange 48 49 c.

(** The value of a digit in any of the four bases. *)
Definition digitValue (c : ascii) : N :=
  if isDigit c then N.of_nat (code c - 48)
  else if inRange 65 70 c then N.of_nat (code c - 55)
  else N.of_nat (code c - 87).

(** The mathematical value of a numeral, most significant digit first. *)
Fixpoint numeral (base : N) (digits : string) (acc : N) : N :=
  match digits with
  | EmptyString => acc
  | String c rest => numeral base rest (acc * base + digitValue c)%N
  end.

Fixpoint all (p : ascii -> bool) (s : string) : bool :=
  match s with
  | EmptyString => true
  | String c rest => p c && all p rest
  end.

(** A non-empty run of characters in [p]. *)
Definition run (p : ascii -> bool) (s : string) : bool :=
  match s with
  | EmptyString => false
  | _ => all p s
  end.

(** The longest prefix of characters in [p], and what follows it. *)
Fixpoint span (p : ascii -> bool) (s : string) : string * string :=
  match s with
  | EmptyString => (EmptyString, EmptyString)
  | String c rest =>
    if p c then
      let '(taken, remaining) := span p rest in (String c taken, remaining)
    else (EmptyString, s)
  end.

(** Strings are kept as their UTF-8 bytes. *)
Definition utf8 (bytes : list nat) : string :=
  string_of_list_ascii (map ascii_of_nat bytes).

(** [WhiteSpace] and [LineTerminator] of ECMAScript: TAB, LF, VT, FF, CR,
    SP, U+00A0, U+1680, U+2000 to U+200A, U+2028, U+2029, U+202F,
    U+205F, U+3000 and U+FEFF. *)
Definition WHITE_SPACE : list string :=
  map utf8
    [ [9]; [10]; [11]; [12]; [13]; [32]; [194; 160]; [225; 154; 128];
      [226; 128; 128]; [226; 128; 129]; [226; 128; 130]; [226; 128; 131];
      [226; 128; 132]; [226; 128; 133]; [226; 128; 134]; [226; 128; 135];
      [226; 128; 136]; [226; 128; 137]; [226; 128; 138]; [226; 128; 168];
      [226; 128; 169]; [226; 128; 175]; [226; 129; 159]; [227; 128; 128];
      [239; 187; 191] ].

Fixpoint dropPrefix (prefix s : string) : option string :=
  match prefix with
  | EmptyString => Some s
  | String p prefix' =>
    match s with
    | String c s' => if Ascii.eqb p c then dropPrefix prefix' s' else None
    | EmptyString => None
    end
  end.

(** [s] without one leading element of [spaces], if it starts with one. *)
Definition dropSpace (spaces : list string) (s : string) : option string :=
  Js.firstPresent (map (fun space => dropPrefix space s) spaces).

Fixpoint dropSpaces (spaces : list string) (fuel : nat) (s : string)
  : string :=
  match fuel with
  | O => s
  | S fuel' =>
    match dropSpace spaces s with
    | Some rest => dropSpaces spaces fuel' rest
    | None => s
    end
  end.

Definition reverse (s : string) : string :=
  string_of_list_ascii (rev (list_ascii_of_string s)).

(** [s.trim()] *)
Definition trim (s : string) : string :=
  let s := dropSpaces WHITE_SPACE (String.length s) s in
  reverse (dropSpaces (map reverse WHITE_SPACE) (String.length s) (reverse s)).

(** [s.toUpperCase()], as far as it bears on a comparison with ["A"],
    ["AAAA"] or ["HTTPS"]: the letters a to z and U+017F (whose upper
    case is S) are mapped, every other character is left as it is. *)
Fixpoint toUpperCase (s : string) : string :=
  match s with
  | EmptyString => EmptyString
  | String c rest =>
    if inRange 97 122 c then
      String (ascii_of_nat (code c - 32)) (toUpperCase rest)
    else
      match rest with
      | String c' rest' =>
        if (code c =? 197) && (code c' =? 191)
        then String "S" (toUpperCase rest')
        else String c (toUpperCase rest)
      | EmptyString => String c EmptyString
      end
  end.

(** The least magnitude that rounds to an infinity, and the greatest
    that rounds to zero. *)
Definition OVERFLOW : Z := 2 ^ 1024 - 2 ^ 970.
Definition UNDERFLOW : Q := 1 # (2 ^ 1075).

(** [mantissa * 10 ^ exponent] *)
Definition scaled (mantissa : N) (exponent : Z) : Q :=
  match exponent with
  | Z0 => inject_Z (Z.of_N mantissa)
  | Zpos p => inject_Z (Z.of_N mantissa * 10 ^ Zpos p)
  | Zneg p => Z.of_N mantissa # (10 ^ p)
  end.

(** The greatest [e] with [2 ^ e <= n / d], for positive [n] and [d]. *)
Definition binade (n d : Z) : Z :=
  let e := (Z.log2 n - Z.log2 d)%Z in
  if (if 0 <=? e then d * 2 ^ e <=? n else d <=? n * 2 ^ (- e))%Z then e
  else (e - 1)%Z.

(** [num / den] rounded to the nearest integer, a tie to the even one. *)
Definition roundHalfEven (num den : Z) : Z :=
  let quotient := (num / den)%Z in
  let twice := (2 * (num mod den))%Z in
  if (twice <? den)%Z then quotient
  else if (den <? twice)%Z then (quotient + 1)%Z
  else if Z.even quotient then quotient
  else (quotient + 1)%Z.

(** The double nearest to a magnitude between [UNDERFLOW] and
    [OVERFLOW], a tie going to the even mantissa: a multiple of the unit
    in the last place, which is [2 ^ (e - 52)] for a magnitude in
    [[2 ^ e, 2 ^ (e + 1))] and [2 ^ -1074] below [2 ^ -1022].  The
    result is in lowest terms.  This is the value that [Number] gives
    to a literal of up to twenty significant digits; for a longer one
    ECMAScript lets an implementation round the digits first, and V8
    returns the nearest double all the same. *)
Definition nearestDouble (magnitude : Q) : Q :=
  let n := Qnum magnitude in
  let d := Z.pos (Qden magnitude) in
  let exponent := (Z.max (binade n d) (-1022) - 52)%Z in
  if (0 <=? exponent)%Z then
    inject_Z (roundHalfEven n (d * 2 ^ exponent) * 2 ^ exponent)
  else
    Qred (roundHalfEven (n * 2 ^ (- exponent)) d
          # Z.to_pos (2 ^ (- exponent))).

(** The Number value of a magnitude with a sign: the nearest double. *)
Definition toNumber (negative : bool) (mantissa : N) (exponent : Z)
  : JsNumber :=
  let magnitude := scaled mantissa exponent in
  if Qle_bool (inject_Z OVERFLOW) magnitude then Infinity negative
  else if Qle_bool magnitude UNDERFLOW then Finite 0
  else
    let value := nearestDouble magnitude in
    Finite (if negative then Qopp value else value).

(** A sign, if there is one, and what follows it. *)
Definition signed (s : string) : bool * string :=
  match s with
  | String "+" rest => (false, rest)
  | String "-" rest => (true, rest)
  | _ => (false, s)
  end.

(** [ExponentPart], or nothing; the text has to end with it. *)
Definition parseExponent (s : string) : option Z :=
  match s with
  | EmptyString => Some 0%Z
  | String c rest =>
    if Ascii.eqb c "e" || Ascii.eqb c "E" then
      let '(negative, digits) := signed rest in
      if run isDigit digits then
        let e := Z.of_N (numeral 10 digits 0) in
        Some (if negative then (- e)%Z else e)
      else None
    else None
  end.

(** [StrUnsignedDecimalLiteral] other than [Infinity]: mantissa and
    decimal exponent. *)
Definition parseUnsigned (s : string) : option (N * Z) :=
  let '(integer, rest) := span isDigit s in
  match rest with
  | String "." rest' =>
    let '(fraction, rest'') := span isDigit rest' in
    match integer, fraction with
    | EmptyString, EmptyString => None
    | _, _ =>
      match parseExponent rest'' with
      | Some e =>
        Some (numeral 10 (integer ++ fraction) 0,
              (e - Z.of_nat (String.length fraction))%Z)
      | None => None
      end
    end
  | _ =>
    match integer with
    | EmptyString => None
    | _ =>
      match parseExponent rest with
      | Some e => Some (numeral 10 integer 0, e)
      | None => None
      end
    end
  end.

(** [StrDecimalLiteral] *)
Definition parseDecimal (s : string) : JsNumber :=
  let '(negative, body) := signed s in
  if String.eqb body "Infinity" then Infinity negative
  else
    match parseUnsigned body with
    | Some (mantissa, exponent) => toNumber negative mantissa exponent
    | None => NaN
    end.

(** [NonDecimalIntegerLiteral] *)
Definition parseNonDecimal (s : string) : option N :=
  match s with
  | String "0" (String letter digits) =>
    if Ascii.eqb letter "x" || Ascii.eqb letter "X" then
      if run isHexDigit digits then Some (numeral 16 digits 0) else None
    else if Ascii.eqb letter "o" || Ascii.eqb letter "O" then
      if run isOctalDigit digits then Some (numeral 8 digits 0) else None
    else if Ascii.eqb letter "b" || Ascii.eqb letter "B" then
      if run isBinaryDigit digits then Some (numeral 2 digits 0) else None
    else None
  | _ => None
  end.

(** [Number(s)] on a string *)
Definition Number (s : string) : JsNumber :=
  let text := trim s in
  match text with
  | EmptyString => Finite 0
  | _ =>
    match parseNonDecimal text with
    | Some n => toNumber false n 0
    | None => parseDecimal text
    end
  end.

Definition ERR_UNSUPPORTED : string := "不支持的 DNS 记录类型: ".

(** [recordTypeToNumber] *)
Definition recordTypeToNumber (recordType : string) : Completion JsNumber :=
  let upper := toUpperCase recordType in
  if String.eqb upper "A" then Normal (Finite 1)
  else if String.eqb upper "AAAA" then Normal (Finite 28)
  else if String.eqb upper "HTTPS" then
    Normal (Finite (inject_Z (Z.of_N Wire.HTTPS_RECORD_TYPE)))
  else
    let numeric := Number recordType in
    if isFinite numeric && greaterThanZero numeric then Normal numeric
    else Thrown (ERR_UNSUPPORTED ++ recordType)%string.

(** A positive integer string: decimal digits, at least one, denoting a
    number greater than zero. *)
Definition isPositiveIntegerString (s : string) : bool :=
  run isDigit s && (0 <? numeral 10 s 0)%N.

(** The mapping in the words of the specification. *)
Definition claimedRecordTypeToNumber (recordType : string)
  : Completion JsNumber :=
  if String.eqb recordType "A" then Normal (Finite 1)
  else if String.eqb recordType "AAAA" then Normal (Finite 28)
  else if String.eqb recordType "HTTPS" then Normal (Finite 65)
  else if isPositiveIntegerString recordType then
    Normal (Finite (inject_Z (Z.of_N (numeral 10 recordType 0))))
  else Thrown (ERR_UNSUPPORTED ++ recordType)%string.

End RecordType.

(** ** Results of the query executor *)

Inductive DohRequestMode : Type := ModeJson | ModeWire.

Definition DohRequestMode_eqb (a b : DohRequestMode) : bool :=
  match a, b with
  | ModeJson, ModeJson | ModeWire, ModeWire => true
  | _, _ => false
  end.

Inductive DohResponseFormat : Type :=
| FormatJson | FormatWire | FormatText | FormatUnknown.

Inductive DohStatus : Type := success | failure | partial_match.

(** A parsed JSON body.  The engine only hands it to the two answer
    extractors and stores it as [raw]; it is kept as its text. *)
Definition Json : Type := string.

(** The values stored in the [raw] field. *)
Inductive Raw : Type :=
| RawJson (json : Json)
| RawNull
| RawSnippet (snippet : string)
| RawDnsMessage (contentType : option string) (base64 : string).

(** [format && format !== "unknown"] *)
Definition knownFormat (format : option DohResponseFormat) : bool :=
  match format with
  | Some FormatUnknown | None => false
  | Some _ => true
  end.

Module Doh.

(** [DohBaseResult] *)
Record BaseResult : Type := mkBase {
  status : option Z;
  ok : bool;
  ips : list string;
  latency_ms : option Z;
  response_format : option DohResponseFormat;
  content_type : option string;
  raw : option Raw;
  error : option string
}.

(** [DohProviderModeResult] *)
Record ModeResult : Type := mkMode {
  mode : DohRequestMode;
  base : BaseResult
}.

(** [DohProviderResult] *)
Record ProviderResult : Type := mkProvider {
  result : BaseResult;
  attempted_formats : list DohRequestMode;
  mode_results : option (list ModeResult)
}.

Definition DEFAULT_ERROR : string := "DoH 查询失败。".

(** [summarizeDohModeResult] *)
Definition summarizeDohModeResult (successful : ModeResult)
  (attempts : list ModeResult) : ProviderResult :=
  {| result := base successful;
     attempted_formats := map mode attempts;
     mode_results := Some attempts |}.

(** [combineDohFailures] *)
Definition combineDohFailures (results : list ModeResult) : ProviderResult :=
  match Js.lastItem results with
  | None =>
    {| result := {| status := None; ok := false; ips := [];
                    latency_ms := None;
                    response_format := Some FormatUnknown;
                    content_type := None; raw := None;
                    error := Some DEFAULT_ERROR |};
       attempted_formats := [];
       mode_results := Some [] |}
  | Some last =>
    let status :=
      match status (base last) with
      | Some s => Some s
      | None =>
        Js.firstPresent (map (fun item => status (base item)) (rev results))
      end in
    let latency :=
      match latency_ms (base last) with
      | Some l => Some l
      | None =>
        Js.firstPresent
          (map (fun item => latency_ms (base item)) (rev results))
      end in
    let responseFormat :=
      if knownFormat (response_format (base last))
      then response_format (base last)
      else
        match find knownFormat
                (map (fun item => response_format (base item)) results) with
        | Some format => format
        | None => Some FormatUnknown
        end in
    let contentType :=
      if Js.truthy (content_type (base last)) then content_type (base last)
      else
        match find Js.truthy
                (map (fun item => content_type (base item)) results) with
        | Some type => type
        | None => None
        end in
    let errors :=
      Js.filterTruthy (map (fun item => error (base item)) results) in
    {| result :=
         {| status := status;
            ok := false;
            ips := Js.newSet String.eqb
                     (flat_map (fun item => ips (base item)) results);
            latency_ms := latency;
            response_format := responseFormat;
            content_type := contentType;
            raw := raw (base last);
            error := Some (match errors with
                           | [] => DEFAULT_ERROR
                           | _ => String.concat " | " errors
                           end) |};
       attempted_formats := map mode results;
       mode_results := Some results |}
  end.

End Doh.

Module Ech.

(** [EchProviderResult]: [EchBaseResult] with [attempted_formats].  The
    optional [mode_results] is never written by the source and is left
    out. *)
Record ProviderResult : Type := mkProvider {
  found : bool;
  record : option string;
  status : option Z;
  latency_ms : option Z;
  response_format : option DohResponseFormat;
  content_type : option string;
  raw : option Raw;
  error : option string;
  attempted_formats : list DohRequestMode
}.

Definition DEFAULT_ERROR : string := "HTTPS 记录查询失败。".

(** [combineEchFailures].  The source is only called on a non-empty
    array; on an empty one there is no last attempt to copy and the
    model returns [None]. *)
Definition combineEchFailures (results : list ProviderResult)
  : option ProviderResult :=
  match Js.lastItem results with
  | None => None
  | Some merged =>
    let status :=
      match status merged with
      | Some s => Some s
      | None => Js.firstPresent (map status (rev results))
      end in
    let latency :=
      match latency_ms merged with
      | Some l => Some l
      | None => Js.firstPresent (map latency_ms (rev results))
      end in
    let responseFormat :=
      if knownFormat (response_format merged) then response_format merged
      else
        match find knownFormat (map response_format results) with
        | Some format => format
        | None => response_format merged
        end in
    let contentType :=
      if Js.truthy (content_type merged) then content_type merged
      else
        match find Js.truthy (map content_type results) with
        | Some type => type
        | None => None
        end in
    let errors := Js.filterTruthy (map error results) in
    Some {| found := existsb found results;
            record :=
              match find Js.truthy (map record results) with
              | Some r => r
              | None => None
              end;
            status := status;
            latency_ms := latency;
            response_format := responseFormat;
            content_type := contentType;
            raw := raw merged;
            error := Some (match errors with
                           | [] => DEFAULT_ERROR
                           | _ => String.concat " | " errors
                           end);
            attempted_formats :=
              Js.newSet DohRequestMode_eqb
                (flat_map attempted_formats results) |}
  end.

End Ech.

(** ** Query executor *)

Module Executor.

(** *** The environment: URLs, the HTTP client, the random source *)

(** A parsed URL: its host name, its query parameters in order, and the
    rest of it. *)
Record Url : Type := mkUrl {
  base : string;
  hostname : string;
  searchParams : list (string * string)
}.

(** [url.searchParams.delete(name)] *)
Definition searchParams_delete (name : string) (url : Url) : Url :=
  {| base := base url; hostname := hostname url;
     searchParams :=
       filter (fun entry => negb (String.eqb (fst entry) name))
         (searchParams url) |}.

(** [url.searchParams.set(name, value)]: the first entry of that name
    gets the value and the others go; without one the pair is appended. *)
Fixpoint setParam (name value : string) (entries : list (string * string))
  : list (string * string) :=
  match entries with
  | [] => [(name, value)]
  | (n, v) :: rest =>
    if String.eqb n name then
      (name, value)
      :: filter (fun entry => negb (String.eqb (fst entry) name)) rest
    else (n, v) :: setParam name value rest
  end.

Definition searchParams_set (name value : string) (url : Url) : Url :=
  {| base := base url; hostname := hostname url;
     searchParams := setParam name value (searchParams url) |}.

(** A request as [fetch] receives it *)
Record Request : Type := mkRequest {
  url : Url;
  accept : string;
  timeout : Z
}.

(** What the body readers of a [Response] give *)
Record Response : Type := mkResponse {
  status : Z;
  contentType : option string;
  json : Settled Json;
  text : Settled string;
  arrayBuffer : Settled (list byte)
}.

(** [response.ok] *)
Definition ok (response : Response) : bool :=
  (200 <=? status response)%Z && (status response <=? 299)%Z.

(** The outcome of one round trip: a response together with the
    milliseconds it took, or a timeout or network error. *)
Inductive FetchOutcome : Type :=
| Responded (latency_ms : Z) (response : Response)
| Failed (message : string).

(** The capabilities the engine consumes.  The HTTP client may answer
    according to all the requests issued before. *)
Record Platform : Type := mkPlatform {
  newURL : string -> Settled Url;
  fetch : list Request -> Request -> FetchOutcome;
  randomUint16 : nat -> N
}.

(** The state of the environment: the requests issued so far, oldest
    first, and the number of random values drawn. *)
Record World : Type := mkWorld {
  requests : list Request;
  drawn : nat
}.

(** *** The monad of the executor: state and exceptions *)

Definition M (A : Type) : Type := World -> Completion A * World.

Definition ret {A : Type} (a : A) : M A := fun w => (Normal a, w).

Definition mbind {A B : Type} (c : M A) (k : A -> M B) : M B :=
  fun w =>
    match c w with
    | (Normal a, w') => k a w'
    | (Thrown m, w') => (Thrown m, w')
    | (Unfinished, w') => (Unfinished, w')
    end.

Notation "x <- c ;; k" := (mbind c (fun x => k))
  (at level 61, c at next level, right associativity).

(** A pure computation that may throw *)
Definition lift {A : Type} (c : Completion A) : M A := fun w => (c, w).

(** [try { body } catch (error) { handler(normalizeErrorMessage(error)) }] *)
Definition tryCatch {A : Type} (body : M A) (handler : string -> M A) : M A :=
  fun w =>
    match body w with
    | (Thrown m, w') => handler m w'
    | other => other
    end.

(** [array.map] with an effectful function, in order *)
Fixpoint mapM {A B : Type} (f : A -> M B) (l : list A) : M (list B) :=
  match l with
  | [] => ret []
  | a :: rest =>
    b <- f a ;;
    bs <- mapM f rest ;;
    ret (b :: bs)
  end.

Section WithPlatform.

Context (platform : Platform).

(** [await fetch(url.toString(), { headers, signal })] with the clock
    read before and after it *)
Definition doFetch (request : Request) : M (Z * Response) :=
  fun w =>
    let w' := {| requests := requests w ++ [request]; drawn := drawn w |} in
    match fetch platform (requests w) request with
    | Responded latency_ms response => (Normal (latency_ms, response), w')
    | Failed message => (Thrown message, w')
    end.

(** [generateRequestId] *)
Definition generateRequestId : M N :=
  fun w =>
    (Normal (randomUint16 platform (drawn w) mod 65536)%N,
     {| requests := requests w; drawn := S (drawn w) |}).

(** *** Building the request URLs *)

(** [new URL(input)], which returns or throws *)
Definition newUrl (input : string) : Completion Url :=
  await (newURL platform input).

(** [buildDohJsonUrl] *)
Definition buildDohJsonUrl (endpoint name type : string) : Completion Url :=
  let* url := newUrl endpoint in
  Normal (searchParams_set "type" type (searchParams_set "name" name url)).

(** [normalizeDomain] *)
Definition normalizeDomain (domain : string) : Completion string :=
  let trimmed := RecordType.trim domain in
  match trimmed with
  | EmptyString => Thrown "域名不能为空。"
  | _ =>
    try_catch
      (let* url :=
         if Js.includes trimmed "://" then newUrl trimmed
         else newUrl ("https://" ++ trimmed)%string in
       Normal (Js.dropFinalDot (hostname url)))
      (fun _ => Normal (Js.dropFinalDot trimmed))
  end.

(** [view.setUint16(offset, value)] of a number: truncated and reduced
    modulo 65536; what is not finite counts as 0. *)
Definition toUint16 (value : RecordType.JsNumber) : N :=
  match value with
  | RecordType.Finite q => Z.to_N ((Qnum q ÷ Z.pos (Qden q)) mod 65536)%Z
  | _ => 0%N
  end.

(** The labels that [buildDnsQueryMessage] writes *)
Definition queryLabels (domain : string) : list string :=
  filter (fun label => negb (String.eqb label EmptyString))
    (match domain with
     | EmptyString => []
     | _ => Js.split "." domain
     end).

(** [buildDnsQueryMessage] *)
Definition buildDnsQueryMessage (domain : string)
  (recordType : RecordType.JsNumber) : M (list byte) :=
  let labels := queryLabels domain in
  match find (fun label => 63 <? Js.length label) labels with
  | Some label => lift (Thrown ("域名标签过长: " ++ label)%string)
  | None =>
    id <- generateRequestId ;;
    ret (WireFormat.uint16 id ++ WireFormat.uint16 256
         ++ WireFormat.uint16 1 ++ WireFormat.uint16 0
         ++ WireFormat.uint16 0 ++ WireFormat.uint16 0
         ++ flat_map (fun label =>
                        WireFormat.byteOf (N.of_nat (Js.length label))
                        :: map WireFormat.byteOf (Js.charCodes label))
              labels
         ++ [x00]
         ++ WireFormat.uint16 (toUint16 recordType)
         ++ WireFormat.uint16 1)
  end.

(** [buildDohWireUrl] *)
Definition buildDohWireUrl (endpoint name type : string) : M Url :=
  recordType <- lift (RecordType.recordTypeToNumber type) ;;
  hostname <- lift (normalizeDomain name) ;;
  query <- buildDnsQueryMessage hostname recordType ;;
  url <- lift (newUrl endpoint) ;;
  ret (searchParams_set "dns" (Text.bytesToBase64Url query)
         (searchParams_delete "type" (searchParams_delete "name" url))).

(** The URL of an attempt in the given mode *)
Definition buildUrl (mode : DohRequestMode) (endpoint name type : string)
  : M Url :=
  match mode with
  | ModeJson => lift (buildDohJsonUrl endpoint name type)
  | ModeWire => buildDohWireUrl endpoint name type
  end.

Definition acceptHeader (mode : DohRequestMode) : string :=
  match mode with
  | ModeJson => "application/dns-json"
  | ModeWire => "application/dns-message"
  end.

(** *** Content types *)

(** [isJsonContentType] *)
Definition isJsonContentType (contentType : option string) : bool :=
  if negb (Js.truthy contentType) then false
  else
    match contentType with
    | Some value =>
      let normalized := Js.toLowerCase value in
      Js.includes normalized "application/dns-json"
      || Js.includes normalized "application/json"
      || Js.includes normalized "text/json"
    | None => false
    end.

(** [isTextContentType] *)
Definition isTextContentType (contentType : option string) : bool :=
  if negb (Js.truthy contentType) then false
  else
    match contentType with
    | Some value =>
      let normalized := Js.toLowerCase value in
      Js.includes normalized "text/"
      || Js.includes normalized "application/text"
      || Js.includes normalized "text/plain"
    | None => false
    end.

(** [text.length > 200 ? `${text.slice(0, 200)}…` : text] *)
Definition snippetOf (text : string) : string :=
  if 200 <? Js.length text
  then (Js.sliceFromStart 200 text ++ "…")%string
  else text.

(** [createDnsMessageRaw] *)
Definition createDnsMessageRaw (buffer : list byte)
  (contentType : option string) : Raw :=
  RawDnsMessage contentType (Text.bytesToBase64 buffer).

(** Runs [c] and hands back what it threw instead of throwing it. *)
Definition attempt {A : Type} (c : M A) : M (A + string) :=
  fun w =>
    match c w with
    | (Normal a, w') => (Normal (inl a), w')
    | (Thrown m, w') => (Normal (inr m), w')
    | (Unfinished, w') => (Unfinished, w')
    end.

(** The JSON answer extractors of the source are not interpreted: the
    properties of the executor hold whatever they return. *)
Context (extractIpsFromAnswer : Json -> list string).
Context (extractHttpsRecord : Json -> option string).

(** *** A-record attempts *)

(** The result of an attempt that did not produce a response. *)
Definition dohFailure (mode : DohRequestMode) (message : string)
  : Doh.ModeResult :=
  {| Doh.mode := mode;
     Doh.base :=
       {| Doh.status := None; Doh.ok := false; Doh.ips := [];
          Doh.latency_ms := None;
          Doh.response_format := Some FormatUnknown;
          Doh.content_type := None; Doh.raw := None;
          Doh.error := Some message |} |}.

(** [performDohRequest] from the response on *)
Definition decodeDohResponse (mode : DohRequestMode) (latency_ms : Z)
  (response : Response) : M Doh.ModeResult :=
  let status := status response in
  let contentType := contentType response in
  if isJsonContentType contentType then
    tryCatch
      (json <- lift (await (json response)) ;;
       let ips := extractIpsFromAnswer json in
       let ok := ok response && (0 <? List.length ips) in
       ret {| Doh.mode := mode;
              Doh.base :=
                {| Doh.status := Some status; Doh.ok := ok; Doh.ips := ips;
                   Doh.latency_ms := Some latency_ms;
                   Doh.response_format := Some FormatJson;
                   Doh.content_type := contentType;
                   Doh.raw := Some (RawJson json);
                   Doh.error :=
                     if ok then None
                     else Some "未在响应中找到有效的 A 记录。" |} |})
      (fun message =>
         ret {| Doh.mode := mode;
                Doh.base :=
                  {| Doh.status := Some status; Doh.ok := false;
                     Doh.ips := [];
                     Doh.latency_ms := Some latency_ms;
                     Doh.response_format := Some FormatJson;
                     Doh.content_type := contentType;
                     Doh.raw := Some RawNull;
                     Doh.error :=
                       Some ("解析 JSON 响应失败：" ++ message)%string |} |})
  else if isTextContentType contentType then
    text <- lift (await (text response)) ;;
    let snippet := snippetOf text in
    ret {| Doh.mode := mode;
           Doh.base :=
             {| Doh.status := Some status; Doh.ok := false; Doh.ips := [];
                Doh.latency_ms := Some latency_ms;
                Doh.response_format := Some FormatText;
                Doh.content_type := contentType;
                Doh.raw := Some (RawSnippet snippet);
                Doh.error :=
                  Some (match snippet with
                        | EmptyString => "服务器返回了文本响应。"
                        | _ => ("服务器返回文本响应：" ++ snippet)%string
                        end) |} |}
  else
    buffer <- lift (await (arrayBuffer response)) ;;
    let raw := createDnsMessageRaw buffer contentType in
    tryCatch
      (ips <- lift (Wire.extractIpsFromDnsMessage buffer) ;;
       let ok := ok response && (0 <? List.length ips) in
       ret {| Doh.mode := mode;
              Doh.base :=
                {| Doh.status := Some status; Doh.ok := ok; Doh.ips := ips;
                   Doh.latency_ms := Some latency_ms;
                   Doh.response_format := Some FormatWire;
                   Doh.content_type := contentType;
                   Doh.raw := Some raw;
                   Doh.error :=
                     if ok then None
                     else Some "未在响应中找到有效的 A/AAAA 记录。" |} |})
      (fun message =>
         ret {| Doh.mode := mode;
                Doh.base :=
                  {| Doh.status := Some status; Doh.ok := false;
                     Doh.ips := [];
                     Doh.latency_ms := Some latency_ms;
                     Doh.response_format := Some FormatWire;
                     Doh.content_type := contentType;
                     Doh.raw := Some raw;
                     Doh.error :=
                       Some ("解析 DNS 二进制报文失败：" ++ message)%string
                  |} |}).

(** [performDohRequest] *)
Definition performDohRequest (endpoint name recordType : string)
  (timeout : Z) (mode : DohRequestMode) : M Doh.ModeResult :=
  built <- attempt (buildUrl mode endpoint name recordType) ;;
  match built with
  | inr message => ret (dohFailure mode message)
  | inl url =>
    tryCatch
      (answer <- doFetch {| url := url; accept := acceptHeader mode;
                            timeout := timeout |} ;;
       let '(latency_ms, response) := answer in
       decodeDohResponse mode latency_ms response)
      (fun message => ret (dohFailure mode message))
  end.

(** What every attempt of an A-record query satisfies: it carries its
    mode, it has addresses when it is marked ok, and an error text when
    it is not. *)
Definition wellFormedAttempt (mode : DohRequestMode) (r : Doh.ModeResult)
  : Prop :=
  Doh.mode r = mode /\
  (Doh.ok (Doh.base r) = true -> Doh.ips (Doh.base r) <> []) /\
  (Doh.ok (Doh.base r) = false -> exists e, Doh.error (Doh.base r) = Some e).

(** The requests of [after] are those of [before], followed by at most
    one request, which asks for the encoding of [mode]. *)
Definition atMostOneRequest (mode : DohRequestMode) (before after : World)
  : Prop :=
  requests after = requests before \/
  exists request,
    requests after = requests before ++ [request] /\
    accept request = acceptHeader mode.

(** [fetchDohAnswer] *)
Definition fetchDohAnswer (endpoint name recordType : string) (timeout : Z)
  : M Doh.ProviderResult :=
  modeResults <-
    mapM (performDohRequest endpoint name recordType timeout)
      [ModeJson; ModeWire] ;;
  let summary :=
    match find (fun item => Doh.ok (Doh.base item)) modeResults with
    | Some successful => Doh.summarizeDohModeResult successful modeResults
    | None => Doh.combineDohFailures modeResults
    end in
  ret {| Doh.result := Doh.result summary;
         Doh.attempted_formats := map Doh.mode modeResults;
         Doh.mode_results := Some modeResults |}.

(** *** HTTPS-record attempts *)

Definition MSG_NO_ECH : string := "未发现包含 ECH 参数的 HTTPS 记录。".

(** The result of an attempt that did not produce a response. *)
Definition echFailure (mode : DohRequestMode) (message : string)
  : Ech.ProviderResult :=
  {| Ech.found := false; Ech.record := None; Ech.status := None;
     Ech.latency_ms := None;
     Ech.response_format := Some FormatUnknown;
     Ech.content_type := None; Ech.raw := None;
     Ech.error := Some message;
     Ech.attempted_formats := [mode] |}.

(** [performHttpsRequest] from the response on *)
Definition decodeHttpsResponse (mode : DohRequestMode) (latency_ms : Z)
  (response : Response) : M Ech.ProviderResult :=
  let status := status response in
  let contentType := contentType response in
  if isJsonContentType contentType then
    tryCatch
      (json <- lift (await (json response)) ;;
       let record := extractHttpsRecord json in
       let found :=
         match record with
         | Some text => Js.truthy record && Js.includes text "ech="
         | None => false
         end in
       ret {| Ech.found := found; Ech.record := record;
              Ech.status := Some status;
              Ech.latency_ms := Some latency_ms;
              Ech.response_format := Some FormatJson;
              Ech.content_type := contentType;
              Ech.raw := Some (RawJson json);
              Ech.error := if found then None else Some MSG_NO_ECH;
              Ech.attempted_formats := [mode] |})
      (fun message =>
         ret {| Ech.found := false; Ech.record := None;
                Ech.status := Some status;
                Ech.latency_ms := Some latency_ms;
                Ech.response_format := Some FormatJson;
                Ech.content_type := contentType;
                Ech.raw := Some RawNull;
                Ech.error :=
                  Some ("解析 JSON 响应失败：" ++ message)%string;
                Ech.attempted_formats := [mode] |})
  else if isTextContentType contentType then
    text <- lift (await (text response)) ;;
    let snippet := snippetOf text in
    ret {| Ech.found := false; Ech.record := None;
           Ech.status := Some status;
           Ech.latency_ms := Some latency_ms;
           Ech.response_format := Some FormatText;
           Ech.content_type := contentType;
           Ech.raw := Some (RawSnippet snippet);
           Ech.error :=
             Some (match snippet with
                   | EmptyString => "服务器返回了文本响应。"
                   | _ => ("服务器返回文本响应：" ++ snippet)%string
                   end);
           Ech.attempted_formats := [mode] |}
  else
    buffer <- lift (await (arrayBuffer response)) ;;
    let raw := createDnsMessageRaw buffer contentType in
    tryCatch
      (lookup <- lift (Wire.findHttpsRecordInDnsMessage buffer) ;;
       ret {| Ech.found := Wire.found lookup;
              Ech.record := Wire.record lookup;
              Ech.status := Some status;
              Ech.latency_ms := Some latency_ms;
              Ech.response_format := Some FormatWire;
              Ech.content_type := contentType;
              Ech.raw := Some raw;
              Ech.error :=
                if Wire.found lookup then None
                else Some (match Wire.error lookup with
                           | Some message => message
                           | None => MSG_NO_ECH
                           end);
              Ech.attempted_formats := [mode] |})
      (fun message =>
         ret {| Ech.found := false; Ech.record := None;
                Ech.status := Some status;
                Ech.latency_ms := Some latency_ms;
                Ech.response_format := Some FormatWire;
                Ech.content_type := contentType;
                Ech.raw := Some raw;
                Ech.error :=
                  Some ("解析 DNS 二进制报文失败：" ++ message)%string;
                Ech.attempted_formats := [mode] |}).

(** [performHttpsRequest] *)
Definition performHttpsRequest (endpoint domain : string) (timeout : Z)
  (mode : DohRequestMode) : M Ech.ProviderResult :=
  built <-
    attempt
      (buildUrl mode endpoint domain
         (Text.decimal Wire.HTTPS_RECORD_TYPE)) ;;
  match built with
  | inr message => ret (echFailure mode message)
  | inl url =>
    tryCatch
      (answer <- doFetch {| url := url; accept := acceptHeader mode;
                            timeout := timeout |} ;;
       let '(latency_ms, response) := answer in
       decodeHttpsResponse mode latency_ms response)
      (fun message => ret (echFailure mode message))
  end.

(** The result of [fetchHttpsRecord] when no attempt was made *)
Definition echNoAttempt : Ech.ProviderResult :=
  {| Ech.found := false; Ech.record := None; Ech.status := None;
     Ech.latency_ms := None;
     Ech.response_format := Some FormatUnknown;
     Ech.content_type := None; Ech.raw := None;
     Ech.error := Some "无法完成 HTTPS 记录查询。";
     Ech.attempted_formats := [] |}.

(** [fetchHttpsRecord].  An attempt is an object and so always truthy:
    the two [if (attempt)] tests of the source always pass. *)
Definition fetchHttpsRecord (endpoint domain : string) (timeout : Z)
  : M Ech.ProviderResult :=
  let attempts := [] in
  jsonAttempt <- performHttpsRequest endpoint domain timeout ModeJson ;;
  if Ech.found jsonAttempt then ret jsonAttempt
  else
    let attempts := attempts ++ [jsonAttempt] in
    wireAttempt <- performHttpsRequest endpoint domain timeout ModeWire ;;
    if Ech.found wireAttempt then ret wireAttempt
    else
      let attempts := attempts ++ [wireAttempt] in
      match Ech.combineEchFailures attempts with
      | Some merged => ret merged
      | None => ret echNoAttempt
      end.

End WithPlatform.

(** *** An environment for the examples *)

(** A resolver that answers a JSON-mode request with a JSON body and a
    wire-mode request with the response [WireFormat.echMessage]. *)
Definition examplePlatform : Platform :=
  {| newURL := fun input =>
       fulfilled {| base := input; hostname := "example.com";
                    searchParams := [] |};
     fetch := fun _ request =>
       if String.eqb (accept request) "application/dns-json" then
         Responded 12
           {| status := 200;
              contentType := Some "application/dns-json";
              json := fulfilled "[]";
              text := rejected "body used";
              arrayBuffer := rejected "body used" |}
       else
         Responded 17
           {| status := 200;
              contentType := Some "application/dns-message";
              json := rejected "body used";
              text := rejected "body used";
              arrayBuffer :=
                fulfilled (WireFormat.encodeMessage WireFormat.echMessage) |};
     randomUint16 := fun _ => 43981%N |}.

(** A resolver that cannot be reached: every request fails. *)
Definition unreachablePlatform : Platform :=
  {| newURL := fun input =>
       fulfilled {| base := input; hostname := "example.com";
                    searchParams := [] |};
     fetch := fun _ _ => Failed "fetch failed";
     randomUint16 := fun _ => 43981%N |}.

Definition exampleExtractIps (_ : Json) : list string := ["93.184.216.34"].

Definition exampleExtractHttps (_ : Json) : option string :=
  Some "1 . alpn=h2 ech=AEX+DQBBpQAgACB".

Definition emptyWorld : World := {| requests := []; drawn := 0 |}.

End Executor.

(** ** Comparison engine *)

Module Compare.

(** [setsAreEqual] *)
Definition setsAreEqual (a b : list string) : bool :=
  if negb (Js.size a =? Js.size b) then false
  else forallb (fun item => Js.has String.eqb b item) a.

(** [DohEchComparison] *)
Record DohEchComparison : Type := mkEchComparison {
  ech_target : Ech.ProviderResult;
  ech_cloudflare : Ech.ProviderResult;
  ech_google : Ech.ProviderResult;
  ech_matches_cloudflare : option bool;
  ech_matches_google : option bool;
  consistent : option bool;
  notes : list string
}.

(** [computeEchMatch]; the array [notes] it pushes to is returned. *)
Definition computeEchMatch (target reference : option string)
  (notes : list string) (label : string) : option bool * list string :=
  if negb (Js.truthy target) && negb (Js.truthy reference) then
    (None, notes ++ [(label ++ " 和目标 DoH 均未返回 ECH 配置。")%string])
  else if negb (Js.truthy target) then
    (Some false,
     notes ++ [("目标 DoH 未返回 ECH 配置，但 " ++ label ++ " 返回了配置。")%string])
  else if negb (Js.truthy reference) then
    (None, notes ++ [(label ++ " 未返回 ECH 配置，无法比对。")%string])
  else if Js.strictEq target reference then
    (Some true, notes ++ [("目标 DoH 与 " ++ label ++ " 的 ECH 配置一致。")%string])
  else
    (Some false,
     notes ++ [("目标 DoH 与 " ++ label ++ " 的 ECH 配置不一致。")%string]).

(** The [consistent] value of [runDohEchComparison]: the conjunction when
    both matches are non-null; when exactly one is, [false] if that one
    is [false] and [null] otherwise. *)
Definition overallConsistent (matchesCloudflare matchesGoogle : option bool)
  : option bool :=
  match matchesCloudflare, matchesGoogle with
  | Some c, Some g => Some (c && g)
  | Some false, None | None, Some false => Some false
  | Some true, None | None, Some true => None
  | None, None => None
  end.

(** [runDohEchComparison] from the point where the three queries have
    settled and their ECH configuration strings have been extracted. *)
Definition runDohEchComparison
  (targetResult cloudflareResult googleResult : Ech.ProviderResult)
  (targetEch cloudflareEch googleEch : option string) : DohEchComparison :=
  let notes := [] in
  let '(matchesCloudflare, notes) :=
    computeEchMatch targetEch cloudflareEch notes "Cloudflare" in
  let '(matchesGoogle, notes) :=
    computeEchMatch targetEch googleEch notes "Google" in
  {| ech_target := targetResult;
     ech_cloudflare := cloudflareResult;
     ech_google := googleResult;
     ech_matches_cloudflare := matchesCloudflare;
     ech_matches_google := matchesGoogle;
     consistent := overallConsistent matchesCloudflare matchesGoogle;
     notes := notes |}.

Definition MSG_TARGET_FAILED : string := "目标 DoH 服务查询失败。".
Definition MSG_ALL_MATCH : string :=
  "目标 DoH 服务返回的结果与 Cloudflare 和 Google 完全一致。".
Definition MSG_CLOUDFLARE_ONLY : string :=
  "目标 DoH 服务与 Cloudflare 结果一致，但与 Google 不完全一致。".
Definition MSG_GOOGLE_ONLY : string :=
  "目标 DoH 服务与 Google 结果一致，但与 Cloudflare 不完全一致。".
Definition MSG_MISMATCH : string :=
  "目标 DoH 服务返回的结果与 Cloudflare 和 Google 均不一致。".
Definition NOTE_ECH_INCONSISTENT : string :=
  " 检测到目标 DoH 返回的 ECH 配置与权威解析不一致，可能存在篡改。".
Definition NOTE_ECH_CONSISTENT : string :=
  " 同时确认 ECH 配置与权威解析一致。".

(** The entry of [details] for one provider. *)
Definition dohDetail (entry : Settled Doh.ProviderResult)
  : Doh.ProviderResult :=
  match entry with
  | fulfilled value => value
  | rejected reason =>
    {| Doh.result :=
         {| Doh.status := None; Doh.ok := false; Doh.ips := [];
            Doh.latency_ms := None;
            Doh.response_format := Some FormatUnknown;
            Doh.content_type := None; Doh.raw := None;
            Doh.error := Some reason |};
       Doh.attempted_formats := [];
       Doh.mode_results := None |}
  end.

(** The entry of [details] that [runDohCheck] writes for a provider:
    its query [fetchDohAnswer(endpoint, testDomain, A, timeout)] as
    [Promise.allSettled] settles it, fulfilled with what the query
    returns or rejected with the message of what it throws, read by
    [dohDetail]. *)
Definition providerDetail (platform : Executor.Platform)
  (extractIpsFromAnswer : Json -> list string)
  (endpoint testDomain : string) (timeout : Z)
  : Executor.M Doh.ProviderResult :=
  fun w =>
    match Executor.fetchDohAnswer platform extractIpsFromAnswer endpoint
            testDomain "A" timeout w with
    | (Normal value, w') => (Normal (dohDetail (fulfilled value)), w')
    | (Thrown reason, w') => (Normal (dohDetail (rejected reason)), w')
    | (Unfinished, w') => (Unfinished, w')
    end.

(** [matchesCloudflare] and [matchesGoogle] *)
Definition matchesReference (targetResult referenceResult : Doh.ProviderResult)
  : bool :=
  Doh.ok (Doh.result targetResult) && Doh.ok (Doh.result referenceResult)
  && setsAreEqual (Js.newSet String.eqb (Doh.ips (Doh.result targetResult)))
       (Js.newSet String.eqb (Doh.ips (Doh.result referenceResult))).

(** The status and message that [runDohCheck] derives from the three
    provider results (before the remark on the ECH comparison is
    appended). *)
Definition deriveStatus
  (targetResult cloudflareResult googleResult : Doh.ProviderResult)
  : DohStatus * string :=
  let matchesCloudflare := matchesReference targetResult cloudflareResult in
  let matchesGoogle := matchesReference targetResult googleResult in
  if negb (Doh.ok (Doh.result targetResult)) then
    (failure,
     match Doh.error (Doh.result targetResult) with
     | Some e => e
     | None => MSG_TARGET_FAILED
     end)
  else if matchesCloudflare && matchesGoogle then (success, MSG_ALL_MATCH)
  else if matchesCloudflare || matchesGoogle then
    (partial_match,
     if matchesCloudflare then MSG_CLOUDFLARE_ONLY else MSG_GOOGLE_ONLY)
  else (failure, MSG_MISMATCH).

(** [DohApiResponse] *)
Record DohApiResponse : Type := mkDohApiResponse {
  status : DohStatus;
  message : string;
  details_target : Doh.ProviderResult;
  details_cloudflare : Doh.ProviderResult;
  details_google : Doh.ProviderResult;
  matches_cloudflare : bool;
  matches_google : bool;
  ech_comparison : option DohEchComparison
}.

(** [runDohCheck] from the point where the three A-record queries and
    the ECH comparison have settled. *)
Definition runDohCheck
  (target cloudflare google : Settled Doh.ProviderResult)
  (echComparison : option DohEchComparison) : DohApiResponse :=
  let targetResult := dohDetail target in
  let cloudflareResult := dohDetail cloudflare in
  let googleResult := dohDetail google in
  let '(status, message) :=
    deriveStatus targetResult cloudflareResult googleResult in
  let message :=
    match echComparison with
    | Some comparison =>
      match consistent comparison with
      | Some false => (message ++ NOTE_ECH_INCONSISTENT)%string
      | Some true => (message ++ NOTE_ECH_CONSISTENT)%string
      | None => message
      end
    | None => message
    end in
  {| status := status;
     message := message;
     details_target := targetResult;
     details_cloudflare := cloudflareResult;
     details_google := googleResult;
     matches_cloudflare := matchesReference targetResult cloudflareResult;
     matches_google := matchesReference targetResult googleResult;
     ech_comparison := echComparison |}.

(** The IP lists of two results hold the same addresses, in whatever
    order and multiplicity. *)
Definition sameAddresses (a b : Doh.ProviderResult) : Prop :=
  forall ip : string,
    In ip (Doh.ips (Doh.result a)) <-> In ip (Doh.ips (Doh.result b)).

(** The reference answered and its address set equals the target's. *)
Definition agrees (targetResult referenceResult : Doh.ProviderResult) : Prop :=
  Doh.ok (Doh.result referenceResult) = true /\
  sameAddresses targetResult referenceResult.

(** A provider result with the given outcome, for the examples. *)
Definition exampleResult (ok : bool) (ips : list string)
  (error : option string) : Doh.ProviderResult :=
  {| Doh.result :=
       {| Doh.status := Some 200%Z; Doh.ok := ok; Doh.ips := ips;
          Doh.latency_ms := Some 12%Z;
          Doh.response_format := Some FormatJson;
          Doh.content_type := Some "application/dns-json";
          Doh.raw := None; Doh.error := error |};
     Doh.attempted_formats := [ModeJson; ModeWire];
     Doh.mode_results := None |}.

(** An ECH provider result with the given outcome, for the examples. *)
Definition exampleEchResult (found : bool) (record : option string)
  : Ech.ProviderResult :=
  {| Ech.found := found; Ech.record := record;
     Ech.status := Some 200%Z; Ech.latency_ms := Some 9%Z;
     Ech.response_format := Some FormatJson;
     Ech.content_type := Some "application/dns-json";
     Ech.raw := None;
     Ech.error := if found then None
                  else Some "未发现包含 ECH 参数的 HTTPS 记录。";
     Ech.attempted_formats := [ModeJson] |}.

(** The comparison of the example of the specification: the target and
    Cloudflare return the same ECH configuration, Google returns none. *)
Definition exampleEchComparison : DohEchComparison :=
  runDohEchComparison
    (exampleEchResult true (Some "1 . ech=AEX+DQBBpQAgACB"))
    (exampleEchResult true (Some "1 . ech=AEX+DQBBpQAgACB"))
    (exampleEchResult false None)
    (Some "AEX+DQBBpQAgACB") (Some "AEX+DQBBpQAgACB") None.

(** A target whose answer holds no address record, and a reference that
    answers. *)
Definition emptyTarget : Doh.ProviderResult :=
  exampleResult false [] (Some "未在响应中找到有效的 A 记录。").

Definition answeringReference : Doh.ProviderResult :=
  exampleResult true ["93.184.216.34"] None.

(** The comparison when the target returns no ECH configuration and
    both references return one. *)
Definition missingEchComparison : DohEchComparison :=
  runDohEchComparison
    (exampleEchResult false None)
    (exampleEchResult true (Some "1 . ech=AEX+DQBBpQAgACB"))
    (exampleEchResult true (Some "1 . ech=AEX+DQBBpQAgACB"))
    None (Some "AEX+DQBBpQAgACB") (Some "AEX+DQBBpQAgACB").

End Compare.

(** The merged fields in the words of the specification of the failure
    combiner: the shape is the first one other than [unknown] in forward
    order, the content type the first that is not null in forward
    order. *)
Module CombinerSpec.

Definition forwardShape (shapes : list (option DohResponseFormat))
  : option DohResponseFormat :=
  match find knownFormat shapes with
  | Some shape => shape
  | None => Some FormatUnknown
  end.

Definition forwardContentType (types : list (option string))
  : option string :=
  Js.firstPresent types.

(** The first element satisfying [p] when [l] is scanned from its last
    element backward. *)
Definition backwardFirst {A : Type} (p : A -> bool) (l : list A)
  : option A :=
  find p (rev l).

(** Two failed attempts on one endpoint: the JSON-mode request was
    answered with an HTML page, the wire-mode request with a DNS message
    that holds no address. *)
Definition mixedAttempts : list Doh.ModeResult :=
  [ {| Doh.mode := ModeJson;
       Doh.base :=
         {| Doh.status := Some 200%Z; Doh.ok := false; Doh.ips := [];
            Doh.latency_ms := Some 31%Z;
            Doh.response_format := Some FormatText;
            Doh.content_type := Some "text/html";
            Doh.raw := Some (RawSnippet "<html></html>");
            Doh.error := Some "服务器返回文本响应：<html></html>" |} |};
    {| Doh.mode := ModeWire;
       Doh.base :=
         {| Doh.status := Some 200%Z; Doh.ok := false; Doh.ips := [];
            Doh.latency_ms := Some 25%Z;
            Doh.response_format := Some FormatWire;
            Doh.content_type := Some "application/dns-message";
            Doh.raw :=
              Some (RawDnsMessage (Some "application/dns-message")
                      "q80BAAABAAAAAAAA");
            Doh.error := Some "未在响应中找到有效的 A/AAAA 记录。" |} |} ].

(** The same two attempts of an HTTPS query, neither finding ECH. *)
Definition mixedEchAttempts : list Ech.ProviderResult :=
  [ {| Ech.found := false; Ech.record := None;
       Ech.status := Some 200%Z; Ech.latency_ms := Some 31%Z;
       Ech.response_format := Some FormatText;
       Ech.content_type := Some "text/html";
       Ech.raw := Some (RawSnippet "<html></html>");
       Ech.error := Some "服务器返回文本响应：<html></html>";
       Ech.attempted_formats := [ModeJson] |};
    {| Ech.found := false; Ech.record := None;
       Ech.status := None; Ech.latency_ms := None;
       Ech.response_format := Some FormatUnknown;
       Ech.content_type := None;
       Ech.raw := None;
       Ech.error := Some "The operation timed out.";
       Ech.attempted_formats := [ModeWire] |} ].

End CombinerSpec.

(** ** Address texts: [isIpAddress] and the address answers *)

Module Address.

(** [p] holds of the [count] numbers from [start] on. *)
Fixpoint holdsFrom (count : nat) (start : N) (p : N -> bool) : bool :=
  match count with
  | O => true
  | S k => p start && holdsFrom k (N.succ start) p
  end.

(** Between [low] and [high] characters, all of them in [p]: what
    [\d{1,3}] and [[A-Fa-f0-9]{1,4}] match between two separators. *)
Definition group (p : ascii -> bool) (low high : nat) (s : string) : bool :=
  (low <=? String.length s) && (String.length s <=? high)
  && RecordType.all p s.

(** [IP_V4_REGEX.test(value)] for [/^(?:\d{1,3}\.){3}\d{1,3}$/]: the
    text is four groups of one to three digits with a dot between them.
    As no digit is a dot, these are the texts that the dots split into
    four such groups. *)
Definition IP_V4_REGEX (value : string) : bool :=
  match Js.split "." value with
  | [a; b; c; d] => forallb (group RecordType.isDigit 1 3) [a; b; c; d]
  | _ => false
  end.

(** [IP_V6_REGEX.test(value)] for
    [/^(?:[A-Fa-f0-9]{1,4}:){7}[A-Fa-f0-9]{1,4}$/]: eight groups of one
    to four hexadecimal digits with a colon between them. *)
Definition IP_V6_REGEX (value : string) : bool :=
  match Js.split ":" value with
  | [a; b; c; d; e; f; g; h] =>
    forallb (group RecordType.isHexDigit 1 4) [a; b; c; d; e; f; g; h]
  | _ => false
  end.

(** [isIpAddress] *)
Definition isIpAddress (value : string) : bool :=
  IP_V4_REGEX value || IP_V6_REGEX value.

(** What the set of addresses satisfies at every point of the loop. *)
Definition accepted (seen : list string) : Prop :=
  NoDup seen /\ Forall (fun ip => isIpAddress ip = true) seen.

(** The address that [extractIpsFromDnsMessage] reads from an answer: an
    A record with four bytes of rdata, an AAAA record with sixteen. *)
Definition addressOf (rr : WireFormat.ResourceRecord) : list string :=
  match WireFormat.rdata rr with
  | WireFormat.Other type bytes =>
    if (type =? 1)%N && (List.length bytes =? 4)
    then [Wire.formatIpv4 bytes]
    else if (type =? 28)%N && (List.length bytes =? 16)
    then [Wire.formatIpv6 bytes]
    else []
  | WireFormat.Https _ => []
  end.

(** The addresses among the answers of a response, in order. *)
Definition addresses (m : WireFormat.Message) : list string :=
  flat_map addressOf (WireFormat.answers m).

(** A response with three address answers, two of them equal. *)
Definition addressMessage : WireFormat.Message :=
  {| WireFormat.id := 7; WireFormat.flags := 33152;
     WireFormat.questions :=
       [ {| WireFormat.qname := WireFormat.exampleName;
            WireFormat.qtype := 1; WireFormat.qclass := 1 |} ];
     WireFormat.answers :=
       [ {| WireFormat.owner := WireFormat.examplePointer;
            WireFormat.class := 1; WireFormat.ttl := 60;
            WireFormat.rdata := WireFormat.Other 1 [x5d; xb8; xd8; x22] |};
         {| WireFormat.owner := WireFormat.examplePointer;
            WireFormat.class := 1; WireFormat.ttl := 60;
            WireFormat.rdata :=
              WireFormat.Other 28
                [x26; x06; x28; x00; x02; x20; x00; x01;
                 x02; x48; x18; x93; x25; xc8; x19; x46] |};
         {| WireFormat.owner := WireFormat.examplePointer;
            WireFormat.class := 1; WireFormat.ttl := 60;
            WireFormat.rdata := WireFormat.Other 1 [x5d; xb8; xd8; x22] |} ];
     WireFormat.nscount := 0; WireFormat.arcount := 0;
     WireFormat.trailing := [] |}.

End Address.

(** ** The shape of the record descriptions *)

Module HttpsDescription.

(** A description of an HTTPS record of [message] that carries ECH: it
    begins with the priority and ends with the ECH part, which is the
    base64 text of a key-5 value, a run of bytes of the message, when
    that value is not empty, and the bare word when it is. *)
Definition echDescription (message : list byte) (text : string) : Prop :=
  exists middle,
    text = ("priority=" ++ middle ++ " echconfig")%string
    \/ exists first last,
         Wire.subarray message first last <> [] /\
         text
         = ("priority=" ++ middle ++ " echconfig(base64)="
            ++ Text.bytesToBase64 (Wire.subarray message first last))%string.

(** A description of any HTTPS record, or none. *)
Definition anyDescription (text : option string) : Prop :=
  text = None \/ exists middle, text = Some ("priority=" ++ middle)%string.

End HttpsDescription.

(** ** The alphabets of base64 and base64url *)

Module Base64.

Definition isAlphanumeric (c : ascii) : bool :=
  RecordType.inRange 65 90 c || RecordType.inRange 97 122 c
  || RecordType.isDigit c.

(** A character of the base64 alphabet, the padding apart. *)
Definition isBase64Char (c : ascii) : bool :=
  isAlphanumeric c || Ascii.eqb c "+" || Ascii.eqb c "/".

(** A character of the base64url alphabet of RFC 4648: what may stand in
    a query parameter as it is. *)
Definition isUrlSafe (c : ascii) : bool :=
  isAlphanumeric c || Ascii.eqb c "-" || Ascii.eqb c "_".

(** The place of a character in [BASE64_ALPHABET]. *)
Fixpoint indexIn (alphabet : string) (c : ascii) : N :=
  match alphabet with
  | EmptyString => 0
  | String a rest => if Ascii.eqb a c then 0 else N.succ (indexIn rest c)
  end.

(** What [base64ToUrl] makes of a character of the alphabet. *)
Definition urlChar (c : ascii) : ascii :=
  if Ascii.eqb c "+" then "-"%char
  else if Ascii.eqb c "/" then "_"%char
  else c.

End Base64.

(** ** Texts of one-byte characters *)

Module Ascii7.

(** Every character of the text is an ASCII character, as in a host name
    that [new URL] returns.  On such a text the length in UTF-16 units
    and [charCodeAt] agree with the bytes of the text. *)
Definition isAsciiText (s : string) : bool :=
  RecordType.all (fun c => RecordType.code c <? 128) s.

End Ascii7.

(** ** Reading the query of a URL *)

Module UrlQuery.

(** [url.searchParams.getAll(name)] *)
Definition getAll (name : string) (url : Executor.Url) : list string :=
  map snd
    (filter (fun entry => String.eqb (fst entry) name)
       (Executor.searchParams url)).

(** The parameters of other names than [names], in order. *)
Definition others (names : list string) (url : Executor.Url)
  : list (string * string) :=
  filter (fun entry => negb (existsb (String.eqb (fst entry)) names))
    (Executor.searchParams url).

End UrlQuery.

(** ** Settings: [resolveTimeout] *)

Module Settings.

Definition DEFAULT_TIMEOUT_MS : RecordType.JsNumber := RecordType.Finite 5000.

(** [resolveTimeout]; the setting is a string or [undefined]. *)
Definition resolveTimeout (timeoutSetting : option string)
  : RecordType.JsNumber :=
  if negb (Js.truthy timeoutSetting) then DEFAULT_TIMEOUT_MS
  else
    match timeoutSetting with
    | Some text =>
      let parsed := RecordType.Number text in
      if RecordType.isFinite parsed && RecordType.greaterThanZero parsed
      then parsed
      else DEFAULT_TIMEOUT_MS
    | None => DEFAULT_TIMEOUT_MS
    end.

End Settings.

(** ** JSON answers: [extractIpsFromAnswer] *)

Module JsonAnswers.

(** A value as [JSON.parse] returns it; the members of an object are
    its own properties. *)
#[warnings="-register-all"] Inductive Value : Type :=
| JNull
| JBool (b : bool)
| JNumber (n : RecordType.JsNumber)
| JString (s : string)
| JArray (items : list Value)
| JObject (members : list (string * Value)).

(** [value[key]] for a key that no prototype defines: the member of an
    object, [undefined] on an array. *)
Definition member (key : string) (value : Value) : option Value :=
  match value with
  | JObject members =>
    option_map snd (find (fun entry => String.eqb (fst entry) key) members)
  | _ => None
  end.

(** [typeof value === "object" && value]: an object or an array. *)
Definition isObject (value : Value) : bool :=
  match value with
  | JArray _ | JObject _ => true
  | _ => false
  end.

(** [extractAnswerArray] *)
Definition extractAnswerArray (json : Value) : option (list Value) :=
  if negb (isObject json) then None
  else
    match member "Answer" json with
    | Some (JArray answer) => Some answer
    | _ => None
    end.

(** The body of the loop of [extractIpsFromAnswer] *)
Definition addAnswer (seen : list string) (answer : Value) : list string :=
  if negb (isObject answer) then seen
  else
    match member "data" answer with
    | Some (JString data) =>
      if Address.isIpAddress data then Js.add String.eqb seen data else seen
    | _ => seen
    end.

(** [extractIpsFromAnswer] *)
Definition extractIpsFromAnswer (json : Value) : list string :=
  match extractAnswerArray json with
  | None => []
  | Some answers => fold_left addAnswer answers []
  end.

(** The address that an entry of [Answer] contributes. *)
Definition answerAddress (answer : Value) : list string :=
  match member "data" answer with
  | Some (JString data) => if Address.isIpAddress data then [data] else []
  | _ => []
  end.

End JsonAnswers.

(** ** ECH configuration strings: [parseEchFromRecordString] *)

Module EchConfig.

Definition QUOTE : ascii := "034"%char.

(** A character with its case folded: under the [i] flag two characters
    match when their upper cases are equal, and no character beyond
    ASCII has an ASCII upper case that counts. *)
Definition foldCase (c : ascii) : ascii :=
  if RecordType.inRange 65 90 c then ascii_of_nat (RecordType.code c + 32)
  else c.

(** [pattern] stands at the head of [s], case folded; what follows it. *)
Fixpoint dropPattern (pattern s : string) : option string :=
  match pattern with
  | EmptyString => Some s
  | String p pattern' =>
    match s with
    | String c s' =>
      if Ascii.eqb (foldCase p) (foldCase c) then dropPattern pattern' s'
      else None
    | EmptyString => None
    end
  end.

(** The class of every character but the quote *)
Definition notQuote (c : ascii) : bool := negb (Ascii.eqb c QUOTE).

(** The class [[^\\s]] of the source: in a regular expression literal
    [\\] is a backslash and [s] a letter, so that the class leaves out
    the backslash and, with the [i] flag, both [s] and [S]. *)
Definition unescaped (c : ascii) : bool :=
  negb (Ascii.eqb c "\") && negb (Ascii.eqb (foldCase c) "s").

(** The group [(Q[^Q]+Q|[^\\s]+)], Q standing for the quote, at the
    head of [s]; it ends the pattern.  The first alternative takes a
    quote, the longest run of other characters, which must not be empty,
    and a quote; the second the longest run of the class, which must not
    be empty.  The result is the text that the group captures. *)
Definition matchValue (s : string) : option string :=
  let quoted :=
    match s with
    | String q rest =>
      if Ascii.eqb q QUOTE then
        let '(inner, after) := RecordType.span notQuote rest in
        match inner, after with
        | String _ _, String _ _ =>
          Some (String QUOTE (inner ++ String QUOTE EmptyString))
        | _, _ => None
        end
      else None
    | EmptyString => None
    end in
  match quoted with
  | Some value => Some value
  | None =>
    match RecordType.span unescaped s with
    | (EmptyString, _) => None
    | (value, _) => Some value
    end
  end.

(** [=] and the group at the head of [s] *)
Definition matchAssignment (s : string) : option string :=
  match s with
  | String "=" value => matchValue value
  | _ => None
  end.

(** The pattern [/ech(?:config\(base64\))?=(Q[^Q]+Q|[^\\s]+)/i] at the
    head of [s]: first with the optional part, then without it. *)
Definition matchHere (s : string) : option string :=
  match dropPattern "ech" s with
  | None => None
  | Some rest =>
    let withConfig :=
      match dropPattern "config(base64)" rest with
      | Some rest' => matchAssignment rest'
      | None => None
      end in
    match withConfig with
    | Some value => Some value
    | None => matchAssignment rest
    end
  end.

(** [record.match(pattern)]: the match at the leftmost place that has
    one; its first group. *)
Fixpoint search (record : string) : option string :=
  match matchHere record with
  | Some value => Some value
  | None =>
    match record with
    | EmptyString => None
    | String _ rest => search rest
    end
  end.

(** [value.slice(1, -1)] *)
Definition slice_1_minus_1 (value : string) : string :=
  match value with
  | EmptyString => EmptyString
  | String _ rest => String.substring 0 (String.length rest - 1) rest
  end.

(** [value.startsWith(quote) && value.endsWith(quote)] *)
Definition quotedValue (value : string) : bool :=
  match value with
  | String first _ =>
    Ascii.eqb first QUOTE
    && match String.get (String.length value - 1) value with
       | Some last => Ascii.eqb last QUOTE
       | None => false
       end
  | EmptyString => false
  end.

(** [parseEchFromRecordString] *)
Definition parseEchFromRecordString (record : string) : option string :=
  match record with
  | EmptyString => None
  | _ =>
    match search record with
    | None => None
    | Some EmptyString => None
    | Some value =>
      let value := if quotedValue value then slice_1_minus_1 value
                   else value in
      match value with
      | EmptyString => None
      | _ => Some value
      end
    end
  end.

Section WithJson.

(** The string that a parsed JSON body is, when it is one. *)
Context (stringOf : Json -> option string).





End WithJson.

(** No place of [s] begins with [ech], in whatever case. *)
Fixpoint freeOfEch (s : string) : bool :=
  match dropPattern "ech" s with
  | Some _ => false
  | None =>
    match s with
    | EmptyString => true
    | String _ rest => freeOfEch rest
    end
  end.

(** The text behind the value: nothing, or a character outside the
    class. *)
Definition endsValue (rest : string) : Prop :=
  rest = EmptyString
  \/ exists c rest', rest = String c rest' /\ unescaped c = false.

End EchConfig.

(* ================================================================== *)
(** * Part II: properties                                              *)
(* ================================================================== *)

Module WireExamples.
Import Wire.

Example base64_dead : Text.bytesToBase64 [xde; xad] = "3q0=".
Proof. reflexivity. Qed.

Example svcb_dead :
  parseHttpsSvcbRecord [x00; x01; x00; x00; x05; x00; x02; xde; xad] 0 9
  = Normal {| hasEch := true;
              description :=
                "priority=1 target=. params=[key5(2B)] echconfig(base64)=3q0="
           |}.
Proof. reflexivity. Qed.

Example find_in_echMessage :
  findHttpsRecordInDnsMessage (WireFormat.encodeMessage WireFormat.echMessage)
  = Normal (WireFormat.expectedLookup WireFormat.echMessage).
Proof. reflexivity. Qed.

Example find_in_bareFirstMessage :
  findHttpsRecordInDnsMessage
    (WireFormat.encodeMessage WireFormat.bareFirstMessage)
  = Normal {| found := false;
              record := Some (WireFormat.describe WireFormat.alpnData);
              error := None |}.
Proof. reflexivity. Qed.

Example extractIps_echMessage :
  extractIpsFromDnsMessage (WireFormat.encodeMessage WireFormat.echMessage)
  = Normal ["93.184.216.34"].
Proof. reflexivity. Qed.

End WireExamples.

Module TextExamples.

(** One code unit for a character of one, two or three bytes, two for
    a character of four. *)
Example charCodes_mixed :
  Js.charCodes "aé€😀" = [97; 233; 8364; 55357; 56832]%N.
Proof. vm_compute. reflexivity. Qed.

Example fromCharCodes_mixed :
  Js.fromCharCodes [97; 233; 8364; 55357; 56832]%N = "aé€😀".
Proof. vm_compute. reflexivity. Qed.

(** A slice can end between the two surrogates of a character. *)
Example slice_in_pair :
  Js.charCodes (Js.sliceFromStart 4 "aé€😀") = [97; 233; 8364; 55357]%N.
Proof. vm_compute. reflexivity. Qed.

(** The length that the snippet is cut at counts code units, not
    bytes. *)
Example length_counts_units : Js.length "域名不能为空。" = 7.
Proof. vm_compute. reflexivity. Qed.

End TextExamples.

Module RecordTypeExamples.
Import RecordType.

Example recordType_A : recordTypeToNumber "A" = Normal (Finite 1).
Proof. reflexivity. Qed.

Example recordType_https_lower :
  recordTypeToNumber "https" = Normal (Finite 65).
Proof. reflexivity. Qed.

Example recordType_65 : recordTypeToNumber "65" = Normal (Finite 65).
Proof. vm_compute. reflexivity. Qed.

Example recordType_padded : recordTypeToNumber " 65 " = Normal (Finite 65).
Proof. vm_compute. reflexivity. Qed.

Example recordType_fraction :
  recordTypeToNumber "1.5" = Normal (Finite (3 # 2)).
Proof. vm_compute. reflexivity. Qed.

Example recordType_hex : recordTypeToNumber "0x41" = Normal (Finite 65).
Proof. vm_compute. reflexivity. Qed.

(** [Number] rounds to a double: 2^53 + 1 is none, and neither is a
    tenth. *)
Example number_rounded :
  Number "9007199254740993" = Finite 9007199254740992.
Proof. vm_compute. reflexivity. Qed.

Example number_tie_to_even :
  Number "9007199254740995" = Finite 9007199254740996.
Proof. vm_compute. reflexivity. Qed.

Example number_tenth :
  Number "0.1" = Finite (3602879701896397 # 36028797018963968).
Proof. vm_compute. reflexivity. Qed.

Example number_least : Number "5e-324" = Finite (1 # 2 ^ 1074).
Proof. vm_compute. reflexivity. Qed.

Example number_underflow : Number "2e-324" = Finite 0.
Proof. vm_compute. reflexivity. Qed.

Example recordType_zero :
  recordTypeToNumber "0" = Thrown (ERR_UNSUPPORTED ++ "0")%string.
Proof. reflexivity. Qed.

Example recordType_negative :
  recordTypeToNumber "-3" = Thrown (ERR_UNSUPPORTED ++ "-3")%string.
Proof. reflexivity. Qed.

Example recordType_word :
  recordTypeToNumber "MX" = Thrown (ERR_UNSUPPORTED ++ "MX")%string.
Proof. reflexivity. Qed.

Example recordType_empty :
  recordTypeToNumber EmptyString = Thrown ERR_UNSUPPORTED.
Proof. reflexivity. Qed.

Example recordType_overflow :
  recordTypeToNumber "1e400" = Thrown (ERR_UNSUPPORTED ++ "1e400")%string.
Proof. vm_compute. reflexivity. Qed.

End RecordTypeExamples.

Module NameCodecFacts.
Import NameCodec.

Example readDnsName_plain :
  readDnsName [x03; x77; x77; x77; xc0; x06; x02; x61; x62; x00] 6
  = Normal {| name := "ab"; length := 4 |}.
Proof. reflexivity. Qed.

Example readDnsName_compressed :
  readDnsName [x03; x77; x77; x77; xc0; x06; x02; x61; x62; x00] 0
  = Normal {| name := "www.ab"; length := 6 |}.
Proof. reflexivity. Qed.

Example readDnsName_cycle :
  readDnsName [xc0; x02; xc0; x00] 0 = Thrown ERR_SAFETY.
Proof. reflexivity. Qed.

(** Unfolding the loop body along the branches of the source. *)
Ltac loop_cases :=
  repeat match goal with
  | |- context [if ?c then _ else _] => destruct c eqn:?
  | |- context [match nth_error ?m ?i with _ => _ end] =>
      destruct (nth_error m i) eqn:?
  end.

Lemma loop_enough_fuel :
  forall fuel message labels length jumped currentOffset safety,
    safety <= List.length message + 1 ->
    List.length message + 2 <= fuel + safety ->
    readDnsName_loop fuel message labels length jumped currentOffset safety
    <> Unfinished.
Proof.
  induction fuel as [|fuel IH]; intros message labels length jumped
    currentOffset safety Hs Hf.
  - lia.
  - cbn [readDnsName_loop].
    destruct (List.length message <? safety) eqn:Hcap; [discriminate|].
    apply Nat.ltb_ge in Hcap.
    loop_cases; try discriminate; apply IH; lia.
Qed.

Lemma loop_fuel_mono :
  forall fuel message labels length jumped currentOffset safety extra,
    readDnsName_loop fuel message labels length jumped currentOffset safety
    <> Unfinished ->
    readDnsName_loop (fuel + extra) message labels length jumped
      currentOffset safety
    = readDnsName_loop fuel message labels length jumped currentOffset safety.
Proof.
  induction fuel as [|fuel IH]; intros message labels length jumped
    currentOffset safety extra Hdone.
  - now elim Hdone.
  - cbn [readDnsName_loop Nat.add] in *.
    loop_cases; try reflexivity; apply IH; assumption.
Qed.

Lemma loop_cycle :
  forall message a b,
    pointerAt message a b -> pointerAt message b a ->
    forall fuel labels length jumped currentOffset safety,
      currentOffset = a \/ currentOffset = b ->
      safety <= List.length message + 1 ->
      List.length message + 2 <= fuel + safety ->
      readDnsName_loop fuel message labels length jumped currentOffset safety
      = Thrown ERR_SAFETY.
Proof.
  intros message a b Hab Hba.
  assert (Hlt : a < List.length message /\ b < List.length message).
  { destruct Hab as (? & ? & Ha & _), Hba as (? & ? & Hb & _).
    split; apply nth_error_Some; congruence. }
  induction fuel as [|fuel IH]; intros labels length jumped currentOffset
    safety Hcur Hs Hf.
  - lia.
  - cbn [readDnsName_loop].
    destruct (List.length message <? safety) eqn:Hcap; [reflexivity|].
    apply Nat.ltb_ge in Hcap.
    assert (Hstep : exists hi lo next,
      nth_error message currentOffset = Some hi /\
      nth_error message (currentOffset + 1) = Some lo /\
      isPointer (Byte.to_N hi) = true /\
      N.to_nat (pointerTarget (Byte.to_N hi) (Byte.to_N lo)) = next /\
      (next = a \/ next = b)).
    { destruct Hcur; subst currentOffset.
      - destruct Hab as (hi & lo & ? & ? & ? & ?); exists hi, lo, b; auto 6.
      - destruct Hba as (hi & lo & ? & ? & ? & ?); exists hi, lo, a; auto 6. }
    destruct Hstep as (hi & lo & next & -> & -> & -> & -> & Hnext).
    replace (List.length message <=? next) with false
      by (symmetry; apply Nat.leb_gt; lia).
    apply IH; [assumption | lia | lia].
Qed.

Lemma loop_after_jump :
  forall fuel message labels length currentOffset safety info,
    readDnsName_loop fuel message labels length true currentOffset safety
    = Normal info ->
    NameCodec.length info = length.
Proof.
  induction fuel as [|fuel IH]; intros message labels length currentOffset
    safety info; cbn [readDnsName_loop]; [discriminate|].
  loop_cases; intros H; try discriminate.
  - eapply IH; eassumption.
  - now inversion H.
  - eapply IH; eassumption.
Qed.

Lemma loop_before_jump :
  forall fuel message labels length currentOffset safety info,
    readDnsName_loop fuel message labels length false currentOffset safety
    = Normal info ->
    forall k, List.length message <= k + currentOffset ->
      NameCodec.length info = length + bytesBeforeJump k message currentOffset.
Proof.
  induction fuel as [|fuel IH]; intros message labels length currentOffset
    safety info; cbn [readDnsName_loop]; [discriminate|].
  destruct (List.length message <? safety); [discriminate|].
  destruct (nth_error message currentOffset) as [b|] eqn:Hb; [|discriminate].
  assert (Hin : currentOffset < List.length message)
    by (apply nth_error_Some; congruence).
  intros H k Hk.
  destruct k as [|k]; [lia|].
  cbn [bytesBeforeJump]. rewrite Hb.
  destruct (isPointer (Byte.to_N b)).
  - destruct (nth_error message (currentOffset + 1)); [|discriminate].
    destruct (List.length message <=? _); [discriminate|].
    now apply loop_after_jump in H.
  - destruct (Byte.to_N b =? 0)%N eqn:Hz; [now inversion H|].
    destruct (63 <? Byte.to_N b)%N; [discriminate|].
    destruct (List.length message <? _) eqn:Hend; [discriminate|].
    apply N.eqb_neq in Hz.
    rewrite (IH _ _ _ _ _ _ H k) by lia. lia.
Qed.

Lemma loop_throws_malformed :
  forall fuel message labels length jumped currentOffset safety m,
    readDnsName_loop fuel message labels length jumped currentOffset safety
    = Thrown m ->
    MalformedName m.
Proof.
  induction fuel as [|fuel IH]; intros message labels length jumped
    currentOffset safety m; cbn [readDnsName_loop]; [discriminate|].
  unfold MalformedName.
  loop_cases; intros H; try discriminate;
    try (injection H as <-; cbn; tauto);
    eapply IH; eassumption.
Qed.

(** C1. On every buffer and at every offset [readDnsName] comes to an
    end: the loop head is evaluated at most [message.length + 2] times
    (the safety counter lets [message.length + 1] iterations through and
    the next one throws), more fuel never changes the outcome, whatever
    is thrown is one of the malformed-name errors, and on a buffer in
    which the pointer at [offset] leads to a pointer that leads back to
    [offset] the outcome is the safety-limit error. *)
Theorem readDnsName_terminates :
  forall (message : list byte) (offset : nat),
    match readDnsName message offset with
    | Normal _ => True
    | Thrown m => MalformedName m
    | Unfinished => False
    end /\
    (forall extra,
       readDnsName_loop (List.length message + 2 + extra) message [] 0 false
         offset 0
       = readDnsName message offset) /\
    (forall b,
       pointerAt message offset b -> pointerAt message b offset ->
       readDnsName message offset = Thrown ERR_SAFETY).
Proof.
  intros message offset.
  assert (Hfin : readDnsName message offset <> Unfinished)
    by (apply loop_enough_fuel; lia).
  repeat split.
  - destruct (readDnsName message offset) eqn:H; [exact I | | congruence].
    eapply loop_throws_malformed; exact H.
  - intros extra. apply loop_fuel_mono. exact Hfin.
  - intros b Hab Hba.
    apply (loop_cycle message offset b Hab Hba); [now left | lia | lia].
Qed.

Lemma readDnsName_terminates_witness :
  readDnsName [xc0; x02; xc0; x00] 0 = Thrown ERR_SAFETY.
Proof.
  apply (proj2 (proj2 (readDnsName_terminates [xc0; x02; xc0; x00] 0)) 2).
  - exists xc0, x02. repeat split.
  - exists xc0, x00. repeat split.
Defined.

(** C8. When decoding succeeds, the reported length is the number of
    bytes on the original path up to and including the first compression
    pointer (two bytes for the pointer): once the loop has jumped the
    length no longer changes, and before a jump exactly the label bytes,
    the pointer or the root byte are added. *)
Theorem readDnsName_length_before_jump :
  forall (message : list byte) (offset : nat) (info : NameInfo),
    readDnsName message offset = Normal info ->
    NameCodec.length info
    = bytesBeforeJump (List.length message) message offset /\
    (forall fuel labels length jumped currentOffset safety info',
       readDnsName_loop fuel message labels length jumped currentOffset
         safety = Normal info' ->
       NameCodec.length info'
       = if jumped then length
         else length
              + bytesBeforeJump (List.length message) message currentOffset).
Proof.
  intros message offset info H. split.
  - apply loop_before_jump with (k := List.length message) in H; [|lia].
    exact H.
  - intros fuel labels length [|] currentOffset safety info' H'.
    + eapply loop_after_jump; exact H'.
    + eapply loop_before_jump; [exact H' | lia].
Qed.

Lemma readDnsName_length_before_jump_witness :
  NameCodec.length {| name := "www.ab"; length := 6 |}
  = bytesBeforeJump 10
      [x03; x77; x77; x77; xc0; x06; x02; x61; x62; x00] 0.
Proof.
  apply (readDnsName_length_before_jump
           [x03; x77; x77; x77; xc0; x06; x02; x61; x62; x00] 0).
  reflexivity.
Defined.

End NameCodecFacts.

(** ** Facts about the JavaScript helpers *)

Module JsFacts.
Import Js.

Lemma has_In : forall (set : list string) (item : string),
  has String.eqb set item = true <-> In item set.
Proof.
  intros set item. unfold has. rewrite existsb_exists. split.
  - intros (x & Hx & Heq). apply String.eqb_eq in Heq. now subst.
  - intros H. exists item. split; [assumption | apply String.eqb_refl].
Qed.

Lemma add_spec : forall (set : list string) (item : string),
  NoDup set ->
  NoDup (add String.eqb set item) /\
  (forall x, In x (add String.eqb set item) <-> In x set \/ x = item).
Proof.
  intros set item Hnd. unfold add.
  destruct (has String.eqb set item) eqn:Hhas.
  - apply has_In in Hhas. split; [assumption|].
    intros x. split; [tauto | intros [H | ->]; assumption].
  - assert (Hnot : ~ In item set).
    { intros Hin. apply has_In in Hin. congruence. }
    split.
    + apply NoDup_app; [assumption | repeat constructor; intros [] |].
      intros x Hx [<- | []]. contradiction.
    + intros x. rewrite in_app_iff. cbn. intuition congruence.
Qed.

Lemma fold_add_spec : forall (items acc : list string),
  NoDup acc ->
  NoDup (fold_left (add String.eqb) items acc) /\
  (forall x, In x (fold_left (add String.eqb) items acc)
             <-> In x acc \/ In x items).
Proof.
  induction items as [|item items IH]; intros acc Hnd; cbn.
  - split; [assumption | intros x; tauto].
  - destruct (add_spec acc item Hnd) as [Hnd' Hin'].
    destruct (IH _ Hnd') as [Hnd'' Hin'']. split; [assumption|].
    intros x. rewrite Hin'', Hin'. intuition congruence.
Qed.

Lemma newSet_NoDup : forall items : list string,
  NoDup (newSet String.eqb items).
Proof. intros items. apply fold_add_spec. constructor. Qed.

Lemma newSet_In : forall (items : list string) (x : string),
  In x (newSet String.eqb items) <-> In x items.
Proof.
  intros items x. unfold newSet.
  destruct (fold_add_spec items [] (NoDup_nil _)) as [_ H].
  rewrite H. cbn. tauto.
Qed.

Lemma includes_unfold : forall haystack needle : string,
  includes haystack needle
  = if String.prefix needle haystack then true
    else match haystack with
         | EmptyString => false
         | String _ rest => includes rest needle
         end.
Proof. intros [|c haystack] needle; reflexivity. Qed.

Lemma prefix_app : forall needle post : string,
  String.prefix needle (needle ++ post) = true.
Proof.
  induction needle as [|c needle IH]; intros post; cbn.
  - now destruct post.
  - destruct (ascii_dec c c); [apply IH | congruence].
Qed.

Lemma includes_app : forall pre needle post : string,
  includes (pre ++ needle ++ post) needle = true.
Proof.
  induction pre as [|c pre IH]; intros needle post;
    rewrite includes_unfold.
  - cbn [String.append]. now rewrite prefix_app.
  - cbn [String.append].
    destruct (String.prefix needle _); [reflexivity | apply IH].
Qed.

Lemma lastItem_snoc : forall (A : Type) (l : list A) (x : A),
  lastItem (l ++ [x]) = Some x.
Proof.
  intros A l x. unfold lastItem.
  rewrite length_app, Nat.add_sub. cbn.
  rewrite nth_error_app2, Nat.sub_diag by lia. reflexivity.
Qed.

Lemma lastItem_Some : forall (A : Type) (l : list A) (x : A),
  lastItem l = Some x -> exists front, l = front ++ [x].
Proof.
  intros A l x H.
  destruct (exists_last (l := l)) as (front & y & ->).
  - intros ->. discriminate.
  - rewrite lastItem_snoc in H. injection H as ->. now exists front.
Qed.

Lemma firstPresent_find : forall (A B : Type) (f : A -> option B) (l : list A),
  firstPresent (map f l)
  = match find (fun a => match f a with Some _ => true | None => false end) l
    with
    | Some a => f a
    | None => None
    end.
Proof.
  intros A B f. induction l as [|a l IH]; cbn; [reflexivity|].
  destruct (f a) eqn:E; [now rewrite E | exact IH].
Qed.

Lemma filterTruthy_filter : forall l : list (option string),
  filterTruthy l
  = filter (fun e => negb (String.eqb e EmptyString))
      (flat_map (fun item => match item with Some e => [e] | None => [] end)
         l).
Proof.
  unfold filterTruthy.
  induction l as [|[[|c e]|] l IH]; cbn; rewrite <- ?IH; reflexivity.
Qed.

End JsFacts.

(** ** The comparison engine *)

Module CompareFacts.
Import Compare.

(** [setsAreEqual] on two sets decides that they have the same
    elements. *)
Lemma setsAreEqual_spec : forall a b : list string,
  NoDup a -> NoDup b ->
  (setsAreEqual a b = true <-> forall x, In x a <-> In x b).
Proof.
  intros a b Ha Hb. unfold setsAreEqual, Js.size.
  destruct (List.length a =? List.length b) eqn:Hlen; cbn [negb].
  - apply Nat.eqb_eq in Hlen. rewrite forallb_forall. split.
    + intros Hincl x. split.
      * intros Hx. apply JsFacts.has_In. now apply Hincl.
      * revert x. apply (NoDup_length_incl Ha); [lia|].
        intros x Hx. apply JsFacts.has_In. now apply Hincl.
    + intros Hsame x Hx. apply JsFacts.has_In. now apply Hsame.
  - apply Nat.eqb_neq in Hlen. split; [discriminate|].
    intros Hsame. exfalso. apply Hlen. apply Nat.le_antisymm.
    + apply NoDup_incl_length; [assumption | intros x; apply Hsame].
    + apply NoDup_incl_length; [assumption | intros x; apply Hsame].
Qed.

Lemma matchesReference_spec :
  forall targetResult referenceResult : Doh.ProviderResult,
    Doh.ok (Doh.result targetResult) = true ->
    (matchesReference targetResult referenceResult = true
     <-> agrees targetResult referenceResult).
Proof.
  intros t r Hok. unfold matchesReference, agrees, sameAddresses.
  rewrite Hok. cbn [andb].
  rewrite andb_true_iff,
    (setsAreEqual_spec _ _ (JsFacts.newSet_NoDup _) (JsFacts.newSet_NoDup _)).
  split; intros [Hr Hsame]; (split; [assumption|]); intros ip.
  - pose proof (Hsame ip) as H. now rewrite !JsFacts.newSet_In in H.
  - rewrite !JsFacts.newSet_In. apply Hsame.
Qed.

Example setsAreEqual_order_irrelevant :
  setsAreEqual (Js.newSet String.eqb ["1.1.1.1"; "8.8.8.8"])
    (Js.newSet String.eqb ["8.8.8.8"; "1.1.1.1"]) = true.
Proof. reflexivity. Qed.

(** The status and the message that [runDohCheck] derives from the
    three provider results, before it looks at the ECH comparison: a
    target that is not ok gives [failure] with the target's own error;
    otherwise agreement means that the reference is ok and holds exactly
    the target's addresses (order and repetitions being irrelevant), and
    agreement with both references gives [success], with Cloudflare
    alone or Google alone [partial_match] and the message naming that
    reference, with neither [failure] and the mismatch message. *)
Lemma deriveStatus_matrix :
  forall targetResult cloudflareResult googleResult : Doh.ProviderResult,
    (Doh.ok (Doh.result targetResult) = false ->
     forall e, Doh.error (Doh.result targetResult) = Some e ->
       deriveStatus targetResult cloudflareResult googleResult
       = (failure, e)) /\
    (Doh.ok (Doh.result targetResult) = true ->
     (agrees targetResult cloudflareResult ->
      agrees targetResult googleResult ->
      deriveStatus targetResult cloudflareResult googleResult
      = (success, MSG_ALL_MATCH)) /\
     (agrees targetResult cloudflareResult ->
      ~ agrees targetResult googleResult ->
      deriveStatus targetResult cloudflareResult googleResult
      = (partial_match, MSG_CLOUDFLARE_ONLY)) /\
     (~ agrees targetResult cloudflareResult ->
      agrees targetResult googleResult ->
      deriveStatus targetResult cloudflareResult googleResult
      = (partial_match, MSG_GOOGLE_ONLY)) /\
     (~ agrees targetResult cloudflareResult ->
      ~ agrees targetResult googleResult ->
      deriveStatus targetResult cloudflareResult googleResult
      = (failure, MSG_MISMATCH))).
Proof.
  intros t c g. split.
  - intros Hok e He. unfold deriveStatus. now rewrite Hok, He.
  - intros Hok.
    pose proof (matchesReference_spec t c Hok) as Hc.
    pose proof (matchesReference_spec t g Hok) as Hg.
    unfold deriveStatus. rewrite Hok. cbn [negb].
    destruct (matchesReference t c), (matchesReference t g); cbn;
      repeat split; intros Ac Ag; try reflexivity; exfalso;
      intuition congruence.
Qed.

Lemma deriveStatus_matrix_witness :
  deriveStatus (exampleResult true ["93.184.216.34"] None)
    (exampleResult true ["93.184.216.34"] None)
    (exampleResult true ["1.2.3.4"] None)
  = (partial_match, MSG_CLOUDFLARE_ONLY)
  /\
  deriveStatus (exampleResult false [] (Some "The operation timed out."))
    (exampleResult true ["93.184.216.34"] None)
    (exampleResult true ["93.184.216.34"] None)
  = (failure, "The operation timed out.").
Proof.
  split.
  - apply (deriveStatus_matrix (exampleResult true ["93.184.216.34"] None)
             (exampleResult true ["93.184.216.34"] None)
             (exampleResult true ["1.2.3.4"] None)).
    + reflexivity.
    + split; [reflexivity | intros ip; reflexivity].
    + unfold agrees, sameAddresses. intros [_ Hsame].
      destruct (proj2 (Hsame "1.2.3.4") (or_introl eq_refl)) as [H | []].
      discriminate H.
  - apply (deriveStatus_matrix
             (exampleResult false [] (Some "The operation timed out."))
             (exampleResult true ["93.184.216.34"] None)
             (exampleResult true ["93.184.216.34"] None));
      reflexivity.
Defined.

(** The report keeps the derived status; its message is the derived
    message, followed by a remark when the ECH comparison is
    conclusive. *)
Lemma runDohCheck_status_message :
  forall (target cloudflare google : Settled Doh.ProviderResult)
         (echComparison : option DohEchComparison),
    let derived :=
      deriveStatus (dohDetail target) (dohDetail cloudflare)
        (dohDetail google) in
    let report := runDohCheck target cloudflare google echComparison in
    status report = fst derived /\
    exists remark,
      message report = (snd derived ++ remark)%string /\
      (remark = EmptyString \/ remark = NOTE_ECH_INCONSISTENT
       \/ remark = NOTE_ECH_CONSISTENT) /\
      (match echComparison with
       | Some comparison => consistent comparison = None
       | None => True
       end -> remark = EmptyString).
Proof.
  intros target cloudflare google echComparison. cbn zeta.
  unfold runDohCheck.
  destruct (deriveStatus _ _ _) as [st msg]. cbn [fst snd status message].
  split; [reflexivity|].
  assert (Hnil : forall x : string, x = (x ++ EmptyString)%string).
  { induction x; cbn; congruence. }
  destruct echComparison as [comparison|].
  - destruct (consistent comparison) as [[|]|].
    + exists NOTE_ECH_CONSISTENT. repeat split; auto. discriminate.
    + exists NOTE_ECH_INCONSISTENT. repeat split; auto. discriminate.
    + exists EmptyString. repeat split; auto.
  - exists EmptyString. repeat split; auto.
Qed.

(** C2, as the code has it.  The report of [runDohCheck] on three
    provider results.  A target that is not ok gives [failure];
    otherwise agreement with a reference means that the reference is ok
    and holds exactly the target's addresses (order and repetitions
    being irrelevant), and agreement with both references gives
    [success], with Cloudflare alone or Google alone [partial_match],
    with neither [failure].  The message begins with the target's own
    error, the sentence on full agreement, the sentence naming the one
    reference that agrees, or the sentence on the mismatch; behind it
    stands a remark on the ECH comparison when that comparison is
    conclusive, and nothing otherwise. *)
Theorem runDohCheck_report :
  forall (target cloudflare google : Settled Doh.ProviderResult)
         (echComparison : option DohEchComparison),
    let targetResult := dohDetail target in
    let cloudflareResult := dohDetail cloudflare in
    let googleResult := dohDetail google in
    let report := runDohCheck target cloudflare google echComparison in
    let remark :=
      match echComparison with
      | Some comparison =>
        match consistent comparison with
        | Some false => NOTE_ECH_INCONSISTENT
        | Some true => NOTE_ECH_CONSISTENT
        | None => EmptyString
        end
      | None => EmptyString
      end in
    (Doh.ok (Doh.result targetResult) = false ->
     status report = failure /\
     message report
     = (match Doh.error (Doh.result targetResult) with
        | Some e => e
        | None => MSG_TARGET_FAILED
        end ++ remark)%string) /\
    (Doh.ok (Doh.result targetResult) = true ->
     (agrees targetResult cloudflareResult ->
      agrees targetResult googleResult ->
      status report = success /\
      message report = (MSG_ALL_MATCH ++ remark)%string) /\
     (agrees targetResult cloudflareResult ->
      ~ agrees targetResult googleResult ->
      status report = partial_match /\
      message report = (MSG_CLOUDFLARE_ONLY ++ remark)%string) /\
     (~ agrees targetResult cloudflareResult ->
      agrees targetResult googleResult ->
      status report = partial_match /\
      message report = (MSG_GOOGLE_ONLY ++ remark)%string) /\
     (~ agrees targetResult cloudflareResult ->
      ~ agrees targetResult googleResult ->
      status report = failure /\
      message report = (MSG_MISMATCH ++ remark)%string)).
Proof.
  intros target cloudflare google echComparison. cbv zeta.
  assert (Hnil : forall x : string, x = (x ++ EmptyString)%string).
  { induction x; cbn; congruence. }
  assert (Hreport : forall st msg,
            deriveStatus (dohDetail target) (dohDetail cloudflare)
              (dohDetail google) = (st, msg) ->
            status (runDohCheck target cloudflare google echComparison) = st
            /\ message (runDohCheck target cloudflare google echComparison)
               = (msg
                  ++ match echComparison with
                     | Some comparison =>
                       match consistent comparison with
                       | Some false => NOTE_ECH_INCONSISTENT
                       | Some true => NOTE_ECH_CONSISTENT
                       | None => EmptyString
                       end
                     | None => EmptyString
                     end)%string).
  { intros st msg Hderived. unfold runDohCheck. rewrite Hderived.
    cbn [status message]. split; [reflexivity|].
    destruct echComparison as [comparison|]; [|apply Hnil].
    destruct (consistent comparison) as [[|]|];
      [reflexivity | reflexivity | apply Hnil]. }
  destruct (deriveStatus_matrix (dohDetail target) (dohDetail cloudflare)
              (dohDetail google)) as [Hfailed Hanswered].
  split.
  - intros Hok. apply Hreport.
    destruct (Doh.error (Doh.result (dohDetail target))) as [e|] eqn:He.
    + now apply Hfailed.
    + unfold deriveStatus. now rewrite Hok, He.
  - intros Hok. destruct (Hanswered Hok) as (Hboth & Hc & Hg & Hnone).
    split; [|split; [|split]]; intros Ac Ag; apply Hreport; auto.
Qed.

Lemma runDohCheck_report_witness :
  status (runDohCheck (fulfilled answeringReference)
            (fulfilled answeringReference) (fulfilled answeringReference)
            (Some exampleEchComparison))
  = success /\
  message (runDohCheck (fulfilled answeringReference)
             (fulfilled answeringReference) (fulfilled answeringReference)
             (Some exampleEchComparison))
  = MSG_ALL_MATCH.
Proof.
  assert (Hagrees : agrees answeringReference answeringReference)
    by (split; [reflexivity | intros ip; reflexivity]).
  destruct (runDohCheck_report (fulfilled answeringReference)
              (fulfilled answeringReference) (fulfilled answeringReference)
              (Some exampleEchComparison)) as [_ Hanswered].
  destruct (Hanswered eq_refl) as (Hboth & _).
  destruct (Hboth Hagrees Hagrees) as [Hstatus Hmessage].
  split; [exact Hstatus | exact Hmessage].
Defined.

(** The claim as it is worded fails on a target whose answer holds no
    address while both references return an ECH configuration that the
    target does not: the status is [failure], and the message is the
    target's error followed by the remark on the ECH comparison, not
    the error itself. *)
Lemma runDohCheck_message_counterexample :
  Doh.ok (Doh.result emptyTarget) = false /\
  consistent missingEchComparison = Some false /\
  status (runDohCheck (fulfilled emptyTarget) (fulfilled answeringReference)
            (fulfilled answeringReference) (Some missingEchComparison))
  = failure /\
  Doh.error (Doh.result emptyTarget)
  <> Some (message
             (runDohCheck (fulfilled emptyTarget)
                (fulfilled answeringReference)
                (fulfilled answeringReference)
                (Some missingEchComparison))).
Proof.
  split; [reflexivity|]. split; [reflexivity|]. split; [reflexivity|].
  vm_compute. discriminate.
Qed.

Lemma computeEchMatch_note :
  forall (target reference : option string) (notes : list string)
         (label : string),
    exists note,
      snd (computeEchMatch target reference notes label) = notes ++ [note] /\
      Js.includes note label = true.
Proof.
  intros target reference notes label. unfold computeEchMatch.
  repeat match goal with
         | |- context [if ?c then _ else _] => destruct c
         end; cbn [snd]; eexists; (split; [reflexivity|]);
    first [ apply (JsFacts.includes_app EmptyString)
          | apply JsFacts.includes_app ].
Qed.

Lemma overallConsistent_spec : forall mc mg : option bool,
  (overallConsistent mc mg = Some true <-> mc = Some true /\ mg = Some true)
  /\
  (overallConsistent mc mg = Some false
   <-> mc = Some false \/ mg = Some false)
  /\
  (overallConsistent mc mg = None
   <-> ~ (mc = Some true /\ mg = Some true)
       /\ mc <> Some false /\ mg <> Some false).
Proof.
  intros [[|]|] [[|]|]; cbn; intuition congruence.
Qed.

(** C3. For every pair of three-valued match results the overall
    [consistent] is [true] exactly when both are [true], [false] exactly
    when one of them is [false], and [null] in every other case; the
    comparison stores this value for its two matches; every comparison
    step appends one note that names its reference, Cloudflare's before
    Google's; and when the target's ECH string is present and equal to
    Cloudflare's while Google's is absent, the matches are [true] and
    [null] and [consistent] is [null]. *)
Theorem ech_consistency :
  forall (targetResult cloudflareResult googleResult : Ech.ProviderResult)
         (targetEch cloudflareEch googleEch : option string),
    let comparison :=
      runDohEchComparison targetResult cloudflareResult googleResult
        targetEch cloudflareEch googleEch in
    (forall mc mg : option bool,
       (overallConsistent mc mg = Some true
        <-> mc = Some true /\ mg = Some true) /\
       (overallConsistent mc mg = Some false
        <-> mc = Some false \/ mg = Some false) /\
       (overallConsistent mc mg = None
        <-> ~ (mc = Some true /\ mg = Some true)
            /\ mc <> Some false /\ mg <> Some false)) /\
    consistent comparison
    = overallConsistent (ech_matches_cloudflare comparison)
        (ech_matches_google comparison) /\
    ech_matches_cloudflare comparison
    = fst (computeEchMatch targetEch cloudflareEch [] "Cloudflare") /\
    (forall notes,
       ech_matches_google comparison
       = fst (computeEchMatch targetEch googleEch notes "Google")) /\
    (exists noteCloudflare noteGoogle,
       notes comparison = [noteCloudflare; noteGoogle] /\
       Js.includes noteCloudflare "Cloudflare" = true /\
       Js.includes noteGoogle "Google" = true) /\
    (Js.truthy targetEch = true ->
     cloudflareEch = targetEch ->
     Js.truthy googleEch = false ->
     ech_matches_cloudflare comparison = Some true /\
     ech_matches_google comparison = None /\
     consistent comparison = None).
Proof.
  intros targetResult cloudflareResult googleResult targetEch cloudflareEch
    googleEch. cbn zeta. unfold runDohEchComparison.
  destruct (computeEchMatch_note targetEch cloudflareEch [] "Cloudflare")
    as (noteC & HnoteC & HinC).
  destruct (computeEchMatch targetEch cloudflareEch [] "Cloudflare")
    as [mc notesC] eqn:Ec.
  cbn [snd] in HnoteC. subst notesC.
  destruct (computeEchMatch_note targetEch googleEch ([] ++ [noteC]) "Google")
    as (noteG & HnoteG & HinG).
  destruct (computeEchMatch targetEch googleEch ([] ++ [noteC]) "Google")
    as [mg notesG] eqn:Eg.
  cbn [snd] in HnoteG. subst notesG.
  cbn [consistent ech_matches_cloudflare ech_matches_google notes fst].
  assert (Hmg : forall notes,
             mg = fst (computeEchMatch targetEch googleEch notes "Google")).
  { intros notes. apply (f_equal fst) in Eg. cbn [fst] in Eg. subst mg.
    unfold computeEchMatch.
    repeat match goal with
           | |- context [if ?c then _ else _] => destruct c
           end; reflexivity. }
  split; [exact overallConsistent_spec|].
  split; [reflexivity|]. split; [reflexivity|]. split; [exact Hmg|].
  split; [exists noteC, noteG; auto|].
  intros Htarget -> Hgoogle.
  apply (f_equal fst) in Ec. cbn [fst] in Ec. subst mc.
  rewrite (Hmg []).
  unfold computeEchMatch. rewrite Htarget, Hgoogle. cbn [negb andb].
  assert (Heq : Js.strictEq targetEch targetEch = true).
  { destruct targetEch; [apply String.eqb_refl | reflexivity]. }
  rewrite Heq. cbn. auto.
Qed.

Lemma ech_consistency_witness :
  ech_matches_cloudflare exampleEchComparison = Some true /\
  ech_matches_google exampleEchComparison = None /\
  consistent exampleEchComparison = None.
Proof.
  apply (ech_consistency
           (exampleEchResult true (Some "1 . ech=AEX+DQBBpQAgACB"))
           (exampleEchResult true (Some "1 . ech=AEX+DQBBpQAgACB"))
           (exampleEchResult false None)
           (Some "AEX+DQBBpQAgACB") (Some "AEX+DQBBpQAgACB") None);
    reflexivity.
Defined.

End CompareFacts.

(** ** The failure combiners *)

Module CombinerFacts.
Import CombinerSpec.

Lemma backward_scan :
  forall (A B : Type) (f : A -> option B) (results : list A) (last : A),
    Js.lastItem results = Some last ->
    match f last with
    | Some s => Some s
    | None => Js.firstPresent (map f (rev results))
    end
    = match backwardFirst (fun a => Js.present (f a)) results with
      | Some a => f a
      | None => None
      end.
Proof.
  intros A B f results last Hlast.
  apply JsFacts.lastItem_Some in Hlast. destruct Hlast as [front ->].
  unfold backwardFirst.
  rewrite <- (JsFacts.firstPresent_find A B f), rev_app_distr. cbn.
  destruct (f last); reflexivity.
Qed.

Lemma joined_errors : forall (errors : list (option string)) (default : string),
  match Js.filterTruthy errors with
  | [] => default
  | _ => String.concat " | " (Js.filterTruthy errors)
  end
  = let nonEmpty :=
      filter (fun e => negb (String.eqb e EmptyString))
        (flat_map (fun item => match item with Some e => [e] | None => [] end)
           errors) in
    if (List.length nonEmpty =? 0) then default
    else String.concat " | " nonEmpty.
Proof.
  intros errors default. rewrite JsFacts.filterTruthy_filter. cbn zeta.
  destruct (filter _ _); reflexivity.
Qed.

Lemma combineEchFailures_defined :
  forall (results : list Ech.ProviderResult) (last : Ech.ProviderResult),
    Js.lastItem results = Some last ->
    exists merged, Ech.combineEchFailures results = Some merged.
Proof.
  intros results last Hlast. unfold Ech.combineEchFailures.
  rewrite Hlast. eauto.
Qed.

(** C7, as the code has it.  For a non-empty list of attempts both
    combiners take the status and the latency from the first attempt,
    scanning from the last one backward, that has one; the response
    shape and the content type are those of the last attempt when it has
    a known shape (a non-empty content type), and only otherwise the
    first known shape (non-empty content type) in forward order; the
    error joins all non-empty errors with [" | "], or is the default
    text when there is none. *)
Theorem combine_failures_fields :
  (forall (results : list Doh.ModeResult) (last : Doh.ModeResult),
     Js.lastItem results = Some last ->
     let merged := Doh.result (Doh.combineDohFailures results) in
     let nonEmptyErrors :=
       filter (fun e => negb (String.eqb e EmptyString))
         (flat_map (fun item => match Doh.error (Doh.base item) with
                                | Some e => [e]
                                | None => []
                                end) results) in
     Doh.status merged
     = match backwardFirst
               (fun a => Js.present (Doh.status (Doh.base a))) results with
       | Some a => Doh.status (Doh.base a)
       | None => None
       end /\
     Doh.latency_ms merged
     = match backwardFirst
               (fun a => Js.present (Doh.latency_ms (Doh.base a))) results with
       | Some a => Doh.latency_ms (Doh.base a)
       | None => None
       end /\
     Doh.response_format merged
     = (if knownFormat (Doh.response_format (Doh.base last))
        then Doh.response_format (Doh.base last)
        else forwardShape
               (map (fun a => Doh.response_format (Doh.base a)) results)) /\
     Doh.content_type merged
     = (if Js.truthy (Doh.content_type (Doh.base last))
        then Doh.content_type (Doh.base last)
        else match find Js.truthy
                     (map (fun a => Doh.content_type (Doh.base a)) results)
             with
             | Some type => type
             | None => None
             end) /\
     Doh.error merged
     = Some (if List.length nonEmptyErrors =? 0 then Doh.DEFAULT_ERROR
             else String.concat " | " nonEmptyErrors))
  /\
  (forall (results : list Ech.ProviderResult) (last : Ech.ProviderResult),
     Js.lastItem results = Some last ->
     let nonEmptyErrors :=
       filter (fun e => negb (String.eqb e EmptyString))
         (flat_map (fun item => match Ech.error item with
                                | Some e => [e]
                                | None => []
                                end) results) in
     exists merged,
       Ech.combineEchFailures results = Some merged /\
       Ech.status merged
       = match backwardFirst (fun a => Js.present (Ech.status a)) results with
         | Some a => Ech.status a
         | None => None
         end /\
       Ech.latency_ms merged
       = match backwardFirst
                 (fun a => Js.present (Ech.latency_ms a)) results with
         | Some a => Ech.latency_ms a
         | None => None
         end /\
       Ech.response_format merged
       = (if knownFormat (Ech.response_format last)
          then Ech.response_format last
          else match find knownFormat (map Ech.response_format results) with
               | Some shape => shape
               | None => Ech.response_format last
               end) /\
       Ech.content_type merged
       = (if Js.truthy (Ech.content_type last) then Ech.content_type last
          else match find Js.truthy (map Ech.content_type results) with
               | Some type => type
               | None => None
               end) /\
       Ech.error merged
       = Some (if List.length nonEmptyErrors =? 0 then Ech.DEFAULT_ERROR
               else String.concat " | " nonEmptyErrors)).
Proof.
  split.
  - intros results last Hlast. cbn zeta.
    unfold Doh.combineDohFailures. rewrite Hlast.
    cbn [Doh.result Doh.status Doh.latency_ms Doh.response_format
         Doh.content_type Doh.error].
    rewrite (backward_scan _ _ (fun a => Doh.status (Doh.base a)) _ _ Hlast),
      (backward_scan _ _ (fun a => Doh.latency_ms (Doh.base a)) _ _ Hlast).
    repeat split.
    f_equal.
    rewrite (joined_errors (map (fun item => Doh.error (Doh.base item)) results)).
    cbn zeta. now rewrite flat_map_concat_map, map_map, <- flat_map_concat_map.
  - intros results last Hlast. cbn zeta.
    unfold Ech.combineEchFailures. rewrite Hlast.
    eexists. split; [reflexivity|].
    cbn [Ech.status Ech.latency_ms Ech.response_format Ech.content_type
         Ech.error].
    rewrite (backward_scan _ _ Ech.status _ _ Hlast),
      (backward_scan _ _ Ech.latency_ms _ _ Hlast).
    repeat split.
    f_equal. rewrite (joined_errors (map Ech.error results)).
    cbn zeta. now rewrite flat_map_concat_map, map_map, <- flat_map_concat_map.
Qed.

Lemma combine_failures_fields_witness :
  Doh.response_format (Doh.result (Doh.combineDohFailures mixedAttempts))
  = Some FormatWire
  /\
  exists merged,
    Ech.combineEchFailures mixedEchAttempts = Some merged /\
    Ech.status merged = Some 200%Z /\
    Ech.response_format merged = Some FormatText.
Proof.
  destruct combine_failures_fields as [Hdoh Hech]. split.
  - destruct (Hdoh mixedAttempts _ eq_refl) as (_ & _ & H & _). exact H.
  - destruct (Hech mixedEchAttempts _ eq_refl)
      as (merged & Hm & Hs & _ & Hf & _).
    exists merged. repeat split; assumption.
Defined.

(** The claim as it is worded fails on [mixedAttempts]: the merged shape
    and content type are those of the last attempt, not the first known
    ones in forward order. *)
Lemma combine_failures_forward_counterexample :
  Doh.response_format (Doh.result (Doh.combineDohFailures mixedAttempts))
  <> forwardShape
       (map (fun a => Doh.response_format (Doh.base a)) mixedAttempts)
  /\
  Doh.content_type (Doh.result (Doh.combineDohFailures mixedAttempts))
  <> forwardContentType
       (map (fun a => Doh.content_type (Doh.base a)) mixedAttempts).
Proof. split; discriminate. Qed.

End CombinerFacts.

(** ** The wire codec on laid-out messages *)

Module WireFacts.
Import NameCodec Wire WireFormat.

Lemma to_N_byteOf : forall n : N, (n < 256)%N -> Byte.to_N (byteOf n) = n.
Proof.
  intros n Hn. unfold byteOf. rewrite N.mod_small by assumption.
  destruct (Byte.of_N n) as [b|] eqn:E.
  - now apply Byte.to_of_N.
  - apply Byte.of_N_None_iff in E. lia.
Qed.

Lemma to_N_byteOf_mod : forall n : N, Byte.to_N (byteOf n) = (n mod 256)%N.
Proof.
  intros n. unfold byteOf.
  assert (Hlt : (n mod 256 < 256)%N) by (apply N.mod_lt; discriminate).
  destruct (Byte.of_N (n mod 256)) as [b|] eqn:E.
  - now apply Byte.to_of_N.
  - apply Byte.of_N_None_iff in E. lia.
Qed.

Lemma occursAt_app : forall message offset a b,
  occursAt message offset (a ++ b) ->
  occursAt message offset a /\ occursAt message (offset + List.length a) b.
Proof.
  intros message offset a b (before & after & -> & <-). split.
  - exists before, (b ++ after). now rewrite <- app_assoc.
  - exists (before ++ a), after. rewrite length_app, <- !app_assoc. auto.
Qed.

Lemma occursAt_length : forall message offset chunk,
  occursAt message offset chunk ->
  offset + List.length chunk <= List.length message.
Proof.
  intros message offset chunk (before & after & -> & <-).
  rewrite !length_app. lia.
Qed.

Lemma occursAt_nth : forall message offset chunk i,
  occursAt message offset chunk -> i < List.length chunk ->
  nth_error message (offset + i) = nth_error chunk i.
Proof.
  intros message offset chunk i (before & after & -> & <-) Hi.
  rewrite nth_error_app2 by lia.
  replace (List.length before + i - List.length before) with i by lia.
  now rewrite nth_error_app1.
Qed.

Lemma occursAt_head : forall message offset b chunk,
  occursAt message offset (b :: chunk) ->
  nth_error message offset = Some b.
Proof.
  intros message offset b chunk H.
  rewrite <- (Nat.add_0_r offset).
  rewrite (occursAt_nth _ _ _ 0 H); [reflexivity | cbn; lia].
Qed.

Lemma occursAt_subarray : forall message offset chunk,
  occursAt message offset chunk ->
  subarray message offset (offset + List.length chunk) = chunk.
Proof.
  intros message offset chunk (before & after & -> & <-). unfold subarray.
  rewrite Nat.add_comm, Nat.add_sub.
  rewrite skipn_app, skipn_all, Nat.sub_diag. cbn [skipn app].
  rewrite firstn_app, firstn_all, Nat.sub_diag. cbn [firstn].
  apply app_nil_r.
Qed.

Lemma occursAt_whole : forall chunk, occursAt chunk 0 chunk.
Proof. intros chunk. exists [], []. now rewrite app_nil_r. Qed.

(** A test for a concrete message. *)
Lemma occursAt_skipn : forall message offset chunk,
  offset <= List.length message ->
  firstn (List.length chunk) (skipn offset message) = chunk ->
  occursAt message offset chunk.
Proof.
  intros message offset chunk Hoffset Hchunk.
  exists (firstn offset message),
    (skipn (List.length chunk) (skipn offset message)).
  split.
  - rewrite <- Hchunk at 1. now rewrite !firstn_skipn.
  - apply firstn_length_le, Hoffset.
Qed.

Lemma getUint16_uint16 : forall message offset n,
  occursAt message offset (uint16 n) -> (n < 65536)%N ->
  getUint16 message offset = Normal n.
Proof.
  intros message offset n H Hn. unfold getUint16.
  rewrite (occursAt_head _ _ _ _ H).
  rewrite (occursAt_nth _ _ _ 1 H) by (cbn; lia). cbn [nth_error uint16].
  rewrite !to_N_byteOf_mod. f_equal.
  rewrite (N.mod_small (n / 256))
    by (apply N.Div0.div_lt_upper_bound; lia).
  rewrite N.mul_comm. symmetry. apply N.div_mod. discriminate.
Qed.

Lemma small_length_not_pointer : forall n : nat,
  n <= 63 -> isPointer (N.of_nat n) = false.
Proof.
  intros n Hn.
  assert (Hall : forallb (fun i => negb (isPointer (N.of_nat i))) (seq 0 64)
                 = true) by (vm_compute; reflexivity).
  rewrite forallb_forall in Hall.
  apply negb_true_iff, Hall, in_seq. lia.
Qed.

Lemma readLabel_slice : forall label message offset,
  occursAt message offset label ->
  readLabel message offset (List.length label) = string_of_list_byte label.
Proof.
  induction label as [|b label IH]; intros message offset H;
    [reflexivity|].
  cbn [List.length readLabel]. unfold charAt.
  rewrite (occursAt_head _ _ _ _ H).
  change (b :: label) with ([b] ++ label) in H.
  apply occursAt_app in H. destruct H as [_ H].
  cbn [List.length] in H. rewrite Nat.add_1_r in H.
  rewrite (IH _ _ H). reflexivity.
Qed.

Lemma length_encodeName : forall name : Name,
  List.length name < List.length (encodeName name).
Proof.
  intros name. unfold encodeName. rewrite length_app. cbn [List.length].
  induction name as [|label name IH]; cbn [flat_map List.length];
    rewrite ?length_app; cbn [encodeLabel List.length]; lia.
Qed.

Lemma encodeName_cons : forall (label : list byte) (name : Name),
  encodeName (label :: name)
  = byteOf (N.of_nat (List.length label)) :: label ++ encodeName name.
Proof.
  intros label name. unfold encodeName. cbn [flat_map encodeLabel app].
  now rewrite <- app_assoc.
Qed.

Lemma label_byte : forall (label : list byte) message offset,
  validLabel label ->
  occursAt message offset (encodeLabel label) ->
  exists b,
    nth_error message offset = Some b /\
    Byte.to_N b = N.of_nat (List.length label).
Proof.
  intros label message offset [_ Hhigh] Hat.
  exists (byteOf (N.of_nat (List.length label))). split.
  - exact (occursAt_head _ _ _ _ Hat).
  - apply to_N_byteOf. lia.
Qed.

Lemma NameAt_in_range : forall message offset steps name size,
  NameAt message offset steps name size -> offset < List.length message.
Proof.
  intros message offset steps name size H.
  apply nth_error_Some.
  destruct H as [offset H | offset label steps name size Hvalid Hat _
                 | offset target steps name size (hi & lo & H & _) _].
  - congruence.
  - destruct (label_byte _ _ _ Hvalid Hat) as (b & -> & _). discriminate.
  - congruence.
Qed.

(** The number of steps from an offset is determined by the message. *)
Lemma NameAt_steps_unique : forall message offset steps name size,
  NameAt message offset steps name size ->
  forall steps' name' size',
    NameAt message offset steps' name' size' -> steps' = steps.
Proof.
  induction 1 as [offset Hroot
                 | offset label steps name size Hvalid Hat Hrest IH
                 | offset target steps name size Hpointer Hrest IH];
    intros steps' name' size' H';
    destruct H' as [offset Hroot'
                   | offset label' steps' name' size' Hvalid' Hat' Hrest'
                   | offset target' steps' name' size' Hpointer' Hrest'].
  - reflexivity.
  - destruct (label_byte _ _ _ Hvalid' Hat') as (b & Hb & Hlen).
    rewrite Hroot in Hb. injection Hb as <-.
    destruct Hvalid'. cbn in Hlen. lia.
  - destruct Hpointer' as (hi & lo & Hhi & _ & Hptr & _).
    rewrite Hroot in Hhi. injection Hhi as <-. discriminate Hptr.
  - destruct (label_byte _ _ _ Hvalid Hat) as (b & Hb & Hlen).
    rewrite Hroot' in Hb. injection Hb as <-.
    destruct Hvalid. cbn in Hlen. lia.
  - destruct (label_byte _ _ _ Hvalid Hat) as (b & Hb & Hlen).
    destruct (label_byte _ _ _ Hvalid' Hat') as (b' & Hb' & Hlen').
    rewrite Hb in Hb'. injection Hb' as <-.
    assert (Hsame : List.length label' = List.length label) by lia.
    rewrite Hsame in Hrest'. f_equal. exact (IH _ _ _ Hrest').
  - destruct (label_byte _ _ _ Hvalid Hat) as (b & Hb & Hlen).
    destruct Hpointer' as (hi & lo & Hhi & _ & Hptr & _).
    rewrite Hb in Hhi. injection Hhi as <-.
    destruct Hvalid. rewrite Hlen, small_length_not_pointer in Hptr by lia.
    discriminate.
  - destruct Hpointer as (hi & lo & Hhi & _ & Hptr & _).
    rewrite Hroot' in Hhi. injection Hhi as <-. discriminate Hptr.
  - destruct (label_byte _ _ _ Hvalid' Hat') as (b & Hb & Hlen).
    destruct Hpointer as (hi & lo & Hhi & _ & Hptr & _).
    rewrite Hb in Hhi. injection Hhi as <-.
    destruct Hvalid'. rewrite Hlen, small_length_not_pointer in Hptr by lia.
    discriminate.
  - destruct Hpointer as (hi & lo & Hhi & Hlo & _ & Htarget).
    destruct Hpointer' as (hi' & lo' & Hhi' & Hlo' & _ & Htarget').
    rewrite Hhi in Hhi'. injection Hhi' as <-.
    rewrite Hlo in Hlo'. injection Hlo' as <-.
    rewrite Htarget in Htarget'. subst target'.
    f_equal. exact (IH _ _ _ Hrest').
Qed.

(** The offsets read on the way are pairwise distinct. *)
Lemma NameAt_visited : forall message offset steps name size,
  NameAt message offset steps name size ->
  exists visited : list nat,
    List.length visited = steps /\
    NoDup visited /\
    forall v, In v visited ->
      exists steps' name' size',
        NameAt message v steps' name' size' /\ steps' <= steps.
Proof.
  intros message offset steps name size H.
  assert (Hstep : forall offset steps name size visited,
    NameAt message offset (S steps) name size ->
    (List.length visited = steps /\
     NoDup visited /\
     forall v, In v visited ->
       exists steps' name' size',
         NameAt message v steps' name' size' /\ steps' <= steps) ->
    List.length (offset :: visited) = S steps /\
    NoDup (offset :: visited) /\
    forall v, In v (offset :: visited) ->
      exists steps' name' size',
        NameAt message v steps' name' size' /\ steps' <= S steps).
  { clear. intros offset steps name size visited Hhere (Hlen & Hnd & Hall).
    split; [cbn; now rewrite Hlen|]. split.
    - constructor; [|assumption]. intros Hin.
      destruct (Hall _ Hin) as (s' & n' & c' & Hagain & Hle).
      pose proof (NameAt_steps_unique _ _ _ _ _ Hhere _ _ _ Hagain). lia.
    - intros v [<- | Hin]; [eauto 6|].
      destruct (Hall _ Hin) as (s' & n' & c' & Hv & Hle). eauto 6. }
  induction H as [offset Hroot
                 | offset label steps name size Hvalid Hat Hrest IH
                 | offset target steps name size Hpointer Hrest IH].
  - exists [offset]. split; [reflexivity|]. split.
    + repeat constructor. intros [].
    + intros v [<- | []]. exists 1, [], 1. split; [now constructor | lia].
  - destruct IH as (visited & IH). exists (offset :: visited).
    eapply Hstep; [|exact IH]. econstructor; eassumption.
  - destruct IH as (visited & IH). exists (offset :: visited).
    eapply Hstep; [|exact IH]. eapply NameAt_pointer; eassumption.
Qed.

(** A name is read in at most as many steps as the message has bytes. *)
Lemma NameAt_steps_bound : forall message offset steps name size,
  NameAt message offset steps name size -> steps <= List.length message.
Proof.
  intros message offset steps name size H.
  destruct (NameAt_visited _ _ _ _ _ H) as (visited & <- & Hnd & Hall).
  replace (List.length message)
    with (List.length (seq 0 (List.length message)))
    by apply length_seq.
  apply NoDup_incl_length; [assumption|].
  intros v Hin. apply in_seq.
  destruct (Hall _ Hin) as (s' & n' & c' & Hv & _).
  apply NameAt_in_range in Hv. lia.
Qed.

(** The loop decodes a name that is written at its offset. *)
Lemma loop_name_at : forall message currentOffset steps name size,
  NameAt message currentOffset steps name size ->
  forall fuel labels length jumped safety,
    steps <= fuel ->
    safety + steps <= List.length message + 1 ->
    readDnsName_loop fuel message labels length jumped currentOffset safety
    = Normal {| NameCodec.name :=
                  String.concat "."
                    (labels ++ map string_of_list_byte name);
                NameCodec.length :=
                  if jumped then length else length + size |}.
Proof.
  induction 1 as [offset Hroot
                 | offset label steps name size Hvalid Hat Hrest IH
                 | offset target steps name size Hpointer Hrest IH];
    intros fuel labels length jumped safety Hfuel Hsafety;
    (destruct fuel as [|fuel]; [lia|]);
    cbn [readDnsName_loop];
    (replace (List.length message <? safety) with false
       by (symmetry; apply Nat.ltb_ge; lia)).
  - rewrite Hroot. cbn. now rewrite app_nil_r.
  - destruct (label_byte _ _ _ Hvalid Hat) as (b & -> & Hlen).
    rewrite Hlen. destruct Hvalid as [Hlow Hhigh].
    rewrite small_length_not_pointer by assumption.
    replace (N.of_nat (List.length label) =? 0)%N with false
      by (symmetry; apply N.eqb_neq; lia).
    replace (63 <? N.of_nat (List.length label))%N with false
      by (symmetry; apply N.ltb_ge; lia).
    rewrite Nat2N.id.
    pose proof (occursAt_length _ _ _ Hat) as Hend.
    change (encodeLabel label)
      with ([byteOf (N.of_nat (List.length label))] ++ label) in Hat.
    apply occursAt_app in Hat. destruct Hat as [_ Hlabel].
    cbn [encodeLabel List.length] in Hend, Hlabel.
    replace (List.length message <? offset + 1 + List.length label)
      with false by (symmetry; apply Nat.ltb_ge; lia).
    rewrite (readLabel_slice _ _ _ Hlabel).
    rewrite IH by lia.
    rewrite <- app_assoc. cbn [app map].
    f_equal. f_equal. destruct jumped; lia.
  - pose proof (NameAt_in_range _ _ _ _ _ Hrest) as Hin.
    destruct Hpointer as (hi & lo & -> & -> & -> & ->).
    replace (List.length message <=? target) with false
      by (symmetry; apply Nat.leb_gt; lia).
    rewrite IH by lia. reflexivity.
Qed.

Lemma readDnsName_at : forall message offset steps name size,
  NameAt message offset steps name size ->
  readDnsName message offset
  = Normal {| NameCodec.name := nameText name; NameCodec.length := size |}.
Proof.
  intros message offset steps name size H. unfold readDnsName.
  pose proof (NameAt_steps_bound _ _ _ _ _ H).
  rewrite (loop_name_at _ _ _ _ _ H) by lia. reflexivity.
Qed.

(** A name that is written in full. *)
Lemma NameAt_plain : forall (name : Name) message offset,
  occursAt message offset (encodeName name) ->
  validName name ->
  NameAt message offset (S (List.length name)) name
    (List.length (encodeName name)).
Proof.
  intros name. induction name as [|label name IH];
    intros message offset Hat Hvalid.
  - constructor. exact (occursAt_head _ _ _ _ Hat).
  - apply Forall_cons_iff in Hvalid. destruct Hvalid as [Hlabel Hname].
    rewrite encodeName_cons in *.
    change (byteOf (N.of_nat (List.length label)) :: label ++ encodeName name)
      with (encodeLabel label ++ encodeName name) in Hat.
    apply occursAt_app in Hat. destruct Hat as [Hhead Hrest].
    cbn [encodeLabel List.length] in Hrest.
    replace (offset + S (List.length label))
      with (offset + 1 + List.length label) in Hrest by lia.
    cbn [List.length]. rewrite length_app.
    replace (S (List.length label + List.length (encodeName name)))
      with (1 + List.length label + List.length (encodeName name)) by lia.
    constructor; [assumption | assumption | apply IH; assumption].
Qed.

Lemma readDnsName_encoded : forall (name : Name) message offset,
  occursAt message offset (encodeName name) ->
  validName name ->
  readDnsName message offset
  = Normal {| NameCodec.name := nameText name;
              NameCodec.length := List.length (encodeName name) |}.
Proof.
  intros name message offset Hat Hvalid.
  exact (readDnsName_at _ _ _ _ _ (NameAt_plain _ _ _ Hat Hvalid)).
Qed.

Lemma append_assoc : forall a b c : string,
  ((a ++ b) ++ c = a ++ (b ++ c))%string.
Proof. induction a as [|x a IH]; intros b c; cbn; congruence. Qed.

Lemma append_nil_r : forall a : string, (a ++ EmptyString = a)%string.
Proof. induction a as [|x a IH]; cbn; congruence. Qed.

Lemma find_snoc : forall (A : Type) (f : A -> bool) (l : list A) (x : A),
  find f (l ++ [x])
  = match find f l with
    | Some y => Some y
    | None => if f x then Some x else None
    end.
Proof.
  intros A f l x. induction l as [|y l IH]; cbn; [reflexivity|].
  destruct (f y); [reflexivity | exact IH].
Qed.

Lemma existsb_find_rev : forall (A : Type) (f : A -> bool) (l : list A),
  existsb f l = Js.present (find f (rev l)).
Proof.
  intros A f l. induction l as [|x l IH]; cbn; [reflexivity|].
  rewrite find_snoc, IH.
  destruct (find f (rev l)); cbn; [apply orb_true_r|].
  destruct (f x); reflexivity.
Qed.

Lemma length_encodeParam : forall param : SvcParam,
  List.length (encodeParam param) = 4 + List.length (value param).
Proof. intros param. unfold encodeParam. now rewrite !length_app. Qed.

Lemma length_encodeParams : forall ps : list SvcParam,
  List.length ps <= List.length (flat_map encodeParam ps).
Proof.
  induction ps as [|p ps IH]; cbn [flat_map List.length]; [lia|].
  rewrite length_app, length_encodeParam. lia.
Qed.

(** The parameter loop on parameters that are laid out up to the end of
    the rdata. *)
Lemma svcbParams_encoded :
  forall (ps : list SvcParam) message view offset rdlength cursor state fuel,
    occursAt view cursor (flat_map encodeParam ps) ->
    occursAt message (offset + cursor) (flat_map encodeParam ps) ->
    cursor + List.length (flat_map encodeParam ps) = rdlength ->
    Forall validParam ps ->
    List.length ps < fuel ->
    svcbParams_loop fuel message view offset rdlength cursor state
    = Normal
        {| params := params state ++ map paramText ps;
           paramsHasEch := existsb isEchParam ps || paramsHasEch state;
           echBase64 :=
             match find isEchParam (rev ps) with
             | Some p => Some (Text.bytesToBase64 (value p))
             | None => echBase64 state
             end |}.
Proof.
  induction ps as [|p ps IH];
    intros message view offset rdlength cursor state fuel Hview Hmsg Hend
      Hvalid Hfuel;
    (destruct fuel as [|fuel]; [cbn in Hfuel; lia|]);
    cbn [svcbParams_loop].
  - cbn in Hend. replace (cursor <? rdlength) with false
      by (symmetry; apply Nat.ltb_ge; lia).
    destruct state; cbn. now rewrite app_nil_r.
  - cbn [flat_map] in *. rewrite length_app, length_encodeParam in Hend.
    apply Forall_cons_iff in Hvalid.
    destruct Hvalid as [[Hkey Hvalue] Hrest].
    replace (cursor <? rdlength) with true
      by (symmetry; apply Nat.ltb_lt; lia).
    replace (rdlength <? cursor + 4) with false
      by (symmetry; apply Nat.ltb_ge; lia).
    apply occursAt_app in Hview. destruct Hview as [Hp Hview].
    apply occursAt_app in Hmsg. destruct Hmsg as [Hpm Hmsg].
    rewrite length_encodeParam in Hview, Hmsg.
    unfold encodeParam in Hp, Hpm.
    apply occursAt_app in Hp. destruct Hp as [Hk Hp].
    apply occursAt_app in Hp. destruct Hp as [Hl _].
    apply occursAt_app in Hpm. destruct Hpm as [_ Hpm].
    apply occursAt_app in Hpm. destruct Hpm as [_ Hv].
    cbn [uint16 List.length] in Hl, Hv.
    rewrite (getUint16_uint16 _ _ _ Hk Hkey). cbn [bind].
    rewrite (getUint16_uint16 _ _ _ Hl Hvalue). cbn [bind].
    rewrite Nat2N.id.
    replace (rdlength <? cursor + 2 + 2 + List.length (value p)) with false
      by (symmetry; apply Nat.ltb_ge; lia).
    replace (offset + (cursor + 2 + 2)) with (offset + cursor + 2 + 2) by lia.
    rewrite (occursAt_subarray _ _ _ Hv).
    rewrite (IH message view offset rdlength
               (cursor + 2 + 2 + List.length (value p)));
      [ | replace (cursor + 2 + 2 + List.length (value p))
            with (cursor + (4 + List.length (value p))) by lia; assumption
        | replace (offset + (cursor + 2 + 2 + List.length (value p)))
            with (offset + cursor + (4 + List.length (value p))) by lia;
          assumption
        | lia | assumption | cbn in Hfuel; lia ].
    cbn [params paramsHasEch echBase64 map existsb rev].
    rewrite find_snoc, <- app_assoc. cbn [app].
    clear IH. change (isEchParam p) with (key p =? 5)%N.
    fold (paramText p).
    destruct (find isEchParam (rev ps)), (key p =? 5)%N,
      (existsb isEchParam ps), (paramsHasEch state); reflexivity.
Qed.

Lemma nameText_nonempty : forall (label : list byte) (name : Name),
  validName (label :: name) ->
  exists c rest, nameText (label :: name) = String c rest.
Proof.
  intros label name Hvalid.
  apply Forall_cons_iff in Hvalid. destruct Hvalid as [[Hlow _] _].
  destruct label as [|b label]; [cbn in Hlow; lia|].
  unfold nameText. cbn [map String.concat].
  destruct (map string_of_list_byte name); cbn; eauto.
Qed.

Lemma base64_truthy : forall bytes : list byte,
  Js.truthy (Some (Text.bytesToBase64 bytes))
  = match bytes with [] => false | _ => true end.
Proof. intros [|a [|b [|c rest]]]; reflexivity. Qed.

(** [parseHttpsSvcbRecord] on rdata that is laid out as an HTTPS record:
    a record of fewer than four bytes gets no description; any other is
    described, with [hasEch] set exactly when a parameter has key 5. *)
Lemma parseHttpsSvcbRecord_encoded :
  forall (data : HttpsData) (message : list byte) (offset : nat),
    occursAt message offset (encodeHttps data) ->
    validHttps data ->
    parseHttpsSvcbRecord message offset (List.length (encodeHttps data))
    = Normal (if described data
              then {| hasEch := carriesEch data;
                      description := describe data |}
              else {| hasEch := false; description := EmptyString |}).
Proof.
  intros data message offset Hat (Hpriority & Hname & Hparams & Hsize).
  unfold parseHttpsSvcbRecord, described.
  pose proof (occursAt_length _ _ _ Hat) as Hlen.
  replace (List.length message <? offset + List.length (encodeHttps data))
    with false by (symmetry; apply Nat.ltb_ge; lia).
  rewrite (occursAt_subarray _ _ _ Hat).
  destruct (List.length (encodeHttps data) <? 4) eqn:Hshort.
  { apply Nat.ltb_lt in Hshort.
    replace (4 <=? List.length (encodeHttps data)) with false
      by (symmetry; apply Nat.leb_gt; lia).
    reflexivity. }
  apply Nat.ltb_ge in Hshort.
  replace (4 <=? List.length (encodeHttps data)) with true
    by (symmetry; apply Nat.leb_le; lia).
  pose proof (occursAt_whole (encodeHttps data)) as Hview.
  change (occursAt (encodeHttps data) 0
            (uint16 (priority data) ++ encodeName (target data)
             ++ flat_map encodeParam (svcParams data))) in Hview.
  unfold encodeHttps in Hat.
  apply occursAt_app in Hview. destruct Hview as [Hvp Hview].
  apply occursAt_app in Hview. destruct Hview as [_ Hvparams].
  apply occursAt_app in Hat. destruct Hat as [_ Hat].
  apply occursAt_app in Hat. destruct Hat as [Hmname Hmparams].
  cbn [uint16 List.length] in Hvparams, Hmname, Hmparams.
  rewrite (getUint16_uint16 _ _ _ Hvp Hpriority). cbn [bind].
  replace (offset + (0 + 2)) with (offset + 2) by lia.
  rewrite (readDnsName_encoded _ _ _ Hmname Hname).
  cbn [bind NameCodec.length NameCodec.name].
  rewrite (svcbParams_encoded (svcParams data));
    [ | exact Hvparams
      | replace (offset + (0 + 2 + List.length (encodeName (target data))))
          with (offset + 2 + List.length (encodeName (target data))) by lia;
        exact Hmparams
      | unfold encodeHttps; rewrite !length_app; cbn [uint16 List.length]; lia
      | exact Hparams
      | pose proof (length_encodeParams (svcParams data));
        unfold encodeHttps; rewrite !length_app; lia ].
  cbn [bind params paramsHasEch echBase64 app]. rewrite orb_false_r.
  unfold carriesEch, describe, echValue. f_equal. f_equal.
  rewrite (existsb_find_rev _ isEchParam).
  assert (Htarget :
    match nameText (target data) with
    | EmptyString => "."
    | String c rest => String c rest
    end
    = match target data with
      | [] => "."
      | _ :: _ => nameText (target data)
      end).
  { destruct (target data) as [|label name]; [reflexivity|].
    destruct (nameText_nonempty _ _ Hname) as (c & rest & ->). reflexivity. }
  rewrite Htarget.
  destruct (find isEchParam (rev (svcParams data))) as [p|];
    cbn [Js.present option_map].
  - rewrite base64_truthy.
    destruct (svcParams data) as [|q qs]; cbn [map];
      destruct (value p) as [|b bytes];
      rewrite ?append_assoc, ?append_nil_r; cbn [String.append];
      reflexivity.
  - destruct (svcParams data) as [|q qs]; cbn [map];
      rewrite ?append_assoc, ?append_nil_r; cbn [String.append];
      reflexivity.
Qed.

Ltac split_occurs H :=
  repeat match type of H with
         | occursAt _ _ (_ ++ _) =>
           let Hhead := fresh H in
           apply occursAt_app in H; destruct H as [Hhead H]
         end.

Lemma skipQuestions_encoded :
  forall (qs : list Question) (message : list byte) (offset : nat),
    occursAt message offset (flat_map encodeQuestion qs) ->
    questionsAt message offset qs ->
    skipQuestions (List.length qs) message offset
    = Normal (offset + List.length (flat_map encodeQuestion qs)).
Proof.
  induction qs as [|q qs IH]; intros message offset Hat Hvalid;
    cbn [List.length skipQuestions flat_map].
  - now rewrite Nat.add_0_r.
  - destruct Hvalid as [(steps & name & Hq) Hqs].
    apply occursAt_app in Hat. destruct Hat as [_ Hat].
    rewrite (readDnsName_at _ _ _ _ _ Hq).
    cbn [bind NameCodec.length].
    unfold encodeQuestion in Hat at 1, Hqs at 1.
    rewrite !length_app in Hat, Hqs. cbn [uint16 List.length] in Hat, Hqs.
    replace (offset + List.length (qname q) + 4)
      with (offset + (List.length (qname q) + (2 + 2))) by lia.
    rewrite (IH _ _ Hat Hqs).
    f_equal. rewrite !length_app. unfold encodeQuestion at 2.
    rewrite !length_app. cbn [uint16 List.length]. lia.
Qed.

Lemma carriesEch_described : forall data : HttpsData,
  carriesEch data = true -> described data = true.
Proof.
  intros data H. unfold carriesEch in H. apply existsb_exists in H.
  destruct H as (p & Hin & _). apply in_split in Hin.
  destruct Hin as (front & back & Hparams).
  unfold described, encodeHttps. apply Nat.leb_le.
  rewrite Hparams, flat_map_app. cbn [flat_map].
  rewrite !length_app, length_encodeParam. lia.
Qed.

Lemma describe_truthy : forall data : HttpsData,
  Js.truthy (Some (describe data)) = true.
Proof. reflexivity. Qed.

(** The answer loop on answers that are laid out one after the other. *)
Lemma scanAnswers_encoded :
  forall (rrs : list ResourceRecord) (message : list byte) (offset : nat)
         (fallbackRecord : option string),
    occursAt message offset (flat_map encodeRecord rrs) ->
    recordsAt message offset rrs ->
    fallbackRecord = None \/ Js.truthy fallbackRecord = true ->
    scanAnswers (List.length rrs) message offset fallbackRecord
    = Normal
        match find carriesEch (httpsRecords rrs) with
        | Some data =>
          {| found := true; record := Some (describe data);
             error := None |}
        | None =>
          {| found := false;
             record :=
               if Js.truthy fallbackRecord then fallbackRecord
               else option_map describe (find described (httpsRecords rrs));
             error := None |}
        end.
Proof.
  induction rrs as [|rr rrs IH]; intros message offset fb Hat Hvalid Hfb;
    cbn [List.length scanAnswers flat_map httpsRecords].
  - cbn. destruct Hfb as [-> | ->]; reflexivity.
  - destruct Hvalid as ((steps & name & Howner) & Hrdata & Hrrs).
    apply occursAt_app in Hat. destruct Hat as [Hrr Hrest].
    pose proof (occursAt_length _ _ _ Hrr) as Hlen.
    unfold encodeRecord in Hrr, Hlen, Hrest, Hrrs.
    rewrite !length_app in Hlen, Hrest, Hrrs.
    cbn [uint16 uint32 List.length] in Hlen, Hrest, Hrrs.
    split_occurs Hrr. cbn [uint16 uint32 List.length] in *.
    rewrite (readDnsName_at _ _ _ _ _ Howner).
    cbn [bind NameCodec.length].
    replace (List.length message
             <? offset + List.length (owner rr) + 10)
      with false by (symmetry; apply Nat.ltb_ge; lia).
    assert (Htype : (rdataType (rdata rr) < 65536)%N).
    { destruct (rdata rr); cbn in *; [lia | tauto]. }
    assert (Hsize :
              (N.of_nat (List.length (rdataBytes (rdata rr))) < 65536)%N).
    { destruct (rdata rr); cbn in Hrdata |- *;
        [unfold validHttps in Hrdata|]; tauto. }
    rewrite (getUint16_uint16 _ _ _ Hrr1 Htype). cbn [bind].
    rewrite (getUint16_uint16 _ _ _ Hrr4 Hsize). cbn [bind].
    rewrite Nat2N.id.
    replace (List.length message
             <? offset + List.length (owner rr) + 2 + 2 + 4 + 2
                + List.length (rdataBytes (rdata rr)))
      with false by (symmetry; apply Nat.ltb_ge; lia).
    assert (Hnext :
      occursAt message
        (offset + List.length (owner rr) + 2 + 2 + 4 + 2
         + List.length (rdataBytes (rdata rr)))
        (flat_map encodeRecord rrs)
      /\ recordsAt message
           (offset + List.length (owner rr) + 2 + 2 + 4 + 2
            + List.length (rdataBytes (rdata rr)))
           rrs).
    { match goal with
      | |- occursAt _ ?a _ /\ _ =>
        match type of Hrest with
        | occursAt _ ?b _ => replace a with b by lia
        end
      end. split; assumption. }
    destruct Hnext as [Hnext Hnextvalid].
    unfold httpsRecords in *.
    destruct (rdata rr) as [data|type bytes];
      cbn [rdataType rdataBytes flat_map app] in *.
    + cbn [N.eqb Pos.eqb HTTPS_RECORD_TYPE].
      rewrite (parseHttpsSvcbRecord_encoded _ _ _ Hrr Hrdata). cbn [bind find].
      destruct (carriesEch data) eqn:Hech.
      * rewrite (carriesEch_described _ Hech). reflexivity.
      * assert (Hno : hasEch (if described data
                              then {| hasEch := false;
                                      description := describe data |}
                              else {| hasEch := false;
                                      description := EmptyString |})
                      = false) by (destruct (described data); reflexivity).
        rewrite Hno.
        rewrite (IH _ _ _ Hnext Hnextvalid); clear IH.
        -- destruct (find carriesEch _); [reflexivity|].
           f_equal. f_equal.
           destruct Hfb as [-> | Hfb];
             [|rewrite Hfb; cbn [negb andb]; now rewrite Hfb].
           cbn [Js.truthy negb andb].
           destruct (described data); reflexivity.
        -- destruct Hfb as [-> | Hfb];
             [|rewrite Hfb; cbn [negb andb]; auto].
           cbn [Js.truthy negb andb].
           destruct (described data); cbn; auto.
    + destruct Hrdata as (_ & Hnot & _).
      replace (type =? HTTPS_RECORD_TYPE)%N with false
        by (symmetry; apply N.eqb_neq; exact Hnot).
      apply (IH _ _ _ Hnext Hnextvalid Hfb).
Qed.

(** On a laid-out response [findHttpsRecordInDnsMessage] returns the
    first HTTPS answer that carries ECH, or else the first HTTPS answer
    that has a description. *)
Lemma findHttpsRecord_encoded : forall m : Message,
  validMessage m ->
  findHttpsRecordInDnsMessage (encodeMessage m) = Normal (expectedLookup m).
Proof.
  intros m (Hqd & Han & Hqs & Hrrs).
  pose proof (occursAt_whole (encodeMessage m)) as Hat.
  unfold findHttpsRecordInDnsMessage.
  assert (Hlen : 12 <= List.length (encodeMessage m)).
  { unfold encodeMessage. rewrite !length_app. cbn [uint16 List.length]. lia. }
  replace (List.length (encodeMessage m) <? 12) with false
    by (symmetry; apply Nat.ltb_ge; lia).
  change (occursAt (encodeMessage m) 0
            (uint16 (id m) ++ uint16 (flags m)
             ++ uint16 (N.of_nat (List.length (questions m)))
             ++ uint16 (N.of_nat (List.length (answers m)))
             ++ uint16 (nscount m) ++ uint16 (arcount m)
             ++ flat_map encodeQuestion (questions m)
             ++ flat_map encodeRecord (answers m)
             ++ trailing m)) in Hat.
  split_occurs Hat.
  assert (Hqdcount : occursAt (encodeMessage m) 4
                       (uint16 (N.of_nat (List.length (questions m)))))
    by exact Hat2.
  assert (Hancount : occursAt (encodeMessage m) 6
                       (uint16 (N.of_nat (List.length (answers m)))))
    by exact Hat3.
  assert (Hquestions : occursAt (encodeMessage m) 12
                         (flat_map encodeQuestion (questions m)))
    by exact Hat6.
  assert (Hanswers :
            occursAt (encodeMessage m)
              (12 + List.length (flat_map encodeQuestion (questions m)))
              (flat_map encodeRecord (answers m)))
    by exact Hat7.
  rewrite (getUint16_uint16 _ _ _ Hqdcount Hqd). cbn [bind].
  rewrite (getUint16_uint16 _ _ _ Hancount Han). cbn [bind].
  rewrite !Nat2N.id.
  rewrite (skipQuestions_encoded _ _ _ Hquestions Hqs). cbn [bind].
  rewrite (scanAnswers_encoded _ _ _ None Hanswers Hrrs (or_introl eq_refl)).
  unfold expectedLookup, httpsAnswers. cbn [try_catch Js.truthy].
  destruct (find carriesEch _); reflexivity.
Qed.

Lemma describe_echconfig : forall (data : HttpsData) (bytes : list byte),
  echValue data = Some bytes -> bytes <> [] ->
  exists front,
    describe data
    = (front ++ " echconfig(base64)=" ++ Text.bytesToBase64 bytes)%string.
Proof.
  intros data bytes Hvalue Hbytes. unfold describe. rewrite Hvalue.
  destruct bytes as [|b bytes]; [congruence|].
  eexists. rewrite <- !append_assoc. reflexivity.
Qed.

(** C6, as the code has it.  On the rdata of an HTTPS record that is laid
    out as priority, target name and (key, length, value) triples up to
    its end, [parseHttpsSvcbRecord] consumes all triples and sets
    [hasEch] exactly when some key is 5; when the rdata has at least four
    bytes the description is the one of the record, which ends in the
    base64 text of the (last) ECH value when that value is not empty.
    The rdata of the example decodes to [hasEch = true] with the base64
    text of [0xDEAD].  On a whole response, whose question and owner
    names may be compressed, the lookup returns the first HTTPS answer
    with ECH, or else, as fallback, the first HTTPS answer that has a
    description, that is, whose rdata has at least four bytes. *)
Theorem https_record_decoding :
  (forall (data : HttpsData) (message : list byte) (offset : nat),
     occursAt message offset (encodeHttps data) ->
     validHttps data ->
     exists svcb,
       parseHttpsSvcbRecord message offset (List.length (encodeHttps data))
       = Normal svcb /\
       hasEch svcb = carriesEch data /\
       (described data = true -> description svcb = describe data) /\
       (forall bytes,
          echValue data = Some bytes -> bytes <> [] ->
          exists front,
            description svcb
            = (front ++ " echconfig(base64)=" ++ Text.bytesToBase64 bytes)
              %string))
  /\
  (parseHttpsSvcbRecord (encodeHttps exampleEchData) 0
     (List.length (encodeHttps exampleEchData))
   = Normal {| hasEch := true;
               description :=
                 ("priority=1 target=. params=[key5(2B)] echconfig(base64)="
                  ++ Text.bytesToBase64 [xde; xad])%string |})
  /\
  (forall m : Message,
     validMessage m ->
     findHttpsRecordInDnsMessage (encodeMessage m)
     = Normal (expectedLookup m)).
Proof.
  split; [|split; [reflexivity | exact findHttpsRecord_encoded]].
  intros data message offset Hat Hvalid.
  rewrite (parseHttpsSvcbRecord_encoded _ _ _ Hat Hvalid).
  eexists. split; [reflexivity|].
  destruct (described data) eqn:Hd; cbn [hasEch description].
  - split; [reflexivity|]. split; [reflexivity|].
    apply describe_echconfig.
  - assert (Hech : carriesEch data = false).
    { destruct (carriesEch data) eqn:E; [|reflexivity].
      apply carriesEch_described in E. congruence. }
    split; [now rewrite Hech|]. split; [discriminate|].
    intros bytes Hvalue _. exfalso.
    unfold carriesEch in Hech. rewrite existsb_find_rev in Hech.
    unfold echValue in Hvalue.
    destruct (find isEchParam (rev (svcParams data))); discriminate.
Qed.

(** In both examples the name of the question stands at offset 12, and
    the answers point to it. *)
Lemma exampleName_at : forall message : list byte,
  firstn 6 (skipn 12 message) = exampleName ->
  nameFieldAt message 12 (List.length exampleName).
Proof.
  intros message Hname. exists 3, [[x61; x62]; [x63]].
  refine (NameAt_plain [[x61; x62]; [x63]] message 12 _ _).
  - apply occursAt_skipn; [|exact Hname].
    apply Nat.lt_le_incl, nth_error_Some.
    rewrite <- (Nat.add_0_r 12), <- nth_error_skipn.
    rewrite <- (firstn_skipn 6 (skipn 12 message)), Hname. discriminate.
  - repeat constructor.
Qed.

Lemma examplePointer_at : forall (message : list byte) (offset : nat),
  firstn 6 (skipn 12 message) = exampleName ->
  firstn 2 (skipn offset message) = examplePointer ->
  nameFieldAt message offset (List.length examplePointer).
Proof.
  intros message offset Hname Hpointer.
  destruct (exampleName_at message Hname) as (steps & name & Hat).
  exists (S steps), name.
  eapply NameAt_pointer with (target := 12); [|exact Hat].
  assert (Hnth : forall i,
            nth_error (skipn offset message) i
            = nth_error (examplePointer
                         ++ skipn 2 (skipn offset message)) i).
  { intros i. now rewrite <- Hpointer, firstn_skipn. }
  exists xc0, x0c. rewrite <- (Nat.add_0_r offset) at 1.
  rewrite <- !nth_error_skipn, !Hnth. repeat split.
Qed.

Lemma validMessage_echMessage : validMessage echMessage.
Proof.
  assert (Hname : firstn 6 (skipn 12 (encodeMessage echMessage))
                  = exampleName) by reflexivity.
  unfold validMessage, validHttps, validName, validParam.
  repeat split;
    try (apply exampleName_at, Hname);
    try (apply examplePointer_at; [exact Hname | reflexivity]);
    repeat constructor; cbn; try lia; try discriminate.
Qed.

Lemma https_record_decoding_witness :
  findHttpsRecordInDnsMessage (encodeMessage echMessage)
  = Normal {| found := true;
              record :=
                Some "priority=1 target=. params=[key5(2B)] echconfig(base64)=3q0=";
              error := None |}.
Proof.
  destruct https_record_decoding as (_ & _ & Hmessage).
  exact (Hmessage echMessage validMessage_echMessage).
Defined.

(** The claim as it is worded fails on [bareFirstMessage]: its first
    HTTPS answer has three bytes of rdata and is passed over, and the
    fallback is the second HTTPS answer. *)
Lemma https_fallback_counterexample :
  validMessage bareFirstMessage /\
  findHttpsRecordInDnsMessage (encodeMessage bareFirstMessage)
  <> Normal (claimedLookup bareFirstMessage).
Proof.
  assert (Hname : firstn 6 (skipn 12 (encodeMessage bareFirstMessage))
                  = exampleName) by reflexivity.
  split.
  - unfold validMessage, validHttps, validName, validParam.
    repeat split;
      try (apply exampleName_at, Hname);
      try (apply examplePointer_at; [exact Hname | reflexivity]);
      repeat constructor; cbn; try lia; try discriminate.
  - vm_compute. discriminate.
Qed.

End WireFacts.

(** ** The record-type mapping *)

Module RecordTypeFacts.
Import RecordType.

Lemma isDigit_cases : forall c : ascii, isDigit c = true -> In c DIGITS.
Proof.
  intros c.
  destruct c as [[] [] [] [] [] [] [] []]; intros H;
    try discriminate H; cbn; tauto.
Qed.

Ltac digit_cases c H :=
  apply isDigit_cases in H;
  repeat (destruct H as [H | H]; [subst c|]); [..|destruct H].

Lemma all_list : forall (p : ascii -> bool) (s : string),
  all p s = forallb p (list_ascii_of_string s).
Proof. induction s as [|c s IH]; cbn; congruence. Qed.

Lemma reverse_involutive : forall s : string, reverse (reverse s) = s.
Proof.
  intros s. unfold reverse.
  now rewrite list_ascii_of_string_of_list_ascii, rev_involutive,
    string_of_list_ascii_of_string.
Qed.

Lemma all_reverse : forall (p : ascii -> bool) (s : string),
  all p (reverse s) = all p s.
Proof.
  intros p s. unfold reverse.
  rewrite !all_list, list_ascii_of_string_of_list_ascii.
  apply eq_true_iff_eq. rewrite !forallb_forall.
  split; intros H x Hx; apply H.
  - now apply (proj1 (in_rev _ _)).
  - now apply (proj2 (in_rev _ _)).
Qed.

Lemma length_reverse : forall s : string,
  String.length (reverse s) = String.length s.
Proof.
  assert (Hlen : forall l : list ascii,
             String.length (string_of_list_ascii l) = List.length l).
  { induction l as [|c l IH]; cbn; congruence. }
  intros s. unfold reverse. rewrite Hlen, length_rev, <- Hlen.
  now rewrite string_of_list_ascii_of_string.
Qed.

(** No white space stands before a digit, nor behind one. *)
Lemma dropSpaces_digits : forall (s : string) (fuel : nat),
  all isDigit s = true ->
  dropSpaces WHITE_SPACE fuel s = s /\
  dropSpaces (map reverse WHITE_SPACE) fuel s = s.
Proof.
  intros [|c rest] [|fuel] H; try (split; reflexivity).
  cbn [all] in H. apply andb_true_iff in H. destruct H as [Hc _].
  digit_cases c Hc; split; reflexivity.
Qed.

Lemma trim_digits : forall s : string, all isDigit s = true -> trim s = s.
Proof.
  intros s H. unfold trim.
  rewrite (proj1 (dropSpaces_digits s _ H)).
  rewrite (proj2 (dropSpaces_digits (reverse s) _
                    (eq_trans (all_reverse _ _) H))).
  apply reverse_involutive.
Qed.

Lemma span_all : forall (p : ascii -> bool) (s : string),
  all p s = true -> span p s = (s, EmptyString).
Proof.
  induction s as [|c s IH]; cbn; [reflexivity|].
  intros H. apply andb_true_iff in H. destruct H as [-> H].
  now rewrite (IH H).
Qed.

Lemma toUpperCase_digits : forall s : string,
  run isDigit s = true ->
  String.eqb (toUpperCase s) "A" = false /\
  String.eqb (toUpperCase s) "AAAA" = false /\
  String.eqb (toUpperCase s) "HTTPS" = false.
Proof.
  intros [|c rest] H; [discriminate|].
  cbn [run all] in H. apply andb_true_iff in H. destruct H as [Hc _].
  digit_cases c Hc; destruct rest; repeat split; reflexivity.
Qed.

Lemma parseNonDecimal_digits : forall s : string,
  all isDigit s = true -> parseNonDecimal s = None.
Proof.
  intros [|c [|letter digits]] H; try reflexivity.
  - cbn [all] in H. apply andb_true_iff in H. destruct H as [Hc _].
    digit_cases c Hc; reflexivity.
  - cbn [all] in H. apply andb_true_iff in H. destruct H as [Hc H].
    apply andb_true_iff in H. destruct H as [Hletter _].
    digit_cases c Hc; try reflexivity.
    digit_cases letter Hletter; reflexivity.
Qed.

Lemma parseDecimal_digits : forall s : string,
  run isDigit s = true ->
  parseDecimal s = toNumber false (numeral 10 s 0) 0.
Proof.
  intros [|c rest] H; [discriminate|]. cbn [run] in H.
  assert (Hsigned : signed (String c rest) = (false, String c rest)
                    /\ String.eqb (String c rest) "Infinity" = false).
  { cbn [all] in H. apply andb_true_iff in H. destruct H as [Hc _].
    digit_cases c Hc; split; reflexivity. }
  destruct Hsigned as [Hsigned Hinfinity].
  unfold parseDecimal. rewrite Hsigned, Hinfinity.
  unfold parseUnsigned. rewrite (span_all _ _ H). reflexivity.
Qed.

Section Rounding.

Local Open Scope Z_scope.

Lemma roundHalfEven_exact : forall k den : Z,
  0 < den -> roundHalfEven (k * den) den = k.
Proof.
  intros k den Hden. unfold roundHalfEven.
  rewrite Z.div_mul, Z.mod_mul by lia.
  replace (2 * 0 <? den) with true; [reflexivity|].
  symmetry. apply Z.ltb_lt. lia.
Qed.

Lemma roundHalfEven_one : forall k : Z, roundHalfEven k 1 = k.
Proof.
  intros k. rewrite <- (Z.mul_1_r k) at 1. apply roundHalfEven_exact. lia.
Qed.

Lemma roundHalfEven_floor : forall num den : Z,
  0 < den -> num / den <= roundHalfEven num den.
Proof.
  intros num den Hden. unfold roundHalfEven.
  destruct (2 * (num mod den) <? den); [lia|].
  destruct (den <? 2 * (num mod den)); [lia|].
  destruct (Z.even (num / den)); lia.
Qed.

Lemma binade_integer : forall n : Z, 0 < n -> binade n 1 = Z.log2 n.
Proof.
  intros n Hn. unfold binade. change (Z.log2 1) with 0.
  rewrite Z.sub_0_r.
  pose proof (Z.log2_nonneg n) as Hlog.
  replace (0 <=? Z.log2 n) with true by (symmetry; apply Z.leb_le; lia).
  replace (1 * 2 ^ Z.log2 n <=? n) with true; [reflexivity|].
  symmetry. apply Z.leb_le. pose proof (Z.log2_spec n Hn). lia.
Qed.

Lemma Qred_integer : forall n : Z, Qred (inject_Z n) = inject_Z n.
Proof.
  intros n. unfold Qred, inject_Z.
  pose proof (Z.ggcd_gcd n 1) as Hgcd.
  pose proof (Z.ggcd_correct_divisors n 1) as Hdiv.
  destruct (Z.ggcd n 1) as [g [a b]]. cbn [fst snd] in *.
  rewrite Z.gcd_1_r in Hgcd. subst g. destruct Hdiv as [Ha Hb].
  rewrite Z.mul_1_l in Ha, Hb. subst a b. reflexivity.
Qed.

Lemma Qred_scaled : forall n p : Z,
  0 < p -> Qred (n * p # Z.to_pos p) = inject_Z n.
Proof.
  intros n p Hp. rewrite <- (Qred_integer n). apply Qred_complete.
  unfold Qeq, inject_Z. cbn [Qnum Qden]. rewrite Z2Pos.id by lia. lia.
Qed.

(** An integer of at most 53 bits is a double. *)
Lemma nearestDouble_integer : forall n : Z,
  0 < n <= 2 ^ 53 -> nearestDouble (inject_Z n) = inject_Z n.
Proof.
  intros n [Hpos Hmax]. unfold nearestDouble, inject_Z.
  cbn [Qnum Qden]. rewrite (binade_integer n Hpos).
  pose proof (Z.log2_nonneg n) as Hlog.
  assert (Hlog53 : Z.log2 n <= 53).
  { change 53 with (Z.log2 (2 ^ 53)). now apply Z.log2_le_mono. }
  rewrite Z.max_l by lia.
  destruct (0 <=? Z.log2 n - 52) eqn:Hexponent.
  - apply Z.leb_le in Hexponent. rewrite Z.mul_1_l.
    assert (Hcases : Z.log2 n = 52 \/ Z.log2 n = 53) by lia.
    destruct Hcases as [-> | Hlast].
    + change (2 ^ (52 - 52)) with 1.
      rewrite roundHalfEven_one. now rewrite Z.mul_1_r.
    + pose proof (Z.log2_spec n Hpos) as Hspec. rewrite Hlast in *.
      assert (Hn : n = 2 ^ 53) by lia. subst n.
      change (2 ^ (53 - 52)) with 2. change (2 ^ 53) with (2 ^ 52 * 2).
      now rewrite roundHalfEven_exact by lia.
  - apply Z.leb_gt in Hexponent.
    rewrite roundHalfEven_one.
    apply Qred_scaled. apply Z.pow_pos_nonneg; lia.
Qed.

(** The double nearest to a positive integer is positive. *)
Lemma nearestDouble_integer_positive : forall n : Z,
  0 < n -> (0 < nearestDouble (inject_Z n))%Q.
Proof.
  intros n Hpos. unfold nearestDouble, inject_Z.
  cbn [Qnum Qden]. rewrite (binade_integer n Hpos).
  pose proof (Z.log2_nonneg n) as Hlog.
  pose proof (Z.log2_spec n Hpos) as Hspec.
  rewrite Z.max_l by lia.
  destruct (0 <=? Z.log2 n - 52) eqn:Hexponent.
  - apply Z.leb_le in Hexponent. rewrite Z.mul_1_l.
    assert (Hunit : 0 < 2 ^ (Z.log2 n - 52))
      by (apply Z.pow_pos_nonneg; lia).
    assert (Hle : 2 ^ (Z.log2 n - 52) <= n).
    { transitivity (2 ^ Z.log2 n); [|lia].
      apply Z.pow_le_mono_r; lia. }
    pose proof (roundHalfEven_floor n _ Hunit) as Hfloor.
    assert (Hone : 1 <= n / 2 ^ (Z.log2 n - 52)).
    { apply Z.div_le_lower_bound; lia. }
    unfold Qlt. cbn [Qnum Qden]. nia.
  - apply Z.leb_gt in Hexponent.
    rewrite roundHalfEven_one.
    rewrite Qred_scaled by (apply Z.pow_pos_nonneg; lia).
    unfold Qlt, inject_Z. cbn [Qnum Qden]. lia.
Qed.

End Rounding.

Lemma above_underflow : forall n : N,
  (0 < n)%N -> Qle_bool (inject_Z (Z.of_N n)) UNDERFLOW = false.
Proof.
  intros n Hpos. apply not_true_iff_false. rewrite Qle_bool_iff.
  unfold Qle, UNDERFLOW, inject_Z. cbn [Qnum Qden].
  assert (Hbig : (1 < Z.pos (2 ^ 1075))%Z) by reflexivity.
  nia.
Qed.

Lemma below_overflow : forall n : N,
  (Z.of_N n < OVERFLOW)%Z ->
  Qle_bool (inject_Z OVERFLOW) (inject_Z (Z.of_N n)) = false.
Proof.
  intros n Hmax. apply not_true_iff_false.
  rewrite Qle_bool_iff, <- Zle_Qle. lia.
Qed.

(** [Number] of an integer below the overflow is the nearest double... *)
Lemma toNumber_integer_rounded : forall n : N,
  (0 < n)%N -> (Z.of_N n < OVERFLOW)%Z ->
  toNumber false n 0 = Finite (nearestDouble (inject_Z (Z.of_N n))).
Proof.
  intros n Hpos Hmax. unfold toNumber, scaled.
  now rewrite (below_overflow n Hmax), (above_underflow n Hpos).
Qed.

(** ... which is the integer itself up to 2^53 ... *)
Lemma toNumber_integer : forall n : N,
  (0 < n)%N -> (Z.of_N n <= 2 ^ 53)%Z ->
  toNumber false n 0 = Finite (inject_Z (Z.of_N n)).
Proof.
  intros n Hpos Hmax.
  assert (Hbelow : (2 ^ 53 < OVERFLOW)%Z) by reflexivity.
  rewrite toNumber_integer_rounded by lia.
  now rewrite nearestDouble_integer by lia.
Qed.

(** ... and from the overflow on it is an infinity. *)
Lemma toNumber_integer_overflow : forall n : N,
  (OVERFLOW <= Z.of_N n)%Z -> toNumber false n 0 = Infinity false.
Proof.
  intros n Hmin. unfold toNumber, scaled.
  replace (Qle_bool (inject_Z OVERFLOW) (inject_Z (Z.of_N n))) with true;
    [reflexivity|].
  symmetry. rewrite Qle_bool_iff, <- Zle_Qle. exact Hmin.
Qed.

Lemma positive_number : forall q : Q,
  (0 < q)%Q -> isFinite (Finite q) && greaterThanZero (Finite q) = true.
Proof.
  intros q Hq. cbn [isFinite greaterThanZero andb].
  apply negb_true_iff, not_true_iff_false. rewrite Qle_bool_iff.
  now apply Qlt_not_le.
Qed.

Lemma Number_digits : forall s : string,
  run isDigit s = true -> Number s = toNumber false (numeral 10 s 0) 0.
Proof.
  intros s H.
  assert (Hall : all isDigit s = true) by (destruct s; [discriminate | exact H]).
  unfold Number. rewrite (trim_digits _ Hall).
  destruct s as [|c rest]; [discriminate|].
  rewrite (parseNonDecimal_digits _ Hall).
  apply parseDecimal_digits. exact H.
Qed.

Lemma lower_letter : forall c l : ascii,
  In l ["a"; "h"; "t"; "p"; "s"]%char ->
  (if (65 <=? nat_of_ascii c) && (nat_of_ascii c <=? 90)
   then ascii_of_nat (nat_of_ascii c + 32) else c) = l ->
  c = l \/ c = ascii_of_nat (nat_of_ascii l - 32).
Proof.
  intros c l Hl.
  destruct Hl as [<- | [<- | [<- | [<- | [<- | []]]]]];
    destruct c as [[] [] [] [] [] [] [] []]; vm_compute; intros H;
    first [discriminate H | now left | now right].
Qed.

Ltac letter H :=
  match type of H with
  | Js.toLowerCase ?s = String _ _ =>
    let c := fresh "c" in
    let Hc := fresh "Hc" in
    destruct s as [|c s]; [discriminate H|];
    cbn [Js.toLowerCase] in H; cbv zeta in H; injection H as Hc H;
    apply lower_letter in Hc; [|cbn; tauto];
    destruct Hc as [-> | ->]
  end.

(** The three names in whatever case of their letters. *)
Lemma caseless_names : forall s : string,
  (Js.toLowerCase s = "a" -> toUpperCase s = "A") /\
  (Js.toLowerCase s = "aaaa" -> toUpperCase s = "AAAA") /\
  (Js.toLowerCase s = "https" -> toUpperCase s = "HTTPS").
Proof.
  intros s. split; [|split]; intros H; repeat letter H;
    (destruct s; [reflexivity | discriminate H]).
Qed.
(** A run of digits is none of the three names, and [Number] reads it
    as the integer it denotes. *)
Lemma recordTypeToNumber_digits : forall recordType : string,
  run isDigit recordType = true ->
  recordTypeToNumber recordType
  = let numeric := toNumber false (numeral 10 recordType 0) 0 in
    if isFinite numeric && greaterThanZero numeric then Normal numeric
    else Thrown (ERR_UNSUPPORTED ++ recordType)%string.
Proof.
  intros recordType Hrun. unfold recordTypeToNumber.
  destruct (toUpperCase_digits _ Hrun) as (-> & -> & ->).
  now rewrite (Number_digits _ Hrun).
Qed.

(** C9, as the code has it.  The tokens that read "A", "AAAA" or "HTTPS"
    in upper case, among them the three names in whatever case of their
    letters, map to 1, 28 and 65.  Any other token is passed
    through as the number that [Number] makes of it exactly when that
    number is finite and greater than zero, and otherwise the error for
    an unsupported record type is thrown.  For a token of decimal digits
    this means: one that denotes a positive integer of at most 2^53 is
    passed through as that integer; a greater one below the magnitude
    at which doubles overflow is passed through as the double nearest
    to it, which is positive; one that denotes zero, or an integer from
    that magnitude on, is refused. *)
Theorem recordTypeToNumber_mapping : forall recordType : string,
  (toUpperCase recordType = "A" ->
   recordTypeToNumber recordType = Normal (Finite 1)) /\
  (toUpperCase recordType = "AAAA" ->
   recordTypeToNumber recordType = Normal (Finite 28)) /\
  (toUpperCase recordType = "HTTPS" ->
   recordTypeToNumber recordType = Normal (Finite 65)) /\
  (toUpperCase recordType <> "A" ->
   toUpperCase recordType <> "AAAA" ->
   toUpperCase recordType <> "HTTPS" ->
   (isFinite (Number recordType) && greaterThanZero (Number recordType)
    = true ->
    recordTypeToNumber recordType = Normal (Number recordType)) /\
   (isFinite (Number recordType) && greaterThanZero (Number recordType)
    = false ->
    recordTypeToNumber recordType
    = Thrown (ERR_UNSUPPORTED ++ recordType)%string)) /\
  (run isDigit recordType = true ->
   let n := Z.of_N (numeral 10 recordType 0) in
   ((0 < n <= 2 ^ 53)%Z ->
    recordTypeToNumber recordType = Normal (Finite (inject_Z n))) /\
   ((0 < n < OVERFLOW)%Z ->
    recordTypeToNumber recordType
    = Normal (Finite (nearestDouble (inject_Z n))) /\
    (0 < nearestDouble (inject_Z n))%Q) /\
   ((n = 0 \/ OVERFLOW <= n)%Z ->
    recordTypeToNumber recordType
    = Thrown (ERR_UNSUPPORTED ++ recordType)%string)) /\
  ((Js.toLowerCase recordType = "a" ->
    recordTypeToNumber recordType = Normal (Finite 1)) /\
   (Js.toLowerCase recordType = "aaaa" ->
    recordTypeToNumber recordType = Normal (Finite 28)) /\
   (Js.toLowerCase recordType = "https" ->
    recordTypeToNumber recordType = Normal (Finite 65))).
Proof.
  intros recordType.
  split; [|split; [|split; [|split; [|split]]]].
  - unfold recordTypeToNumber. now intros ->.
  - unfold recordTypeToNumber. now intros ->.
  - unfold recordTypeToNumber. now intros ->.
  - intros HA HAAAA HHTTPS. unfold recordTypeToNumber.
    apply String.eqb_neq in HA, HAAAA, HHTTPS.
    rewrite HA, HAAAA, HHTTPS. split; intros ->; reflexivity.
  - intros Hrun n. rewrite (recordTypeToNumber_digits _ Hrun). cbv zeta.
    assert (Hrounded : (0 < n < OVERFLOW)%Z ->
              toNumber false (numeral 10 recordType 0) 0
              = Finite (nearestDouble (inject_Z n))
              /\ (0 < nearestDouble (inject_Z n))%Q).
    { intros [Hpos Hmax]. split.
      - apply toNumber_integer_rounded; unfold n in *; lia.
      - now apply nearestDouble_integer_positive. }
    split; [|split].
    + intros [Hpos Hmax].
      assert (Hbelow : (2 ^ 53 < OVERFLOW)%Z) by reflexivity.
      destruct Hrounded as [-> Hq]; [lia|].
      rewrite (positive_number _ Hq).
      now rewrite nearestDouble_integer by lia.
    + intros Hn. destruct (Hrounded Hn) as [-> Hq].
      now rewrite (positive_number _ Hq).
    + intros [Hzero | Hover].
      * assert (Hn : numeral 10 recordType 0 = 0%N) by (unfold n in *; lia).
        rewrite Hn. reflexivity.
      * now rewrite toNumber_integer_overflow.
  - destruct (caseless_names recordType) as (HA & HAAAA & HHTTPS).
    unfold recordTypeToNumber.
    split; [|split]; intros H;
      [rewrite (HA H) | rewrite (HAAAA H) | rewrite (HHTTPS H)];
      reflexivity.
Qed.

Lemma recordTypeToNumber_mapping_witness :
  recordTypeToNumber "65" = Normal (Finite (inject_Z 65)) /\
  recordTypeToNumber "9007199254740993"
  = Normal (Finite (inject_Z 9007199254740992)) /\
  recordTypeToNumber "00"
  = Thrown (ERR_UNSUPPORTED ++ "00")%string /\
  recordTypeToNumber "Https" = Normal (Finite 65).
Proof.
  split; [|split; [|split]].
  - destruct (proj1 (proj2 (proj2 (proj2 (proj2
                (recordTypeToNumber_mapping "65"))))) eq_refl)
      as (Hexact & _ & _).
    apply Hexact. vm_compute. split; [reflexivity | discriminate].
  - destruct (proj1 (proj2 (proj2 (proj2 (proj2
                (recordTypeToNumber_mapping "9007199254740993")))))
                eq_refl) as (_ & Hrounded & _).
    refine (proj1 (Hrounded _)). vm_compute. split; reflexivity.
  - destruct (proj1 (proj2 (proj2 (proj2 (proj2
                (recordTypeToNumber_mapping "00"))))) eq_refl)
      as (_ & _ & Hrefused).
    apply Hrefused. left. reflexivity.
  - apply (proj2 (proj2 (proj2 (proj2 (proj2 (proj2
             (recordTypeToNumber_mapping "Https"))))))).
    reflexivity.
Defined.

(** The claim as it is worded fails on ["1.5"], which is no positive
    integer string and is passed through all the same, and on ["https"],
    which maps to 65. *)
Lemma recordTypeToNumber_counterexample :
  recordTypeToNumber "1.5" <> claimedRecordTypeToNumber "1.5" /\
  recordTypeToNumber "https" <> claimedRecordTypeToNumber "https".
Proof. split; vm_compute; discriminate. Qed.

End RecordTypeFacts.

(** ** The wire decoders come to an end *)

Module WireTermination.
Import NameCodec Wire.

Lemma readDnsName_finishes : forall message offset,
  finishes (readDnsName message offset).
Proof.
  intros message offset. apply NameCodecFacts.loop_enough_fuel; lia.
Qed.

Lemma getUint16_finishes : forall view byteOffset,
  finishes (getUint16 view byteOffset).
Proof.
  intros view byteOffset. unfold finishes, getUint16.
  destruct (nth_error view byteOffset);
    [destruct (nth_error view (byteOffset + 1))|]; discriminate.
Qed.

Ltac step_finishes :=
  match goal with
  | |- finishes (bind (readDnsName ?m ?o) _) =>
    let H := fresh "H" in
    pose proof (readDnsName_finishes m o) as H;
    destruct (readDnsName m o); [cbn [bind] | discriminate | now elim H]
  | |- finishes (bind (getUint16 ?v ?o) _) =>
    let H := fresh "H" in
    pose proof (getUint16_finishes v o) as H;
    destruct (getUint16 v o); [cbn [bind] | discriminate | now elim H]
  | |- finishes (if ?c then _ else _) => destruct c eqn:?
  | |- finishes (Normal _) => discriminate
  | |- finishes (Thrown _) => discriminate
  end.

Lemma skipQuestions_finishes : forall count message offset,
  finishes (skipQuestions count message offset).
Proof.
  induction count as [|count IH]; intros message offset;
    cbn [skipQuestions]; repeat step_finishes. apply IH.
Qed.

Lemma collectAddresses_finishes : forall count message offset seen,
  finishes (collectAddresses count message offset seen).
Proof.
  induction count as [|count IH]; intros message offset seen;
    cbn [collectAddresses]; repeat step_finishes; apply IH.
Qed.

Lemma extractIpsFromDnsMessage_finishes : forall buffer,
  finishes (extractIpsFromDnsMessage buffer).
Proof.
  intros buffer. unfold extractIpsFromDnsMessage. repeat step_finishes.
  match goal with
  | |- finishes (bind (skipQuestions ?n ?m ?o) _) =>
    pose proof (skipQuestions_finishes n m o) as Hskip;
    destruct (skipQuestions n m o);
      [cbn [bind] | discriminate | now elim Hskip]
  end.
  apply collectAddresses_finishes.
Qed.

Lemma svcbParams_finishes :
  forall fuel message view offset rdlength cursor state,
    1 <= fuel -> rdlength < fuel + cursor ->
    finishes (svcbParams_loop fuel message view offset rdlength cursor state).
Proof.
  induction fuel as [|fuel IH];
    intros message view offset rdlength cursor state Hone Hfuel; [lia|].
  cbn [svcbParams_loop].
  destruct (cursor <? rdlength) eqn:Hin; [|discriminate].
  destruct (rdlength <? cursor + 4); [discriminate|].
  repeat step_finishes.
  match goal with
  | H : (rdlength <? _ + N.to_nat _) = false |- _ => apply Nat.ltb_ge in H
  end.
  apply IH; lia.
Qed.

Lemma parseHttpsSvcbRecord_finishes : forall message offset rdlength,
  finishes (parseHttpsSvcbRecord message offset rdlength).
Proof.
  intros message offset rdlength. unfold parseHttpsSvcbRecord.
  repeat step_finishes.
  match goal with
  | |- finishes (bind ?loop _) =>
    let H := fresh "H" in
    assert (H : finishes loop) by (apply svcbParams_finishes; lia);
    destruct loop; [cbn [bind]; discriminate | discriminate | now elim H]
  end.
Qed.

Lemma scanAnswers_finishes : forall count message offset fallbackRecord,
  finishes (scanAnswers count message offset fallbackRecord).
Proof.
  induction count as [|count IH]; intros message offset fallbackRecord;
    cbn [scanAnswers]; repeat step_finishes; try apply IH.
  match goal with
  | |- finishes (bind (parseHttpsSvcbRecord ?m ?o ?r) _) =>
    let H := fresh "H" in
    pose proof (parseHttpsSvcbRecord_finishes m o r) as H;
    destruct (parseHttpsSvcbRecord m o r);
      [cbn [bind] | discriminate | now elim H]
  end.
  repeat step_finishes. apply IH.
Qed.

Lemma findHttpsRecordInDnsMessage_finishes : forall buffer,
  finishes (findHttpsRecordInDnsMessage buffer).
Proof.
  intros buffer. unfold findHttpsRecordInDnsMessage. repeat step_finishes.
  unfold try_catch.
  match goal with
  | |- context [skipQuestions ?n ?m ?o] =>
    pose proof (skipQuestions_finishes n m o) as Hskip;
    destruct (skipQuestions n m o) as [offset| |];
      [cbn [bind] | discriminate | now elim Hskip]
  end.
  match goal with
  | |- context [scanAnswers ?n ?m ?o ?f] =>
    pose proof (scanAnswers_finishes n m o f) as Hscan;
    destruct (scanAnswers n m o f);
      [discriminate | discriminate | now elim Hscan]
  end.
Qed.

End WireTermination.

(** ** The query executor *)

Module ExecutorFacts.
Import Executor.

Lemma await_cases : forall (A : Type) (promise : Settled A),
  (exists a, await promise = Normal a) \/ (exists m, await promise = Thrown m).
Proof. intros A [a|m]; cbn; eauto. Qed.

Lemma recordTypeToNumber_cases : forall recordType : string,
  (exists n, RecordType.recordTypeToNumber recordType = Normal n)
  \/ (exists m, RecordType.recordTypeToNumber recordType = Thrown m).
Proof.
  intros recordType. unfold RecordType.recordTypeToNumber.
  repeat match goal with
         | |- context [if ?c then _ else _] => destruct c
         end; eauto.
Qed.

Lemma normalizeDomain_cases : forall platform (domain : string),
  (exists h, normalizeDomain platform domain = Normal h)
  \/ (exists m, normalizeDomain platform domain = Thrown m).
Proof.
  intros platform domain. unfold normalizeDomain, newUrl.
  destruct (RecordType.trim domain) as [|c rest]; [eauto|].
  left. destruct (Js.includes _ _);
    match goal with
    | |- context [await ?p] => destruct p
    end; cbn; eauto.
Qed.

(** Building a URL issues no request and either gives the URL or
    throws. *)
Lemma buildUrl_cases :
  forall platform mode endpoint name type (w : World),
    exists w',
      requests w' = requests w /\
      ((exists url, buildUrl platform mode endpoint name type w
                    = (Normal url, w'))
       \/ (exists m, buildUrl platform mode endpoint name type w
                     = (Thrown m, w'))).
Proof.
  intros platform [|] endpoint name type w; cbn [buildUrl].
  - exists w. split; [reflexivity|].
    unfold lift, buildDohJsonUrl, newUrl.
    destruct (newURL platform endpoint); cbn; eauto.
  - unfold buildDohWireUrl, mbind, lift, ret.
    destruct (recordTypeToNumber_cases type) as [[n ->] | [m ->]];
      [|exists w; eauto].
    destruct (normalizeDomain_cases platform name) as [[h ->] | [m ->]];
      [|exists w; eauto].
    unfold buildDnsQueryMessage, mbind, lift, ret, generateRequestId.
    destruct (find _ (queryLabels h)); [exists w; eauto|].
    unfold newUrl.
    destruct (newURL platform endpoint); unfold await;
      (eexists; split; [|eauto]; reflexivity).
Qed.

Lemma positive_length : forall (A : Type) (l : list A),
  (0 <? List.length l) = true -> l <> [].
Proof. intros A [|x l] H; [discriminate | discriminate]. Qed.

Lemma decodeDohResponse_cases :
  forall extractIpsFromAnswer mode latency_ms response (w : World),
    (exists r,
       decodeDohResponse extractIpsFromAnswer mode latency_ms response w
       = (Normal r, w) /\ wellFormedAttempt mode r)
    \/ (exists m,
          decodeDohResponse extractIpsFromAnswer mode latency_ms response w
          = (Thrown m, w)).
Proof.
  intros extract mode latency_ms response w. unfold decodeDohResponse.
  destruct (isJsonContentType (contentType response));
    [|destruct (isTextContentType (contentType response))];
    unfold tryCatch, mbind, lift, ret.
  - left. destruct (json response) as [body|m]; cbn [await].
    + eexists. split; [reflexivity|].
      unfold wellFormedAttempt. cbn [Doh.mode Doh.base Doh.ok Doh.ips Doh.error].
      split; [reflexivity|]. split.
      * intros H. apply andb_true_iff in H. apply positive_length, H.
      * intros ->. eauto.
    + eexists. split; [reflexivity|].
      unfold wellFormedAttempt. cbn. repeat split; [discriminate | eauto].
  - destruct (text response) as [body|m]; cbn [await]; [left | eauto].
    eexists. split; [reflexivity|].
    unfold wellFormedAttempt. cbn [Doh.mode Doh.base Doh.ok Doh.ips Doh.error].
    repeat split; [discriminate | eauto].
  - destruct (arrayBuffer response) as [buffer|m]; cbn [await]; [left | eauto].
    pose proof (WireTermination.extractIpsFromDnsMessage_finishes buffer) as H.
    destruct (Wire.extractIpsFromDnsMessage buffer) as [ips|m|];
      [ | | now elim H].
    + eexists. split; [reflexivity|].
      unfold wellFormedAttempt. cbn [Doh.mode Doh.base Doh.ok Doh.ips Doh.error].
      split; [reflexivity|]. split.
      * intros Hok. apply andb_true_iff in Hok. apply positive_length, Hok.
      * intros ->. eauto.
    + eexists. split; [reflexivity|].
      unfold wellFormedAttempt. cbn [Doh.mode Doh.base Doh.ok Doh.ips Doh.error].
      repeat split; [discriminate | eauto].
Qed.

(** An attempt of an A-record query always returns a well-formed result
    and issues at most one request, never throwing. *)
Lemma performDohRequest_result :
  forall platform extractIpsFromAnswer endpoint name recordType timeout mode
         (w : World),
    exists r w',
      performDohRequest platform extractIpsFromAnswer endpoint name recordType
        timeout mode w
      = (Normal r, w') /\
      wellFormedAttempt mode r /\
      atMostOneRequest mode w w'.
Proof.
  intros platform extract endpoint name recordType timeout mode w.
  assert (Hfailure : forall m, wellFormedAttempt mode (dohFailure mode m)).
  { intros m. unfold wellFormedAttempt. cbn.
    repeat split; [discriminate | eauto]. }
  unfold performDohRequest, mbind, attempt.
  destruct (buildUrl_cases platform mode endpoint name recordType w)
    as (w1 & Hsame & [[url ->] | [m ->]]).
  - unfold tryCatch, mbind, doFetch.
    assert (Hone : atMostOneRequest mode w
                     {| requests :=
                          requests w1
                          ++ [{| url := url; accept := acceptHeader mode;
                                 timeout := timeout |}];
                        drawn := drawn w1 |}).
    { right. eexists. cbn [requests]. rewrite Hsame. split; reflexivity. }
    destruct (fetch platform (requests w1) _) as [latency_ms response|m].
    + match goal with
      | |- context [decodeDohResponse ?e ?m ?l ?r ?w] =>
        destruct (decodeDohResponse_cases e m l r w)
          as [(r' & -> & Hwf) | (m' & ->)]
      end; unfold ret; eauto 6.
    + unfold ret. eauto 6.
  - unfold ret. do 2 eexists. split; [reflexivity|].
    split; [apply Hfailure | left; exact Hsame].
Qed.

(** C4.  For every endpoint the executor performs the JSON-mode attempt
    and then, whatever its outcome, the wire-mode attempt; neither
    throws, and each sends at most one request, asking for its own
    encoding.  The provider result carries both attempts, its
    [attempted_formats] is [[json; wire]], and its fields are those of
    the first successful attempt in that order, or else those of the
    failure combiner applied to both attempts. *)
Theorem fetchDohAnswer_both_encodings :
  forall platform extractIpsFromAnswer endpoint name recordType timeout
         (w : World),
    exists jsonResult wireResult w1 w2 summary,
      performDohRequest platform extractIpsFromAnswer endpoint name recordType
        timeout ModeJson w
      = (Normal jsonResult, w1) /\
      performDohRequest platform extractIpsFromAnswer endpoint name recordType
        timeout ModeWire w1
      = (Normal wireResult, w2) /\
      Doh.mode jsonResult = ModeJson /\
      Doh.mode wireResult = ModeWire /\
      atMostOneRequest ModeJson w w1 /\
      atMostOneRequest ModeWire w1 w2 /\
      fetchDohAnswer platform extractIpsFromAnswer endpoint name recordType
        timeout w
      = (Normal summary, w2) /\
      Doh.attempted_formats summary = [ModeJson; ModeWire] /\
      Doh.mode_results summary = Some [jsonResult; wireResult] /\
      Doh.result summary
      = if Doh.ok (Doh.base jsonResult) then Doh.base jsonResult
        else if Doh.ok (Doh.base wireResult) then Doh.base wireResult
        else Doh.result (Doh.combineDohFailures [jsonResult; wireResult]).
Proof.
  intros platform extract endpoint name recordType timeout w.
  destruct (performDohRequest_result platform extract endpoint name recordType
              timeout ModeJson w)
    as (jsonResult & w1 & Hjson & (Hmj & _) & Hfirst).
  destruct (performDohRequest_result platform extract endpoint name recordType
              timeout ModeWire w1)
    as (wireResult & w2 & Hwire & (Hmw & _) & Hsecond).
  exists jsonResult, wireResult, w1, w2.
  unfold fetchDohAnswer. cbn [mapM]. unfold mbind at 1 2.
  rewrite Hjson. unfold mbind at 1 2. rewrite Hwire.
  unfold mbind, ret. eexists.
  repeat (split; [first [assumption | reflexivity]|]).
  cbn [map Doh.attempted_formats Doh.mode_results Doh.result find].
  rewrite Hmj, Hmw. repeat (split; [reflexivity|]).
  destruct (Doh.ok (Doh.base jsonResult)); [reflexivity|].
  destruct (Doh.ok (Doh.base wireResult)); reflexivity.
Qed.

Lemma decodeHttpsResponse_cases :
  forall extractHttpsRecord mode latency_ms response (w : World),
    (exists r,
       decodeHttpsResponse extractHttpsRecord mode latency_ms response w
       = (Normal r, w))
    \/ (exists m,
          decodeHttpsResponse extractHttpsRecord mode latency_ms response w
          = (Thrown m, w)).
Proof.
  intros extract mode latency_ms response w. unfold decodeHttpsResponse.
  destruct (isJsonContentType (contentType response));
    [|destruct (isTextContentType (contentType response))];
    unfold tryCatch, mbind, lift, ret.
  - left. destruct (json response) as [body|m]; cbn [await]; eauto.
  - destruct (text response) as [body|m]; cbn [await]; eauto.
  - destruct (arrayBuffer response) as [buffer|m]; cbn [await]; [left | eauto].
    pose proof (WireTermination.findHttpsRecordInDnsMessage_finishes buffer)
      as H.
    destruct (Wire.findHttpsRecordInDnsMessage buffer) as [lookup|m|];
      [ | | now elim H]; eauto.
Qed.

(** An attempt of an HTTPS query always returns a result, never
    throwing, and issues at most one request; it has issued one when it
    found ECH. *)
Lemma performHttpsRequest_result :
  forall platform extractHttpsRecord endpoint domain timeout mode (w : World),
    exists r w',
      performHttpsRequest platform extractHttpsRecord endpoint domain timeout
        mode w
      = (Normal r, w') /\
      atMostOneRequest mode w w' /\
      (Ech.found r = true ->
       exists request,
         requests w' = requests w ++ [request] /\
         accept request = acceptHeader mode).
Proof.
  intros platform extract endpoint domain timeout mode w.
  unfold performHttpsRequest, mbind, attempt.
  destruct (buildUrl_cases platform mode endpoint domain
              (Text.decimal Wire.HTTPS_RECORD_TYPE) w)
    as (w1 & Hsame & [[url ->] | [m ->]]).
  - unfold tryCatch, mbind, doFetch.
    assert (Hone : exists request,
               requests
                 {| requests :=
                      requests w1
                      ++ [{| url := url; accept := acceptHeader mode;
                             timeout := timeout |}];
                    drawn := drawn w1 |}
               = requests w ++ [request] /\
               accept request = acceptHeader mode).
    { eexists. cbn [requests]. rewrite Hsame. split; reflexivity. }
    destruct (fetch platform (requests w1) _) as [latency_ms response|m].
    + match goal with
      | |- context [decodeHttpsResponse ?e ?m ?l ?r ?w] =>
        destruct (decodeHttpsResponse_cases e m l r w)
          as [(r' & ->) | (m' & ->)]
      end; unfold ret; do 2 eexists;
        (split; [reflexivity|]); (split; [right; exact Hone|]); auto.
    + unfold ret. do 2 eexists.
      split; [reflexivity|]. split; [right; exact Hone | auto].
  - unfold ret. do 2 eexists. split; [reflexivity|].
    split; [left; exact Hsame | discriminate].
Qed.

(** C5.  For every endpoint the executor makes the JSON-mode attempt
    first.  When that attempt finds ECH it is the result, and the only
    request issued is the one request of JSON mode: no wire-mode call is
    made.  Otherwise the wire-mode attempt is made and is the result
    when it finds ECH; when neither finds ECH the result is the failure
    combiner applied to the two attempts. *)
Theorem fetchHttpsRecord_short_circuit :
  forall platform extractHttpsRecord endpoint domain timeout (w : World),
    exists jsonAttempt w1,
      performHttpsRequest platform extractHttpsRecord endpoint domain timeout
        ModeJson w
      = (Normal jsonAttempt, w1) /\
      (Ech.found jsonAttempt = true ->
       fetchHttpsRecord platform extractHttpsRecord endpoint domain timeout w
       = (Normal jsonAttempt, w1) /\
       exists request,
         requests w1 = requests w ++ [request] /\
         accept request = acceptHeader ModeJson) /\
      (Ech.found jsonAttempt = false ->
       exists wireAttempt w2,
         performHttpsRequest platform extractHttpsRecord endpoint domain
           timeout ModeWire w1
         = (Normal wireAttempt, w2) /\
         (Ech.found wireAttempt = true ->
          fetchHttpsRecord platform extractHttpsRecord endpoint domain timeout
            w
          = (Normal wireAttempt, w2)) /\
         (Ech.found wireAttempt = false ->
          exists merged,
            Ech.combineEchFailures [jsonAttempt; wireAttempt] = Some merged /\
            fetchHttpsRecord platform extractHttpsRecord endpoint domain
              timeout w
            = (Normal merged, w2))).
Proof.
  intros platform extract endpoint domain timeout w.
  destruct (performHttpsRequest_result platform extract endpoint domain
              timeout ModeJson w)
    as (jsonAttempt & w1 & Hjson & _ & Hissued).
  exists jsonAttempt, w1. split; [exact Hjson|].
  unfold fetchHttpsRecord, mbind. rewrite Hjson. split.
  - intros Hfound. rewrite Hfound. split; [reflexivity | auto].
  - intros Hnot. rewrite Hnot.
    destruct (performHttpsRequest_result platform extract endpoint domain
                timeout ModeWire w1)
      as (wireAttempt & w2 & Hwire & _ & _).
    exists wireAttempt, w2. rewrite Hwire. split; [reflexivity|]. split.
    + intros Hfound. now rewrite Hfound.
    + intros Hnone. rewrite Hnone. cbn [app].
      destruct (CombinerFacts.combineEchFailures_defined
                  [jsonAttempt; wireAttempt] wireAttempt eq_refl)
        as (merged & Hmerged).
      exists merged. rewrite Hmerged. split; reflexivity.
Qed.

Lemma fetchHttpsRecord_short_circuit_witness :
  exists r w',
    fetchHttpsRecord examplePlatform exampleExtractHttps
      "https://dns.example/dns-query" "example.com" 5000%Z emptyWorld
    = (Normal r, w') /\
    Ech.found r = true /\
    map accept (requests w') = ["application/dns-json"].
Proof.
  destruct (fetchHttpsRecord_short_circuit examplePlatform exampleExtractHttps
              "https://dns.example/dns-query" "example.com" 5000%Z emptyWorld)
    as (jsonAttempt & w1 & Hjson & Hfound & _).
  vm_compute in Hjson. injection Hjson as <- <-.
  destruct (Hfound eq_refl) as [Hrun _].
  do 2 eexists. split; [exact Hrun|]. split; reflexivity.
Defined.

Lemma fetchDohAnswer_invariant :
  forall platform extractIpsFromAnswer endpoint name recordType timeout
         (w : World),
    exists summary w',
      fetchDohAnswer platform extractIpsFromAnswer endpoint name recordType
        timeout w
      = (Normal summary, w') /\
      Doh.attempted_formats summary = [ModeJson; ModeWire] /\
      (Doh.ok (Doh.result summary) = true ->
       Doh.ips (Doh.result summary) <> []).
Proof.
  intros platform extract endpoint name recordType timeout w.
  destruct (performDohRequest_result platform extract endpoint name recordType
              timeout ModeJson w)
    as (jsonResult & w1 & Hjson & (Hmj & Hipsj & _) & _).
  destruct (performDohRequest_result platform extract endpoint name recordType
              timeout ModeWire w1)
    as (wireResult & w2 & Hwire & (Hmw & Hipsw & _) & _).
  unfold fetchDohAnswer. cbn [mapM]. unfold mbind at 1 2.
  rewrite Hjson. unfold mbind at 1 2. rewrite Hwire.
  unfold mbind, ret. do 2 eexists. split; [reflexivity|].
  cbn [map Doh.attempted_formats Doh.result find].
  rewrite Hmj, Hmw. split; [reflexivity|].
  destruct (Doh.ok (Doh.base jsonResult)) eqn:Hokj; [intros _; auto|].
  destruct (Doh.ok (Doh.base wireResult)) eqn:Hokw; [intros _; auto|].
  unfold Doh.combineDohFailures. cbn. discriminate.
Qed.

(** C10.  The query of a provider never rejects, whatever the resolver
    and the network do: it is fulfilled with a result whose
    [attempted_formats] is [[json; wire]] and whose addresses are not
    empty when it is marked ok.  Hence the entry that [runDohCheck]
    writes into [details] for a provider it has queried is never the one
    it holds ready for a rejected query: its [attempted_formats] is not
    empty, and its addresses are not empty when it is marked ok. *)
Theorem provider_result_invariant :
  (forall platform extractIpsFromAnswer endpoint name recordType timeout
          (w : World),
     exists summary w',
       fetchDohAnswer platform extractIpsFromAnswer endpoint name recordType
         timeout w
       = (Normal summary, w') /\
       Doh.attempted_formats summary = [ModeJson; ModeWire] /\
       (Doh.ok (Doh.result summary) = true ->
        Doh.ips (Doh.result summary) <> []))
  /\
  (forall platform extractIpsFromAnswer endpoint testDomain timeout
          (w : World),
     exists detail w',
       Compare.providerDetail platform extractIpsFromAnswer endpoint
         testDomain timeout w
       = (Normal detail, w') /\
       Doh.attempted_formats detail <> [] /\
       (Doh.ok (Doh.result detail) = true ->
        Doh.ips (Doh.result detail) <> [])).
Proof.
  split; [exact fetchDohAnswer_invariant|].
  intros platform extract endpoint testDomain timeout w.
  destruct (fetchDohAnswer_invariant platform extract endpoint testDomain "A"
              timeout w)
    as (summary & w' & Hrun & Hformats & Hips).
  exists summary, w'. unfold Compare.providerDetail. rewrite Hrun.
  cbn [Compare.dohDetail]. split; [reflexivity|].
  split; [now rewrite Hformats | exact Hips].
Qed.

Lemma provider_result_invariant_witness :
  (exists detail w',
     Compare.providerDetail examplePlatform exampleExtractIps
       "https://dns.example/dns-query" "example.com" 5000%Z emptyWorld
     = (Normal detail, w') /\
     Doh.ok (Doh.result detail) = true /\
     Doh.ips (Doh.result detail) <> []) /\
  (exists detail w',
     Compare.providerDetail unreachablePlatform exampleExtractIps
       "https://dns.example/dns-query" "example.com" 5000%Z emptyWorld
     = (Normal detail, w') /\
     Doh.ok (Doh.result detail) = false /\
     Doh.attempted_formats detail <> []).
Proof.
  split.
  - destruct (proj2 provider_result_invariant examplePlatform
                exampleExtractIps "https://dns.example/dns-query"
                "example.com" 5000%Z emptyWorld)
      as (detail & w' & Hrun & _ & Hips).
    exists detail, w'. split; [exact Hrun|].
    assert (Hok : Doh.ok (Doh.result detail) = true).
    { vm_compute in Hrun. injection Hrun as <- _. reflexivity. }
    split; [exact Hok | exact (Hips Hok)].
  - destruct (proj2 provider_result_invariant unreachablePlatform
                exampleExtractIps "https://dns.example/dns-query"
                "example.com" 5000%Z emptyWorld)
      as (detail & w' & Hrun & Hformats & _).
    exists detail, w'. split; [exact Hrun|].
    split; [|exact Hformats].
    vm_compute in Hrun. injection Hrun as <- _. reflexivity.
Defined.

End ExecutorFacts.

Module NameCodecCoverage.
Import NameCodec Wire WireFormat.

Lemma byteOf_to_N : forall b : byte, byteOf (Byte.to_N b) = b.
Proof.
  intros b. unfold byteOf.
  rewrite N.mod_small by (pose proof (Byte.to_N_bounded b); lia).
  now rewrite Byte.of_to_N.
Qed.

Lemma to_N_zero : forall b : byte, Byte.to_N b = 0%N -> b = x00.
Proof.
  intros b H. rewrite <- (byteOf_to_N b), H. reflexivity.
Qed.

Lemma skipn_nth : forall (message : list byte) (offset : nat) (b : byte),
  nth_error message offset = Some b ->
  skipn offset message = b :: skipn (offset + 1) message.
Proof.
  induction message as [|x message IH]; intros [|offset] b H;
    try discriminate.
  - now injection H as ->.
  - cbn [skipn Nat.add]. apply IH. exact H.
Qed.

(** What the loop returns was written at the offset it started from. *)
Lemma loop_sound :
  forall fuel message labels length jumped currentOffset safety info,
    readDnsName_loop fuel message labels length jumped currentOffset safety
    = Normal info ->
    exists steps name size,
      NameAt message currentOffset steps name size /\
      NameCodec.name info
      = String.concat "." (labels ++ map string_of_list_byte name) /\
      NameCodec.length info = if jumped then length else length + size.
Proof.
  induction fuel as [|fuel IH]; intros message labels length jumped
    currentOffset safety info; cbn [readDnsName_loop]; [discriminate|].
  destruct (List.length message <? safety); [discriminate|].
  destruct (nth_error message currentOffset) as [b|] eqn:Hb; [|discriminate].
  destruct (isPointer (Byte.to_N b)) eqn:Hptr.
  - destruct (nth_error message (currentOffset + 1)) as [lo|] eqn:Hlo;
      [|discriminate].
    destruct (List.length message <=? _) eqn:Hin; [discriminate|].
    intros H. apply IH in H. destruct H as (steps & name & size & Hat & Hn & Hl).
    exists (S steps), name, 2. split; [|split].
    + eapply NameAt_pointer; [|exact Hat]. exists b, lo. auto.
    + exact Hn.
    + rewrite Hl. reflexivity.
  - destruct (Byte.to_N b =? 0)%N eqn:Hz.
    + intros H. injection H as <-. apply N.eqb_eq, to_N_zero in Hz. subst b.
      exists 1, [], 1. cbn [map NameCodec.name NameCodec.length].
      rewrite app_nil_r. repeat split. now constructor.
    + destruct (63 <? Byte.to_N b)%N eqn:Hbig; [discriminate|].
      destruct (List.length message <? _) eqn:Hend; [discriminate|].
      apply N.eqb_neq in Hz. apply N.ltb_ge in Hbig. apply Nat.ltb_ge in Hend.
      intros H. apply IH in H.
      destruct H as (steps & name & size & Hat & Hn & Hl).
      set (n := N.to_nat (Byte.to_N b)) in *.
      set (label := firstn n (skipn (currentOffset + 1) message)).
      assert (Hlen : List.length label = n).
      { unfold label. rewrite length_firstn, length_skipn. lia. }
      assert (Hlabel : occursAt message (currentOffset + 1) label).
      { apply WireFacts.occursAt_skipn; [lia|]. rewrite Hlen. reflexivity. }
      assert (Hhead : occursAt message currentOffset (encodeLabel label)).
      { apply WireFacts.occursAt_skipn.
        - apply Nat.lt_le_incl, nth_error_Some. congruence.
        - unfold encodeLabel. cbn [List.length].
          rewrite (skipn_nth _ _ _ Hb). cbn [firstn].
          rewrite Hlen. unfold n. rewrite N2Nat.id, byteOf_to_N.
          reflexivity. }
      exists (S steps), (label :: name), (1 + List.length label + size).
      split; [|split].
      * constructor; [unfold validLabel; lia | exact Hhead |].
        rewrite Hlen. exact Hat.
      * rewrite Hn, <- app_assoc. cbn [app map].
        rewrite <- Hlen at 1.
        now rewrite (WireFacts.readLabel_slice _ _ _ Hlabel).
      * rewrite Hl, Hlen. destruct jumped; lia.
Qed.

Lemma NameAt_bounds : forall message offset steps name size,
  NameAt message offset steps name size ->
  1 <= size /\ offset + size <= List.length message.
Proof.
  induction 1 as [offset Hroot
                 | offset label steps name size Hvalid Hat Hrest IH
                 | offset target steps name size Hpointer Hrest IH].
  - split; [lia|].
    assert (offset < List.length message)
      by (apply nth_error_Some; congruence).
    lia.
  - apply WireFacts.occursAt_length in Hat.
    cbn [encodeLabel List.length] in Hat. lia.
  - destruct Hpointer as (hi & lo & _ & Hlo & _).
    assert (offset + 1 < List.length message)
      by (apply nth_error_Some; congruence).
    lia.
Qed.

(** X1.  [readDnsName] returns a name and a length at an offset of a
    message exactly when a well-formed name lies there: a chain of
    labels, possibly continued through compression pointers to offsets
    not read before, that ends in the root label.  The text returned is
    the labels joined by dots, the length the bytes the name takes at
    the offset itself, a pointer counting as two.  On every other input
    the function throws. *)
Theorem readDnsName_wellformed_iff :
  forall (message : list byte) (offset : nat) (info : NameInfo),
    readDnsName message offset = Normal info <->
    (exists (steps : nat) (name : Name),
       NameAt message offset steps name (NameCodec.length info) /\
       NameCodec.name info = nameText name).
Proof.
  intros message offset info. split.
  - intros H. apply loop_sound in H.
    destruct H as (steps & name & size & Hat & Hn & Hl).
    cbn in Hl. subst size. exists steps, name. split; assumption.
  - intros (steps & name & Hat & Hn).
    rewrite (WireFacts.readDnsName_at _ _ _ _ _ Hat).
    destruct info as [text size]. cbn in Hn. now subst text.
Qed.

(** X2.  The length that [readDnsName] returns is at least one and
    leads to an offset that is still within the message, so that a
    caller who adds it to the offset never leaves the buffer. *)
Theorem readDnsName_length_in_bounds :
  forall (message : list byte) (offset : nat) (info : NameInfo),
    readDnsName message offset = Normal info ->
    1 <= NameCodec.length info /\
    offset + NameCodec.length info <= List.length message.
Proof.
  intros message offset info H. apply loop_sound in H.
  destruct H as (steps & name & size & Hat & _ & Hl).
  cbn in Hl. subst size. exact (NameAt_bounds _ _ _ _ _ Hat).
Qed.

Lemma readDnsName_length_in_bounds_witness :
  1 <= 6 /\ 0 + 6 <= 10.
Proof.
  apply (readDnsName_length_in_bounds
           [x03; x77; x77; x77; xc0; x06; x02; x61; x62; x00] 0
           {| name := "www.ab"; length := 6 |}).
  reflexivity.
Defined.

End NameCodecCoverage.

Module AddressFacts.
Import NameCodec Wire WireFormat Address.

(** *** Splitting and joining *)

Lemma split_cons : forall (separator : ascii) (s : string),
  exists head tail, Js.split separator s = head :: tail.
Proof.
  intros separator s. destruct s as [|c s]; cbn [Js.split]; [eauto|].
  destruct (Ascii.eqb c separator); [eauto|].
  destruct (Js.split separator s); eauto.
Qed.

(** A text without the separator, followed by the separator, is the
    first part. *)
Lemma split_app : forall (separator : ascii) (a rest : string),
  RecordType.all (fun c => negb (Ascii.eqb c separator)) a = true ->
  Js.split separator (a ++ String separator rest)
  = a :: Js.split separator rest.
Proof.
  intros separator a rest. induction a as [|c a IH]; intros Ha.
  - cbn. now rewrite Ascii.eqb_refl.
  - cbn in Ha. apply andb_true_iff in Ha. destruct Ha as [Hc Ha].
    cbn [append Js.split]. apply negb_true_iff in Hc. rewrite Hc.
    now rewrite (IH Ha).
Qed.

Lemma split_whole : forall (separator : ascii) (a : string),
  RecordType.all (fun c => negb (Ascii.eqb c separator)) a = true ->
  Js.split separator a = [a].
Proof.
  intros separator a. induction a as [|c a IH]; intros Ha; [reflexivity|].
  cbn in Ha. apply andb_true_iff in Ha. destruct Ha as [Hc Ha].
  cbn [Js.split]. apply negb_true_iff in Hc. now rewrite Hc, (IH Ha).
Qed.

(** [split] undoes [join] on parts that do not hold the separator. *)
Lemma split_concat : forall (separator : ascii) (parts : list string),
  parts <> [] ->
  Forall (fun part =>
            RecordType.all (fun c => negb (Ascii.eqb c separator)) part
            = true) parts ->
  Js.split separator (String.concat (String separator EmptyString) parts)
  = parts.
Proof.
  intros separator parts. induction parts as [|a parts IH]; [congruence|].
  intros _ Hall. apply Forall_cons_iff in Hall. destruct Hall as [Ha Hall].
  destruct parts as [|b parts].
  - cbn [String.concat]. now apply split_whole.
  - change (String.concat (String separator EmptyString) (a :: b :: parts))
      with (a ++ String separator
                   (String.concat (String separator EmptyString)
                      (b :: parts)))%string.
    rewrite (split_app _ _ _ Ha). f_equal. apply IH; [discriminate|].
    assumption.
Qed.

Lemma all_impl : forall (p q : ascii -> bool) (s : string),
  (forall c, p c = true -> q c = true) ->
  RecordType.all p s = true -> RecordType.all q s = true.
Proof.
  intros p q s Hpq. induction s as [|c s IH]; [reflexivity|].
  cbn. intros H. apply andb_true_iff in H. destruct H as [Hc Hs].
  now rewrite (Hpq _ Hc), (IH Hs).
Qed.

Lemma group_all : forall p low high s,
  group p low high s = true -> RecordType.all p s = true.
Proof.
  intros p low high s H. unfold group in H.
  apply andb_true_iff in H. tauto.
Qed.

Lemma digit_not_dot : forall c : ascii,
  RecordType.isDigit c = true -> negb (Ascii.eqb c ".") = true.
Proof.
  intros c. destruct c as [[] [] [] [] [] [] [] []]; intros H;
    try discriminate H; reflexivity.
Qed.

Lemma hexDigit_not_colon : forall c : ascii,
  RecordType.isHexDigit c = true -> negb (Ascii.eqb c ":") = true.
Proof.
  intros c. destruct c as [[] [] [] [] [] [] [] []]; intros H;
    try discriminate H; reflexivity.
Qed.

(** *** The two formats *)

(** The decimal text of a byte has one to three digits. *)
Lemma decimal_byte : forall b : byte,
  group RecordType.isDigit 1 3 (Text.decimal (Byte.to_N b)) = true.
Proof. intros b. destruct b; vm_compute; reflexivity. Qed.

Lemma holdsFrom_spec : forall (p : N -> bool) (count : nat) (start : N),
  holdsFrom count start p = true ->
  forall n : N, (start <= n < start + N.of_nat count)%N -> p n = true.
Proof.
  intros p. induction count as [|k IH]; intros start H n Hn; [lia|].
  cbn [holdsFrom] in H. apply andb_true_iff in H. destruct H as [Hk H].
  destruct (N.eq_dec n start) as [-> | Hne]; [exact Hk|].
  apply (IH _ H). lia.
Qed.

(** The hexadecimal text of a 16-bit number has one to four digits,
    and they denote the number. *)
Lemma hexadecimal_checked : forall n : N,
  (n < 65536)%N ->
  group RecordType.isHexDigit 1 4 (Text.hexadecimal n) = true /\
  RecordType.numeral 16 (Text.hexadecimal n) 0 = n.
Proof.
  intros n Hn.
  pose (p := fun n =>
               group RecordType.isHexDigit 1 4 (Text.hexadecimal n)
               && (RecordType.numeral 16 (Text.hexadecimal n) 0 =? n)%N).
  assert (H : p n = true).
  { apply (holdsFrom_spec p (N.to_nat 65536) 0);
      [vm_compute; reflexivity | lia]. }
  unfold p in H. apply andb_true_iff in H. destruct H as [Hgroup Hvalue].
  split; [exact Hgroup | now apply N.eqb_eq].
Qed.

Lemma hexadecimal_segment : forall n : N,
  (n < 65536)%N ->
  group RecordType.isHexDigit 1 4 (Text.hexadecimal n) = true.
Proof. intros n Hn. apply hexadecimal_checked, Hn. Qed.

Lemma segment_bound : forall hi lo : N,
  (hi < 256)%N -> (lo < 256)%N -> (N.lor (N.shiftl hi 8) lo < 65536)%N.
Proof.
  intros hi lo Hhi Hlo.
  apply N.div_small_iff; [discriminate|].
  change 65536%N with (2 ^ 16)%N. rewrite <- N.shiftr_div_pow2.
  rewrite N.shiftr_lor, N.shiftr_shiftl_r by lia.
  change (16 - 8)%N with 8%N.
  rewrite !N.shiftr_div_pow2.
  rewrite (N.div_small hi) by (change (2 ^ 8)%N with 256%N; lia).
  rewrite (N.div_small lo) by (change (2 ^ 16)%N with 65536%N; lia).
  reflexivity.
Qed.

Lemma byteBits_bound : forall (bytes : list byte) (i : nat),
  (byteBits bytes i < 256)%N.
Proof.
  intros bytes i. unfold byteBits.
  destruct (nth_error bytes i) as [b|]; [|lia].
  pose proof (Byte.to_N_bounded b). lia.
Qed.

Lemma formatIpv4_accepted : forall a b c d : byte,
  IP_V4_REGEX (formatIpv4 [a; b; c; d]) = true.
Proof.
  intros a b c d. unfold formatIpv4, byteText, IP_V4_REGEX.
  cbn [nth_error].
  assert (Hdot : forall x : byte,
            RecordType.all (fun c => negb (Ascii.eqb c "."))
              (Text.decimal (Byte.to_N x)) = true).
  { intros x. eapply all_impl; [exact digit_not_dot|].
    eapply group_all. apply decimal_byte. }
  change (Text.decimal (Byte.to_N a) ++ "." ++ Text.decimal (Byte.to_N b)
          ++ "." ++ Text.decimal (Byte.to_N c) ++ "."
          ++ Text.decimal (Byte.to_N d))%string
    with (Text.decimal (Byte.to_N a)
          ++ String "."
               (Text.decimal (Byte.to_N b)
                ++ String "."
                     (Text.decimal (Byte.to_N c)
                      ++ String "." (Text.decimal (Byte.to_N d)))))%string.
  rewrite !split_app, split_whole by apply Hdot.
  cbn [forallb]. now rewrite !decimal_byte.
Qed.

Lemma formatIpv6_accepted : forall bytes : list byte,
  IP_V6_REGEX (formatIpv6 bytes) = true.
Proof.
  intros bytes. unfold formatIpv6, IP_V6_REGEX.
  assert (Hseg : forall i,
            group RecordType.isHexDigit 1 4
              (Text.hexadecimal
                 (N.lor (N.shiftl (byteBits bytes (i * 2)) 8)
                    (byteBits bytes (i * 2 + 1)))) = true).
  { intros i. apply hexadecimal_segment, segment_bound;
      apply byteBits_bound. }
  rewrite split_concat.
  - cbn [seq map forallb]. now rewrite !Hseg.
  - discriminate.
  - apply Forall_forall. intros part Hin. apply in_map_iff in Hin.
    destruct Hin as (i & <- & _).
    eapply all_impl; [exact hexDigit_not_colon|].
    eapply group_all. apply Hseg.
Qed.

Lemma subarray_length : forall (message : list byte) (offset size : nat),
  offset + size <= List.length message ->
  List.length (subarray message offset (offset + size)) = size.
Proof.
  intros message offset size H. unfold subarray.
  rewrite length_firstn, length_skipn. lia.
Qed.

Lemma subarray_four : forall (message : list byte) (offset : nat),
  offset + 4 <= List.length message ->
  exists a b c d, subarray message offset (offset + 4) = [a; b; c; d].
Proof.
  intros message offset H. pose proof (subarray_length _ _ _ H) as Hlen.
  destruct (subarray message offset (offset + 4))
    as [|a [|b [|c [|d [|e rest]]]]]; try discriminate Hlen.
  eauto.
Qed.

(** *** The decoder on any buffer *)

Lemma getUint16_in_range : forall (view : list byte) (offset : nat),
  offset + 2 <= List.length view ->
  exists n, getUint16 view offset = Normal n.
Proof.
  intros view offset H. unfold getUint16.
  destruct (nth_error view offset) as [hi|] eqn:Hhi.
  - destruct (nth_error view (offset + 1)) as [lo|] eqn:Hlo; [eauto|].
    apply nth_error_None in Hlo. lia.
  - apply nth_error_None in Hhi. lia.
Qed.

Lemma readDnsName_throws : forall message offset m,
  readDnsName message offset = Thrown m -> MalformedName m.
Proof.
  intros message offset m H.
  eapply NameCodecFacts.loop_throws_malformed. exact H.
Qed.

Lemma skipQuestions_throws : forall count message offset m,
  skipQuestions count message offset = Thrown m -> MalformedName m.
Proof.
  induction count as [|count IH]; intros message offset m;
    cbn [skipQuestions]; [discriminate|].
  destruct (readDnsName message offset) as [info|e|] eqn:Hname;
    cbn [bind]; [apply IH | | discriminate].
  intros H. injection H as <-. eapply readDnsName_throws. exact Hname.
Qed.

Lemma accepted_add : forall (seen : list string) (ip : string),
  accepted seen -> isIpAddress ip = true ->
  accepted (Js.add String.eqb seen ip).
Proof.
  intros seen ip [Hnd Hall] Hip.
  destruct (JsFacts.add_spec seen ip Hnd) as [Hnd' Hin].
  split; [exact Hnd'|]. apply Forall_forall. intros x Hx.
  apply Hin in Hx. destruct Hx as [Hx | ->]; [|exact Hip].
  rewrite Forall_forall in Hall. now apply Hall.
Qed.

Lemma collectAddresses_cases :
  forall count message offset seen,
    accepted seen ->
    match collectAddresses count message offset seen with
    | Normal ips => accepted ips
    | Thrown m => MalformedName m
    | Unfinished => False
    end.
Proof.
  induction count as [|count IH]; intros message offset seen Hseen;
    cbn [collectAddresses]; [exact Hseen|].
  pose proof (WireTermination.readDnsName_finishes message offset) as Hfin.
  destruct (readDnsName message offset) as [info|e|] eqn:Hname;
    cbn [bind]; [ | eapply readDnsName_throws; exact Hname | now elim Hfin].
  destruct (List.length message <? _) eqn:Hten; [exact Hseen|].
  apply Nat.ltb_ge in Hten.
  destruct (getUint16_in_range message (offset + NameCodec.length info))
    as [type ->]; [lia|]. cbn [bind].
  destruct (getUint16_in_range message
              (offset + NameCodec.length info + 2 + 2 + 4))
    as [rdlength ->]; [lia|]. cbn [bind].
  destruct (List.length message <? _) eqn:Hend; [exact Hseen|].
  apply Nat.ltb_ge in Hend.
  apply IH.
  destruct ((type =? 1)%N && (N.to_nat rdlength =? 4)) eqn:Hv4.
  - apply andb_true_iff in Hv4. destruct Hv4 as [_ Hfour].
    apply Nat.eqb_eq in Hfour. rewrite Hfour in Hend.
    destruct (subarray_four message _ Hend) as (a & b & c & d & ->).
    apply accepted_add; [exact Hseen|].
    unfold isIpAddress. now rewrite formatIpv4_accepted.
  - destruct ((type =? 28)%N && (N.to_nat rdlength =? 16)); [|exact Hseen].
    apply accepted_add; [exact Hseen|].
    unfold isIpAddress. rewrite formatIpv6_accepted. apply orb_true_r.
Qed.

(** X3.  On every buffer [extractIpsFromDnsMessage] returns or throws.
    What it returns has no address twice and only texts that
    [isIpAddress] accepts; a buffer of fewer than twelve bytes gives no
    address.  What it throws is one of the messages of [readDnsName]:
    the reader of the fixed fields and of the record data never
    throws, as each is checked against the length of the buffer
    first. *)
Theorem extractIpsFromDnsMessage_cases : forall buffer : list byte,
  match extractIpsFromDnsMessage buffer with
  | Normal ips =>
    NoDup ips /\ Forall (fun ip => isIpAddress ip = true) ips
  | Thrown m => MalformedName m
  | Unfinished => False
  end
  /\
  (List.length buffer < 12 -> extractIpsFromDnsMessage buffer = Normal []).
Proof.
  intros buffer. split.
  2: { intros Hshort. unfold extractIpsFromDnsMessage.
       apply Nat.ltb_lt in Hshort. now rewrite Hshort. }
  unfold extractIpsFromDnsMessage.
  destruct (List.length buffer <? 12) eqn:Hshort.
  - split; constructor.
  - apply Nat.ltb_ge in Hshort.
    destruct (getUint16_in_range buffer 4) as [qdcount ->]; [lia|].
    destruct (getUint16_in_range buffer 6) as [ancount ->]; [lia|].
    cbn [bind].
    pose proof (WireTermination.skipQuestions_finishes
                  (N.to_nat qdcount) buffer 12) as Hfin.
    destruct (skipQuestions (N.to_nat qdcount) buffer 12)
      as [offset|e|] eqn:Hskip; cbn [bind];
      [ | eapply skipQuestions_throws; exact Hskip | now elim Hfin].
    apply collectAddresses_cases. split; constructor.
Qed.

(** *** The decoder on a laid-out response *)

Lemma collectAddresses_encoded :
  forall (rrs : list ResourceRecord) (message : list byte) (offset : nat)
         (seen : list string),
    occursAt message offset (flat_map encodeRecord rrs) ->
    recordsAt message offset rrs ->
    collectAddresses (List.length rrs) message offset seen
    = Normal (fold_left (Js.add String.eqb) (flat_map addressOf rrs) seen).
Proof.
  induction rrs as [|rr rrs IH]; intros message offset seen Hat Hvalid;
    cbn [List.length collectAddresses flat_map]; [reflexivity|].
  destruct Hvalid as ((steps & name & Howner) & Hrdata & Hrrs).
  apply WireFacts.occursAt_app in Hat. destruct Hat as [Hrr Hrest].
  pose proof (WireFacts.occursAt_length _ _ _ Hrr) as Hlen.
  unfold encodeRecord in Hrr, Hlen, Hrest, Hrrs.
  rewrite !length_app in Hlen, Hrest, Hrrs.
  cbn [uint16 uint32 List.length] in Hlen, Hrest, Hrrs.
  WireFacts.split_occurs Hrr. cbn [uint16 uint32 List.length] in *.
  rewrite (WireFacts.readDnsName_at _ _ _ _ _ Howner).
  cbn [bind NameCodec.length].
  replace (List.length message <? offset + List.length (owner rr) + 10)
    with false by (symmetry; apply Nat.ltb_ge; lia).
  assert (Htype : (rdataType (rdata rr) < 65536)%N).
  { destruct (rdata rr); cbn in *; [lia | tauto]. }
  assert (Hsize : (N.of_nat (List.length (rdataBytes (rdata rr))) < 65536)%N).
  { destruct (rdata rr); cbn in Hrdata |- *;
      [unfold validHttps in Hrdata|]; tauto. }
  rewrite (WireFacts.getUint16_uint16 _ _ _ Hrr1 Htype). cbn [bind].
  rewrite (WireFacts.getUint16_uint16 _ _ _ Hrr4 Hsize). cbn [bind].
  rewrite Nat2N.id.
  replace (List.length message
           <? offset + List.length (owner rr) + 2 + 2 + 4 + 2
              + List.length (rdataBytes (rdata rr)))
    with false by (symmetry; apply Nat.ltb_ge; lia).
  assert (Hnext :
    occursAt message
      (offset + List.length (owner rr) + 2 + 2 + 4 + 2
       + List.length (rdataBytes (rdata rr)))
      (flat_map encodeRecord rrs)
    /\ recordsAt message
         (offset + List.length (owner rr) + 2 + 2 + 4 + 2
          + List.length (rdataBytes (rdata rr)))
         rrs).
  { match goal with
    | |- occursAt _ ?a _ /\ _ =>
      match type of Hrest with
      | occursAt _ ?b _ => replace a with b by lia
      end
    end. split; assumption. }
  destruct Hnext as [Hnext Hnextvalid].
  rewrite (IH _ _ _ Hnext Hnextvalid), fold_left_app. f_equal. f_equal.
  unfold addressOf.
  destruct (rdata rr) as [data|type bytes];
    cbn [rdataType rdataBytes] in *; [reflexivity|].
  pose proof (WireFacts.occursAt_subarray _ _ _ Hrr) as Hbytes.
  destruct ((type =? 1)%N && (List.length bytes =? 4)) eqn:Hv4.
  - apply andb_true_iff in Hv4. destruct Hv4 as [_ Hfour].
    apply Nat.eqb_eq in Hfour. rewrite Hfour in Hbytes.
    now rewrite Hbytes.
  - destruct ((type =? 28)%N && (List.length bytes =? 16)) eqn:Hv6;
      [|reflexivity].
    apply andb_true_iff in Hv6. destruct Hv6 as [_ Hsixteen].
    apply Nat.eqb_eq in Hsixteen. rewrite Hsixteen in Hbytes.
    now rewrite Hbytes.
Qed.

(** The addresses of a laid-out response. *)
Lemma encoded_addresses : forall m : Message,
  validMessage m ->
  extractIpsFromDnsMessage (encodeMessage m)
  = Normal (Js.newSet String.eqb (addresses m)).
Proof.
  intros m (Hqd & Han & Hqs & Hrrs).
  pose proof (WireFacts.occursAt_whole (encodeMessage m)) as Hat.
  unfold extractIpsFromDnsMessage.
  assert (Hlen : 12 <= List.length (encodeMessage m)).
  { unfold encodeMessage. rewrite !length_app. cbn [uint16 List.length]. lia. }
  replace (List.length (encodeMessage m) <? 12) with false
    by (symmetry; apply Nat.ltb_ge; lia).
  change (occursAt (encodeMessage m) 0
            (uint16 (id m) ++ uint16 (flags m)
             ++ uint16 (N.of_nat (List.length (questions m)))
             ++ uint16 (N.of_nat (List.length (answers m)))
             ++ uint16 (nscount m) ++ uint16 (arcount m)
             ++ flat_map encodeQuestion (questions m)
             ++ flat_map encodeRecord (answers m)
             ++ trailing m)) in Hat.
  WireFacts.split_occurs Hat.
  assert (Hqdcount : occursAt (encodeMessage m) 4
                       (uint16 (N.of_nat (List.length (questions m)))))
    by exact Hat2.
  assert (Hancount : occursAt (encodeMessage m) 6
                       (uint16 (N.of_nat (List.length (answers m)))))
    by exact Hat3.
  assert (Hquestions : occursAt (encodeMessage m) 12
                         (flat_map encodeQuestion (questions m)))
    by exact Hat6.
  assert (Hanswers :
            occursAt (encodeMessage m)
              (12 + List.length (flat_map encodeQuestion (questions m)))
              (flat_map encodeRecord (answers m)))
    by exact Hat7.
  rewrite (WireFacts.getUint16_uint16 _ _ _ Hqdcount Hqd). cbn [bind].
  rewrite (WireFacts.getUint16_uint16 _ _ _ Hancount Han). cbn [bind].
  rewrite !Nat2N.id.
  rewrite (WireFacts.skipQuestions_encoded _ _ _ Hquestions Hqs). cbn [bind].
  rewrite (collectAddresses_encoded _ _ _ [] Hanswers Hrrs).
  reflexivity.
Qed.

(** X4.  On the bytes of a well-formed response
    [extractIpsFromDnsMessage] returns the addresses of the A answers
    with four bytes of data and of the AAAA answers with sixteen, in
    the order of the answers and each once; the other answers, the
    questions and what follows the answers do not matter. *)
Theorem extractIpsFromDnsMessage_encoded : forall m : Message,
  validMessage m ->
  extractIpsFromDnsMessage (encodeMessage m)
  = Normal (Js.newSet String.eqb (addresses m)).
Proof. exact encoded_addresses. Qed.

Lemma validMessage_addressMessage : validMessage addressMessage.
Proof.
  assert (Hname : firstn 6 (skipn 12 (encodeMessage addressMessage))
                  = exampleName) by reflexivity.
  unfold validMessage, validHttps, validName, validParam.
  repeat split;
    try (apply WireFacts.exampleName_at, Hname);
    try (apply WireFacts.examplePointer_at; [exact Hname | reflexivity]);
    repeat constructor; cbn; try lia; try discriminate.
Qed.

Lemma extractIpsFromDnsMessage_encoded_witness :
  extractIpsFromDnsMessage (encodeMessage addressMessage)
  = Normal ["93.184.216.34"; "2606:2800:220:1:248:1893:25c8:1946"].
Proof.
  exact (extractIpsFromDnsMessage_encoded addressMessage
           validMessage_addressMessage).
Defined.

End AddressFacts.

Module HttpsLookupFacts.
Import NameCodec Wire HttpsDescription.

(** The loop over the parameters returns, and the ECH text it holds is
    the base64 text of bytes of the message. *)
Lemma svcbParams_returns :
  forall fuel message view offset rdlength cursor state,
    List.length view = rdlength ->
    1 <= fuel -> rdlength < fuel + cursor ->
    (echBase64 state = None
     \/ exists first last,
          echBase64 state
          = Some (Text.bytesToBase64 (subarray message first last))) ->
    exists final,
      svcbParams_loop fuel message view offset rdlength cursor state
      = Normal final /\
      (echBase64 final = None
       \/ exists first last,
            echBase64 final
            = Some (Text.bytesToBase64 (subarray message first last))).
Proof.
  induction fuel as [|fuel IH];
    intros message view offset rdlength cursor state Hview Hone Hfuel Hstate;
    [lia|].
  cbn [svcbParams_loop].
  destruct (cursor <? rdlength) eqn:Hin; [|eauto].
  destruct (rdlength <? cursor + 4) eqn:Hfour; [eauto|].
  apply Nat.ltb_ge in Hfour.
  destruct (AddressFacts.getUint16_in_range view cursor) as [key ->]; [lia|].
  destruct (AddressFacts.getUint16_in_range view (cursor + 2))
    as [valueLength ->]; [lia|].
  cbn [bind].
  destruct (rdlength <? _) eqn:Hvalue; [eauto|].
  apply Nat.ltb_ge in Hvalue. apply IH; [exact Hview | lia | lia |].
  cbn [echBase64]. destruct (key =? 5)%N; [|exact Hstate].
  right. eauto.
Qed.

Lemma base64_empty : forall bytes : list byte,
  Js.truthy (Some (Text.bytesToBase64 bytes)) = true -> bytes <> [].
Proof. intros bytes H ->. discriminate H. Qed.

Lemma parseHttpsSvcbRecord_cases : forall message offset rdlength,
  match parseHttpsSvcbRecord message offset rdlength with
  | Normal svcb =>
    if hasEch svcb then echDescription message (description svcb)
    else description svcb = EmptyString
         \/ exists middle,
              description svcb = ("priority=" ++ middle)%string
  | Thrown m => MalformedName m
  | Unfinished => False
  end.
Proof.
  intros message offset rdlength. unfold parseHttpsSvcbRecord.
  destruct (List.length message <? offset + rdlength) eqn:Hin;
    [now left|].
  apply Nat.ltb_ge in Hin.
  destruct (rdlength <? 4) eqn:Hfour; [now left|].
  apply Nat.ltb_ge in Hfour.
  pose proof (AddressFacts.subarray_length message offset rdlength Hin)
    as Hview.
  destruct (AddressFacts.getUint16_in_range
              (subarray message offset (offset + rdlength)) 0)
    as [priority ->]; [lia|].
  cbn [bind].
  pose proof (WireTermination.readDnsName_finishes message (offset + (0 + 2)))
    as Hfin.
  destruct (readDnsName message (offset + (0 + 2))) as [info|e|] eqn:Hname;
    cbn [bind];
    [ | eapply AddressFacts.readDnsName_throws; exact Hname | now elim Hfin].
  destruct (svcbParams_returns (S rdlength) message
              (subarray message offset (offset + rdlength)) offset rdlength
              (0 + 2 + NameCodec.length info)
              {| params := []; paramsHasEch := false; echBase64 := None |})
    as (final & -> & Hvalue); [exact Hview | lia | lia | now left |].
  cbn [bind hasEch description].
  set (target := match NameCodec.name info with
                 | EmptyString => "."
                 | String c rest => String c rest
                 end).
  set (front := match params final with
                | [] => (Text.decimal priority ++ " target=" ++ target)%string
                | _ :: _ =>
                  (Text.decimal priority ++ " target=" ++ target
                   ++ " params=[" ++ String.concat ", " (params final)
                   ++ "]")%string
                end).
  assert (Hfront : match params final with
                   | [] =>
                     ("priority=" ++ Text.decimal priority ++ " target="
                      ++ target)%string
                   | _ :: _ =>
                     (("priority=" ++ Text.decimal priority ++ " target="
                       ++ target)
                      ++ " params=[" ++ String.concat ", " (params final)
                      ++ "]")%string
                   end = ("priority=" ++ front)%string).
  { unfold front. destruct (params final);
      rewrite ?WireFacts.append_assoc; reflexivity. }
  rewrite Hfront. clearbody front.
  destruct (paramsHasEch final).
  - exists front.
    destruct (Js.truthy (echBase64 final)) eqn:Htruthy.
    + right. destruct Hvalue as [Hnone | (first & last & Hsome)];
        [rewrite Hnone in Htruthy; discriminate Htruthy|].
      rewrite Hsome in *. exists first, last.
      split; [now apply base64_empty|].
      rewrite !WireFacts.append_assoc. reflexivity.
    + left. rewrite !WireFacts.append_assoc. reflexivity.
  - right. exists front. reflexivity.
Qed.

Lemma scanAnswers_cases : forall count message offset fallbackRecord,
  anyDescription fallbackRecord ->
  match scanAnswers count message offset fallbackRecord with
  | Normal lookup =>
    error lookup = None /\
    if found lookup
    then exists text,
        record lookup = Some text /\ echDescription message text
    else anyDescription (record lookup)
  | Thrown m => MalformedName m
  | Unfinished => False
  end.
Proof.
  induction count as [|count IH]; intros message offset fb Hfb;
    cbn [scanAnswers]; [split; [reflexivity | exact Hfb]|].
  pose proof (WireTermination.readDnsName_finishes message offset) as Hfin.
  destruct (readDnsName message offset) as [info|e|] eqn:Hname;
    cbn [bind];
    [ | eapply AddressFacts.readDnsName_throws; exact Hname | now elim Hfin].
  destruct (List.length message <? _) eqn:Hten;
    [split; [reflexivity | exact Hfb]|].
  apply Nat.ltb_ge in Hten.
  destruct (AddressFacts.getUint16_in_range message
              (offset + NameCodec.length info))
    as [type ->]; [lia|]. cbn [bind].
  destruct (AddressFacts.getUint16_in_range message
              (offset + NameCodec.length info + 2 + 2 + 4))
    as [rdlength ->]; [lia|]. cbn [bind].
  destruct (List.length message <? _) eqn:Hend;
    [split; [reflexivity | exact Hfb]|].
  destruct (type =? HTTPS_RECORD_TYPE)%N; [|apply IH; exact Hfb].
  pose proof (parseHttpsSvcbRecord_cases message
                (offset + NameCodec.length info + 2 + 2 + 4 + 2)
                (N.to_nat rdlength)) as Hparse.
  destruct (parseHttpsSvcbRecord message _ (N.to_nat rdlength))
    as [svcb|e|]; cbn [bind]; [ | exact Hparse | exact Hparse].
  destruct (hasEch svcb).
  - split; [reflexivity|]. cbn [found record]. eauto.
  - apply IH.
    destruct Hfb as [-> | (middle & ->)].
    + cbn [Js.truthy negb andb].
      destruct Hparse as [-> | (middle & ->)]; [now left|].
      right. exists middle. reflexivity.
    + right. exists middle. reflexivity.
Qed.

Lemma findHttpsRecord_result : forall buffer : list byte,
  exists lookup,
    findHttpsRecordInDnsMessage buffer = Normal lookup /\
    match error lookup with
    | Some message =>
      found lookup = false /\ record lookup = None /\
      (if List.length buffer <? 12 then message = "DNS 报文过短。"
       else MalformedName message)
    | None =>
      12 <= List.length buffer /\
      if found lookup
      then exists text,
          record lookup = Some text /\ echDescription buffer text
      else anyDescription (record lookup)
    end.
Proof.
  intros buffer. unfold findHttpsRecordInDnsMessage.
  destruct (List.length buffer <? 12) eqn:Hshort.
  - eexists. split; [reflexivity|]. cbn [error found record]. auto.
  - apply Nat.ltb_ge in Hshort.
    destruct (AddressFacts.getUint16_in_range buffer 4) as [qdcount ->];
      [lia|].
    destruct (AddressFacts.getUint16_in_range buffer 6) as [ancount ->];
      [lia|].
    cbn [bind].
    pose proof (WireTermination.skipQuestions_finishes
                  (N.to_nat qdcount) buffer 12) as Hfin.
    destruct (skipQuestions (N.to_nat qdcount) buffer 12)
      as [offset|e|] eqn:Hskip; cbn [bind try_catch];
      [ | | now elim Hfin].
    + pose proof (scanAnswers_cases (N.to_nat ancount) buffer offset None
                    (or_introl eq_refl)) as Hscan.
      destruct (scanAnswers (N.to_nat ancount) buffer offset None)
        as [lookup|e|]; [ | | now elim Hscan].
      * exists lookup. split; [reflexivity|].
        destruct Hscan as [-> Hrecord]. split; [exact Hshort | exact Hrecord].
      * eexists. split; [reflexivity|]. cbn [error found record].
        auto.
    + eexists. split; [reflexivity|]. cbn [error found record].
      repeat split. eapply AddressFacts.skipQuestions_throws. exact Hskip.
Qed.

(** X5.  [findHttpsRecordInDnsMessage] never throws.  With an error it
    reports nothing found and no record; the error is the message for a
    short buffer exactly when the buffer has fewer than twelve bytes,
    and one of the messages of [readDnsName] otherwise.  Without an
    error the buffer has at least twelve bytes.  A record reported as
    found is described by a text that begins with the priority and ends
    with the ECH part: the marker for the base64 form followed by the
    base64 text of a run of bytes of the buffer that is not empty, or,
    when the value of the ECH parameter is empty, the bare word
    echconfig and no configuration.  A record not found is absent or
    described by a text that begins with the priority. *)
Theorem findHttpsRecordInDnsMessage_cases : forall buffer : list byte,
  exists lookup,
    findHttpsRecordInDnsMessage buffer = Normal lookup /\
    match error lookup with
    | Some message =>
      found lookup = false /\ record lookup = None /\
      (if List.length buffer <? 12 then message = "DNS 报文过短。"
       else MalformedName message)
    | None =>
      12 <= List.length buffer /\
      if found lookup
      then exists text,
          record lookup = Some text /\ echDescription buffer text
      else anyDescription (record lookup)
    end.
Proof. exact findHttpsRecord_result. Qed.

End HttpsLookupFacts.

Module Base64Facts.
Import Text Base64.

(** Induction on a list of bytes in steps of three, as [btoa] reads
    it. *)
Lemma by_three : forall P : list byte -> Prop,
  P [] -> (forall a, P [a]) -> (forall a b, P [a; b]) ->
  (forall a b c rest, P rest -> P (a :: b :: c :: rest)) ->
  forall bytes, P bytes.
Proof.
  intros P H0 H1 H2 H3 bytes.
  assert (H : P bytes /\ (forall a, P (a :: bytes))
              /\ (forall a b, P (a :: b :: bytes))).
  { induction bytes as [|x bytes (IH0 & IH1 & IH2)]; [auto|].
    split; [apply IH1|]. split; [intros a; apply IH2|].
    intros a b. apply H3, IH0. }
  apply H.
Qed.

Lemma base64Digit_spec : forall n : N,
  (n < 64)%N ->
  isBase64Char (base64Digit n) = true /\
  indexIn BASE64_ALPHABET (base64Digit n) = n.
Proof.
  intros n Hn.
  pose (p := fun n => isBase64Char (base64Digit n)
                      && (indexIn BASE64_ALPHABET (base64Digit n) =? n)%N).
  assert (H : p n = true).
  { apply (AddressFacts.holdsFrom_spec p 64 0); [vm_compute; reflexivity|].
    lia. }
  unfold p in H. apply andb_true_iff in H. destruct H as [Hc Hi].
  split; [exact Hc | now apply N.eqb_eq].
Qed.

Lemma base64Digit_inj : forall n m : N,
  (n < 64)%N -> (m < 64)%N -> base64Digit n = base64Digit m -> n = m.
Proof.
  intros n m Hn Hm H.
  rewrite <- (proj2 (base64Digit_spec n Hn)), H.
  apply base64Digit_spec, Hm.
Qed.

Lemma base64Char_not_padding : forall c : ascii,
  isBase64Char c = true -> c <> "="%char.
Proof. intros c H ->. discriminate H. Qed.

Lemma byte_bound : forall b : byte, (Byte.to_N b < 256)%N.
Proof. intros b. pose proof (Byte.to_N_bounded b). lia. Qed.

Lemma to_N_inj : forall a b : byte, Byte.to_N a = Byte.to_N b -> a = b.
Proof.
  intros a b H.
  assert (Hsome : Some a = Some b)
    by now rewrite <- (Byte.of_to_N a), <- (Byte.of_to_N b), H.
  now injection Hsome.
Qed.

Lemma div_mod_bound : forall n k : N,
  (0 < k)%N -> (n = k * (n / k) + n mod k /\ n mod k < k)%N.
Proof.
  intros n k Hk. split; [apply N.div_mod; lia | apply N.mod_lt; lia].
Qed.

(** The quotients and remainders of the bytes at hand by 4, 16 and 64,
    then linear arithmetic. *)
Ltac byte_facts b :=
  pose proof (byte_bound b);
  pose proof (div_mod_bound (Byte.to_N b) 4 eq_refl);
  pose proof (div_mod_bound (Byte.to_N b) 16 eq_refl);
  pose proof (div_mod_bound (Byte.to_N b) 64 eq_refl).

Ltac name_divisions :=
  repeat match goal with
         | |- context [(?n / ?k)%N] =>
           let q := fresh "q" in set (q := (n / k)%N) in *; clearbody q
         | |- context [(?n mod ?k)%N] =>
           let r := fresh "r" in set (r := (n mod k)%N) in *; clearbody r
         | _ : context [(?n / ?k)%N] |- _ =>
           let q := fresh "q" in set (q := (n / k)%N) in *; clearbody q
         | _ : context [(?n mod ?k)%N] |- _ =>
           let r := fresh "r" in set (r := (n mod k)%N) in *; clearbody r
         end.

Ltac digits_below :=
  repeat match goal with
         | b : byte |- _ =>
           lazymatch goal with
           | _ : (Byte.to_N b < 256)%N |- _ => fail
           | _ => byte_facts b
           end
         end;
  name_divisions; lia.

(** *** The URL form *)

Lemma base64ToUrl_char : forall (c : ascii) (rest : string),
  isBase64Char c = true ->
  base64ToUrl (String c rest) = String (urlChar c) (base64ToUrl rest)
  /\ isUrlSafe (urlChar c) = true.
Proof.
  intros c rest.
  destruct c as [[] [] [] [] [] [] [] []]; intros H; try discriminate H;
    split; reflexivity.
Qed.

Lemma base64ToUrl_digit : forall (n : N) (rest : string),
  (n < 64)%N ->
  base64ToUrl (String (base64Digit n) rest)
  = String (urlChar (base64Digit n)) (base64ToUrl rest)
  /\ isUrlSafe (urlChar (base64Digit n)) = true.
Proof.
  intros n rest Hn. apply base64ToUrl_char, base64Digit_spec, Hn.
Qed.

(** X6.  The text that [bytesToBase64Url] makes of any bytes consists
    of letters, digits, hyphens and underscores only, so that it has no
    padding and stands in a query parameter as it is; its length is the
    number of bytes times four thirds, rounded up. *)
Theorem bytesToBase64Url_url_safe : forall bytes : list byte,
  RecordType.all isUrlSafe (bytesToBase64Url bytes) = true /\
  String.length (bytesToBase64Url bytes) = (4 * List.length bytes + 2) / 3.
Proof.
  unfold bytesToBase64Url. intros bytes.
  induction bytes as [|a|a b|a b c rest [IHsafe IHlen]] using by_three.
  - split; reflexivity.
  - cbn [bytesToBase64].
    destruct (base64ToUrl_digit (Byte.to_N a / 4)
                (String (base64Digit (Byte.to_N a mod 4 * 16)) "=="))
      as [-> H1]; [digits_below|].
    destruct (base64ToUrl_digit (Byte.to_N a mod 4 * 16) "==")
      as [-> H2]; [digits_below|].
    cbn [RecordType.all]. rewrite H1, H2. split; reflexivity.
  - cbn [bytesToBase64].
    destruct (base64ToUrl_digit (Byte.to_N a / 4)
                (String (base64Digit
                           (Byte.to_N a mod 4 * 16 + Byte.to_N b / 16))
                   (String (base64Digit (Byte.to_N b mod 16 * 4)) "=")))
      as [-> H1]; [digits_below|].
    destruct (base64ToUrl_digit (Byte.to_N a mod 4 * 16 + Byte.to_N b / 16)
                (String (base64Digit (Byte.to_N b mod 16 * 4)) "="))
      as [-> H2]; [digits_below|].
    destruct (base64ToUrl_digit (Byte.to_N b mod 16 * 4) "=")
      as [-> H3]; [digits_below|].
    cbn [RecordType.all]. rewrite H1, H2, H3. split; reflexivity.
  - cbn [bytesToBase64].
    destruct (base64ToUrl_digit (Byte.to_N a / 4)
                (String (base64Digit
                           (Byte.to_N a mod 4 * 16 + Byte.to_N b / 16))
                   (String (base64Digit
                              (Byte.to_N b mod 16 * 4 + Byte.to_N c / 64))
                      (String (base64Digit (Byte.to_N c mod 64))
                         (bytesToBase64 rest)))))
      as [-> H1]; [digits_below|].
    destruct (base64ToUrl_digit (Byte.to_N a mod 4 * 16 + Byte.to_N b / 16)
                (String (base64Digit
                           (Byte.to_N b mod 16 * 4 + Byte.to_N c / 64))
                   (String (base64Digit (Byte.to_N c mod 64))
                      (bytesToBase64 rest))))
      as [-> H2]; [digits_below|].
    destruct (base64ToUrl_digit (Byte.to_N b mod 16 * 4 + Byte.to_N c / 64)
                (String (base64Digit (Byte.to_N c mod 64))
                   (bytesToBase64 rest)))
      as [-> H3]; [digits_below|].
    destruct (base64ToUrl_digit (Byte.to_N c mod 64) (bytesToBase64 rest))
      as [-> H4]; [digits_below|].
    cbn [RecordType.all String.length List.length].
    rewrite H1, H2, H3, H4, IHsafe, IHlen. split; [reflexivity|].
    replace (4 * S (S (S (List.length rest))) + 2)
      with (4 * List.length rest + 2 + 4 * 3) by lia.
    rewrite Nat.div_add by discriminate. lia.
Qed.

(** *** Distinct bytes give distinct texts *)

Ltac same_digit H :=
  apply base64Digit_inj in H; [ | digits_below | digits_below].

Ltac not_padding H :=
  exfalso;
  first [ symmetry in H | idtac ];
  match type of H with
  | base64Digit ?n = "="%char =>
    apply (base64Char_not_padding (base64Digit n));
    [apply base64Digit_spec; digits_below | exact H]
  | "="%char = base64Digit ?n =>
    apply (base64Char_not_padding (base64Digit n));
    [apply base64Digit_spec; digits_below | symmetry; exact H]
  end.

Lemma bytesToBase64_inj : forall a b : list byte,
  bytesToBase64 a = bytesToBase64 b -> a = b.
Proof.
  intros a. induction a as [|x|x y|x y z rest IH] using by_three;
    intros b; destruct b as [|p [|q [|r others]]];
    cbn [bytesToBase64]; intros H; try discriminate H;
    try reflexivity.
  - injection H as H1 H2. same_digit H1. same_digit H2.
    f_equal. apply to_N_inj. digits_below.
  - injection H as _ _ H3. not_padding H3.
  - injection H as _ _ H3 _. not_padding H3.
  - injection H as _ _ H3. not_padding H3.
  - injection H as H1 H2 H3. same_digit H1. same_digit H2. same_digit H3.
    assert (Byte.to_N x = Byte.to_N p /\ Byte.to_N y = Byte.to_N q)
      as [Hx Hy] by digits_below.
    apply to_N_inj in Hx, Hy. now subst.
  - injection H as _ _ _ H4. not_padding H4.
  - injection H as _ _ H3 _. not_padding H3.
  - injection H as _ _ _ H4. not_padding H4.
  - injection H as H1 H2 H3 H4 Hrest.
    same_digit H1. same_digit H2. same_digit H3. same_digit H4.
    assert (Byte.to_N x = Byte.to_N p /\ Byte.to_N y = Byte.to_N q
            /\ Byte.to_N z = Byte.to_N r)
      as (Hx & Hy & Hz) by digits_below.
    apply to_N_inj in Hx, Hy, Hz. subst. f_equal. f_equal. f_equal.
    apply IH, Hrest.
Qed.

Lemma urlChar_cases : forall c : ascii,
  isBase64Char c = true ->
  (c = "+"%char /\ urlChar c = "-"%char)
  \/ (c = "/"%char /\ urlChar c = "_"%char)
  \/ (urlChar c = c /\ isAlphanumeric c = true).
Proof.
  intros c.
  destruct c as [[] [] [] [] [] [] [] []]; intros H; try discriminate H;
    auto.
Qed.

Lemma urlChar_inj : forall c d : ascii,
  isBase64Char c = true -> isBase64Char d = true ->
  urlChar c = urlChar d -> c = d.
Proof.
  intros c d Hc Hd H.
  destruct (urlChar_cases c Hc) as [[-> Hu] | [[-> Hu] | [Hu Ha]]];
    destruct (urlChar_cases d Hd) as [[-> Hv] | [[-> Hv] | [Hv Hb]]];
    rewrite ?Hu, ?Hv in H; try reflexivity; try discriminate H;
    try exact H; subst; discriminate.
Qed.

Lemma urlDigit_inj : forall n m : N,
  (n < 64)%N -> (m < 64)%N ->
  urlChar (base64Digit n) = urlChar (base64Digit m) -> n = m.
Proof.
  intros n m Hn Hm H. apply base64Digit_inj; [exact Hn | exact Hm|].
  apply urlChar_inj; [apply base64Digit_spec, Hn
                     | apply base64Digit_spec, Hm | exact H].
Qed.

Ltac url_digits :=
  repeat match goal with
         | |- context [base64ToUrl (String (base64Digit ?n) ?rest)] =>
           rewrite (proj1 (base64ToUrl_digit n rest ltac:(digits_below)))
         end.

Ltac same_url_digit H :=
  apply urlDigit_inj in H; [ | digits_below | digits_below].

Lemma bytesToBase64Url_inj : forall a b : list byte,
  bytesToBase64Url a = bytesToBase64Url b -> a = b.
Proof.
  unfold bytesToBase64Url.
  intros a. induction a as [|x|x y|x y z rest IH] using by_three;
    intros b; destruct b as [|p [|q [|r others]]];
    cbn [bytesToBase64]; url_digits;
    change (base64ToUrl "==") with EmptyString;
    change (base64ToUrl "=") with EmptyString;
    change (base64ToUrl EmptyString) with EmptyString;
    intros H; try discriminate H; try reflexivity.
  - injection H as H1 H2. same_url_digit H1. same_url_digit H2.
    f_equal. apply to_N_inj. digits_below.
  - injection H as H1 H2 H3. same_url_digit H1. same_url_digit H2.
    same_url_digit H3.
    assert (Byte.to_N x = Byte.to_N p /\ Byte.to_N y = Byte.to_N q)
      as [Hx Hy] by digits_below.
    apply to_N_inj in Hx, Hy. now subst.
  - injection H as H1 H2 H3 H4 Hrest.
    same_url_digit H1. same_url_digit H2. same_url_digit H3.
    same_url_digit H4.
    assert (Byte.to_N x = Byte.to_N p /\ Byte.to_N y = Byte.to_N q
            /\ Byte.to_N z = Byte.to_N r)
      as (Hx & Hy & Hz) by digits_below.
    apply to_N_inj in Hx, Hy, Hz. subst. f_equal. f_equal. f_equal.
    apply IH, Hrest.
Qed.

(** X7.  [bytesToBase64] and [bytesToBase64Url] lose nothing: two
    byte sequences with the same text are the same sequence.  Hence two
    queries have the same [dns] parameter only if they are the same
    query, and two ECH configurations the same base64 text only if they
    are the same configuration. *)
Theorem base64_texts_injective :
  (forall a b : list byte, bytesToBase64 a = bytesToBase64 b -> a = b) /\
  (forall a b : list byte,
     bytesToBase64Url a = bytesToBase64Url b -> a = b).
Proof. split; [exact bytesToBase64_inj | exact bytesToBase64Url_inj]. Qed.

End Base64Facts.

Module QueryFacts.
Import NameCodec Wire WireFormat Executor Ascii7.

Lemma length_list_byte_of_string : forall s : string,
  List.length (list_byte_of_string s) = String.length s.
Proof.
  intros s. unfold list_byte_of_string. rewrite length_map.
  induction s as [|c s IH]; cbn; congruence.
Qed.

(** Joining what [split] gives restores the text. *)
Lemma concat_split : forall (separator : ascii) (s : string),
  String.concat (String separator EmptyString) (Js.split separator s) = s.
Proof.
  intros separator s. induction s as [|c s IH]; [reflexivity|].
  cbn [Js.split]. destruct (Ascii.eqb c separator) eqn:Hc.
  - apply Ascii.eqb_eq in Hc. subst c.
    destruct (AddressFacts.split_cons separator s) as (head & tail & Hs).
    rewrite Hs in *.
    change (String.concat (String separator EmptyString)
              (EmptyString :: head :: tail))
      with (String separator
              (String.concat (String separator EmptyString) (head :: tail))).
    now rewrite IH.
  - destruct (AddressFacts.split_cons separator s) as (head & tail & Hs).
    rewrite Hs in *. rewrite <- IH.
    destruct tail; reflexivity.
Qed.

Lemma filter_all : forall (A : Type) (p : A -> bool) (l : list A),
  (forall x, In x l -> p x = true) -> filter p l = l.
Proof.
  intros A p l. induction l as [|x l IH]; intros H; [reflexivity|].
  cbn [filter]. rewrite (H x) by now left.
  f_equal. apply IH. intros y Hy. apply H. now right.
Qed.

(** The labels of the question as the name layout has them. *)
Lemma query_name : forall (labels : list string) (rest : list byte),
  flat_map (fun label =>
              byteOf (N.of_nat (String.length label))
              :: list_byte_of_string label) labels ++ [x00] ++ rest
  = encodeName (map list_byte_of_string labels) ++ rest.
Proof.
  intros labels rest. unfold encodeName. rewrite <- app_assoc. f_equal.
  induction labels as [|label labels IH]; [reflexivity|].
  cbn [flat_map map encodeLabel app].
  now rewrite length_list_byte_of_string, IH.
Qed.

Lemma queryLabels_valid : forall domain : string,
  Forall (fun label => String.length label <= 63) (queryLabels domain) ->
  validName (map list_byte_of_string (queryLabels domain)).
Proof.
  intros domain Hshort. unfold validName. apply Forall_forall.
  intros bytes Hin. apply in_map_iff in Hin.
  destruct Hin as (label & <- & Hin).
  unfold validLabel. rewrite length_list_byte_of_string. split.
  - unfold queryLabels in Hin. apply filter_In in Hin.
    destruct Hin as [_ Hne]. destruct label; [discriminate Hne | cbn; lia].
  - rewrite Forall_forall in Hshort. now apply Hshort.
Qed.

Lemma nameText_labels : forall labels : list string,
  nameText (map list_byte_of_string labels) = String.concat "." labels.
Proof.
  intros labels. unfold nameText. f_equal. rewrite map_map.
  rewrite <- (map_id labels) at 2. apply map_ext.
  intros label. apply string_of_list_byte_of_string.
Qed.

(** *** Texts of ASCII characters: code units and bytes agree *)

Lemma ascii_unit : forall c : ascii,
  (RecordType.code c <? 128) = true ->
  (N_of_ascii c <? 192)%N = true /\ byteOf (N_of_ascii c) = byte_of_ascii c.
Proof.
  intros c.
  destruct c as [[] [] [] [] [] [] [] []]; intros H;
    first [discriminate H | split; reflexivity].
Qed.

Lemma charCodes_ascii : forall s : string,
  isAsciiText s = true ->
  map byteOf (Js.charCodes s) = list_byte_of_string s /\
  Js.length s = String.length s.
Proof.
  unfold Js.length.
  induction s as [|c s IH]; intros H; [split; reflexivity|].
  cbn [isAsciiText RecordType.all] in H. apply andb_true_iff in H.
  destruct H as [Hc Hs]. destruct (ascii_unit c Hc) as [Hlow Hbyte].
  destruct (IH Hs) as [IHbytes IHlength].
  cbn [Js.charCodes]. cbv zeta. rewrite Hlow.
  cbn [map List.length String.length]. rewrite Hbyte, IHbytes, IHlength.
  split; reflexivity.
Qed.

Lemma split_all : forall (p : ascii -> bool) (separator : ascii) (s : string),
  RecordType.all p s = true ->
  Forall (fun part => RecordType.all p part = true) (Js.split separator s).
Proof.
  intros p separator. induction s as [|c s IH]; intros H.
  - repeat constructor.
  - cbn [RecordType.all] in H. apply andb_true_iff in H.
    destruct H as [Hc Hs]. specialize (IH Hs). cbn [Js.split].
    destruct (Ascii.eqb c separator); [constructor; [reflexivity | exact IH]|].
    destruct (Js.split separator s) as [|head tail].
    + repeat constructor. cbn [RecordType.all]. now rewrite Hc.
    + inversion IH as [|? ? Hhead Htail]; subst. constructor; [|exact Htail].
      cbn [RecordType.all]. now rewrite Hc, Hhead.
Qed.

Lemma queryLabels_ascii : forall domain : string,
  isAsciiText domain = true ->
  Forall (fun label => isAsciiText label = true) (queryLabels domain).
Proof.
  intros domain H. unfold queryLabels. apply Forall_forall.
  intros label Hin. apply filter_In in Hin. destruct Hin as [Hin _].
  destruct domain as [|c domain]; [elim Hin|].
  pose proof (split_all _ "." _ H) as Hall.
  rewrite Forall_forall in Hall. now apply Hall.
Qed.

(** On labels of ASCII characters the question holds the bytes of the
    labels. *)
Lemma ascii_labels : forall labels : list string,
  Forall (fun label => isAsciiText label = true) labels ->
  flat_map (fun label =>
              byteOf (N.of_nat (Js.length label))
              :: map byteOf (Js.charCodes label)) labels
  = flat_map (fun label =>
                byteOf (N.of_nat (String.length label))
                :: list_byte_of_string label) labels.
Proof.
  intros labels H. induction H as [|label labels Hlabel _ IH];
    [reflexivity|].
  cbn [flat_map]. destruct (charCodes_ascii label Hlabel) as [-> ->].
  now rewrite IH.
Qed.

Lemma toUint16_bound : forall value, (toUint16 value < 65536)%N.
Proof.
  intros [| |q]; cbn [toUint16]; try lia.
  pose proof (Z.mod_pos_bound (Qnum q ÷ Z.pos (Qden q)) 65536) as H.
  lia.
Qed.

(** X8.  For a domain of ASCII characters whose labels have at most 63
    characters, [buildDnsQueryMessage] returns a message that the
    readers of this file read back: the identifier drawn, the flags
    0x0100, one question and no other record in the header; at offset
    twelve a name that [readDnsName] reads as the labels of the domain
    joined by dots; behind it the record type modulo 65536 and the class
    1, which end the message.  One identifier is drawn and no request is
    sent.  When no label of the domain is empty, the name read back is
    the domain itself. *)
Theorem buildDnsQueryMessage_decodes :
  forall platform (domain : string) recordType (w : World),
    isAsciiText domain = true ->
    (forall label, In label (queryLabels domain) ->
                   String.length label <= 63) ->
    exists query size,
      buildDnsQueryMessage platform domain recordType w
      = (Normal query,
         {| requests := requests w; drawn := S (drawn w) |}) /\
      getUint16 query 0
      = Normal (randomUint16 platform (drawn w) mod 65536)%N /\
      getUint16 query 2 = Normal 256%N /\
      getUint16 query 4 = Normal 1%N /\
      getUint16 query 6 = Normal 0%N /\
      getUint16 query 8 = Normal 0%N /\
      getUint16 query 10 = Normal 0%N /\
      readDnsName query 12
      = Normal {| NameCodec.name := String.concat "." (queryLabels domain);
                  NameCodec.length := size |} /\
      getUint16 query (12 + size) = Normal (toUint16 recordType) /\
      getUint16 query (12 + size + 2) = Normal 1%N /\
      List.length query = 12 + size + 4 /\
      ((forall label, In label (Js.split "." domain) ->
                      label <> EmptyString) ->
       String.concat "." (queryLabels domain) = domain).
Proof.
  intros platform domain recordType w Hascii Hshort.
  apply Forall_forall in Hshort.
  pose proof (queryLabels_ascii domain Hascii) as Hlabels.
  unfold buildDnsQueryMessage.
  destruct (find _ (queryLabels domain)) as [label|] eqn:Hfind.
  { apply find_some in Hfind. destruct Hfind as [Hin Hlong].
    apply Nat.ltb_lt in Hlong. rewrite Forall_forall in Hshort, Hlabels.
    destruct (charCodes_ascii label (Hlabels label Hin)) as [_ Hlength].
    apply Hshort in Hin. lia. }
  unfold mbind, generateRequestId, ret.
  rewrite (ascii_labels _ Hlabels), query_name.
  set (id := (randomUint16 platform (drawn w) mod 65536)%N).
  set (name := map list_byte_of_string (queryLabels domain)).
  set (query := uint16 id ++ uint16 256 ++ uint16 1 ++ uint16 0 ++ uint16 0
                ++ uint16 0 ++ encodeName name
                ++ uint16 (toUint16 recordType) ++ uint16 1).
  exists query, (List.length (encodeName name)).
  pose proof (WireFacts.occursAt_whole query) as Hat.
  unfold query in Hat at 2.
  WireFacts.split_occurs Hat. cbn [uint16 List.length Nat.add] in *.
  assert (Hid : (id < 65536)%N) by (apply N.mod_lt; discriminate).
  split; [reflexivity|].
  split; [exact (WireFacts.getUint16_uint16 _ _ _ Hat0 Hid)|].
  split; [now apply (WireFacts.getUint16_uint16 query 2 256)|].
  split; [now apply (WireFacts.getUint16_uint16 query 4 1)|].
  split; [now apply (WireFacts.getUint16_uint16 query 6 0)|].
  split; [now apply (WireFacts.getUint16_uint16 query 8 0)|].
  split; [now apply (WireFacts.getUint16_uint16 query 10 0)|].
  split.
  { rewrite (WireFacts.readDnsName_encoded name query 12 Hat6
               (queryLabels_valid domain Hshort)).
    unfold name. now rewrite nameText_labels. }
  split.
  { apply WireFacts.getUint16_uint16; [exact Hat7 | apply toUint16_bound]. }
  split.
  { apply WireFacts.getUint16_uint16; [|reflexivity].
    replace (12 + List.length (encodeName name) + 2)
      with (12 + List.length (encodeName name)
            + List.length (uint16 (toUint16 recordType))) by reflexivity.
    exact Hat. }
  split.
  { unfold query. rewrite !length_app. cbn [uint16 List.length]. lia. }
  intros Hfull. unfold queryLabels.
  destruct domain as [|c domain]; [reflexivity|].
  rewrite filter_all; [apply concat_split|].
  intros label Hin. apply Hfull in Hin.
  destruct label; [now elim Hin | reflexivity].
Qed.

Lemma buildDnsQueryMessage_decodes_witness :
  exists query size,
    buildDnsQueryMessage examplePlatform "example.com"
      (RecordType.Finite 65) emptyWorld
    = (Normal query, {| requests := []; drawn := 1 |}) /\
    getUint16 query 0 = Normal 43981%N /\
    getUint16 query 2 = Normal 256%N /\
    getUint16 query 4 = Normal 1%N /\
    getUint16 query 6 = Normal 0%N /\
    getUint16 query 8 = Normal 0%N /\
    getUint16 query 10 = Normal 0%N /\
    readDnsName query 12
    = Normal {| NameCodec.name := "example.com"; NameCodec.length := size |} /\
    getUint16 query (12 + size) = Normal 65%N /\
    getUint16 query (12 + size + 2) = Normal 1%N /\
    List.length query = 12 + size + 4 /\
    ((forall label, In label ["example"; "com"] -> label <> EmptyString) ->
     "example.com" = "example.com").
Proof.
  apply (buildDnsQueryMessage_decodes examplePlatform "example.com"
           (RecordType.Finite 65) emptyWorld).
  - reflexivity.
  - intros label [<- | [<- | []]]; cbn; lia.
Defined.

End QueryFacts.

Module UrlFacts.
Import Executor UrlQuery.

Lemma filter_none : forall (A : Type) (p : A -> bool) (l : list A),
  filter p (filter (fun x => negb (p x)) l) = [].
Proof.
  intros A p l. induction l as [|x l IH]; [reflexivity|].
  cbn [filter]. destruct (p x) eqn:Hx; cbn [negb filter]; [exact IH|].
  now rewrite Hx.
Qed.

Lemma getAll_set : forall (name value : string) (url : Url),
  getAll name (searchParams_set name value url) = [value].
Proof.
  intros name value url. unfold getAll, searchParams_set.
  cbn [searchParams].
  induction (searchParams url) as [|[n v] rest IH]; cbn [setParam].
  - cbn. now rewrite String.eqb_refl.
  - destruct (String.eqb n name) eqn:Hn.
    + cbn [filter fst]. rewrite String.eqb_refl.
      rewrite (filter_none _ (fun entry => String.eqb (fst entry) name)).
      reflexivity.
    + cbn [filter fst]. rewrite Hn. exact IH.
Qed.

Lemma filter_set : forall (p : string * string -> bool) (name value : string)
                          (entries : list (string * string)),
  (forall v, p (name, v) = false) ->
  filter p (setParam name value entries) = filter p entries.
Proof.
  intros p name value entries Hp.
  induction entries as [|[n v] rest IH]; cbn [setParam].
  - cbn. now rewrite Hp.
  - destruct (String.eqb n name) eqn:Hn.
    + apply String.eqb_eq in Hn. subst n. cbn [filter]. rewrite !Hp.
      clear IH. induction rest as [|[n v'] rest IH]; [reflexivity|].
      cbn [filter fst]. destruct (String.eqb n name) eqn:Hn; cbn [negb].
      * apply String.eqb_eq in Hn. subst n. now rewrite Hp.
      * cbn [filter]. now rewrite IH.
    + cbn [filter]. now rewrite IH.
Qed.

Lemma filter_delete : forall (p : string * string -> bool) (name : string)
                             (entries : list (string * string)),
  (forall v, p (name, v) = false) ->
  filter p (filter (fun entry => negb (String.eqb (fst entry) name)) entries)
  = filter p entries.
Proof.
  intros p name entries Hp.
  induction entries as [|[n v] rest IH]; [reflexivity|].
  cbn [filter fst]. destruct (String.eqb n name) eqn:Hn; cbn [negb].
  - apply String.eqb_eq in Hn. subst n. now rewrite Hp.
  - cbn [filter]. now rewrite IH.
Qed.

Lemma getAll_set_other : forall (name other value : string) (url : Url),
  String.eqb other name = false ->
  getAll name (searchParams_set other value url) = getAll name url.
Proof.
  intros name other value url Hne. unfold getAll, searchParams_set.
  cbn [searchParams]. f_equal. apply filter_set. intros v. exact Hne.
Qed.

Lemma others_set : forall (names : list string) (name value : string)
                          (url : Url),
  existsb (String.eqb name) names = true ->
  others names (searchParams_set name value url) = others names url.
Proof.
  intros names name value url Hin. unfold others, searchParams_set.
  cbn [searchParams]. apply filter_set. intros v. cbn [fst].
  now rewrite Hin.
Qed.

Lemma getAll_delete : forall (name : string) (url : Url),
  getAll name (searchParams_delete name url) = [].
Proof.
  intros name url. unfold getAll, searchParams_delete. cbn [searchParams].
  now rewrite (filter_none _ (fun entry => String.eqb (fst entry) name)).
Qed.

Lemma getAll_delete_other : forall (name other : string) (url : Url),
  String.eqb other name = false ->
  getAll name (searchParams_delete other url) = getAll name url.
Proof.
  intros name other url Hne. unfold getAll, searchParams_delete.
  cbn [searchParams]. f_equal. apply filter_delete. intros v. exact Hne.
Qed.

Lemma others_delete : forall (names : list string) (name : string) (url : Url),
  existsb (String.eqb name) names = true ->
  others names (searchParams_delete name url) = others names url.
Proof.
  intros names name url Hin. unfold others, searchParams_delete.
  cbn [searchParams]. apply filter_delete. intros v. cbn [fst].
  now rewrite Hin.
Qed.

(** X9.  The URL of a JSON-mode request has the parameters [name] and
    [type] once each, with the values given.  Whenever the URL of a
    wire-mode request is built, the record type and the name were
    accepted, and the URL has the parameter [dns] once, with the
    base64url text of the query built for them, and no [name] or
    [type].  In both, the other parameters of the endpoint, its host
    and the rest of it are kept as they are. *)
Theorem buildDohUrl_parameters :
  (forall platform (endpoint name type : string) (parsed : Url),
     newURL platform endpoint = fulfilled parsed ->
     exists url,
       buildDohJsonUrl platform endpoint name type = Normal url /\
       getAll "name" url = [name] /\
       getAll "type" url = [type] /\
       others ["name"; "type"] url = others ["name"; "type"] parsed /\
       base url = base parsed /\ hostname url = hostname parsed)
  /\
  (forall platform (endpoint name type : string) (w w' : World) (url : Url),
     buildDohWireUrl platform endpoint name type w = (Normal url, w') ->
     exists parsed recordType host query,
       newURL platform endpoint = fulfilled parsed /\
       RecordType.recordTypeToNumber type = Normal recordType /\
       normalizeDomain platform name = Normal host /\
       buildDnsQueryMessage platform host recordType w = (Normal query, w') /\
       getAll "dns" url = [Text.bytesToBase64Url query] /\
       getAll "name" url = [] /\
       getAll "type" url = [] /\
       others ["name"; "type"; "dns"] url
       = others ["name"; "type"; "dns"] parsed /\
       base url = base parsed /\ hostname url = hostname parsed).
Proof.
  split.
  - intros platform endpoint name type parsed Hparsed.
    unfold buildDohJsonUrl, newUrl. rewrite Hparsed. cbn [await bind].
    eexists. split; [reflexivity|].
    rewrite getAll_set_other, !getAll_set by reflexivity.
    rewrite !others_set by reflexivity.
    repeat split.
  - intros platform endpoint name type w w' url.
    unfold buildDohWireUrl, mbind, lift, ret.
    destruct (RecordType.recordTypeToNumber type) as [recordType|m|];
      [ | discriminate | discriminate].
    destruct (normalizeDomain platform name) as [host|m|];
      [ | discriminate | discriminate].
    destruct (buildDnsQueryMessage platform host recordType w)
      as [[query|m|] w1] eqn:Hquery; [ | discriminate | discriminate].
    unfold newUrl.
    destruct (newURL platform endpoint) as [parsed|m]; cbn [await];
      [ | discriminate].
    intros H. injection H as <- <-.
    exists parsed, recordType, host, query.
    rewrite getAll_set.
    rewrite !getAll_set_other, getAll_delete_other, !getAll_delete
      by reflexivity.
    rewrite others_set, !others_delete by reflexivity.
    repeat split. exact Hquery.
Qed.

End UrlFacts.

Module AttemptFacts.
Import Executor.

(** What [performDohRequest] makes of a response. *)
Lemma decodeDohResponse_outcome :
  forall extractIpsFromAnswer mode latency_ms response (w : World),
    (exists r,
       decodeDohResponse extractIpsFromAnswer mode latency_ms response w
       = (Normal r, w) /\
       Doh.mode r = mode /\
       Doh.status (Doh.base r) = Some (status response) /\
       Doh.latency_ms (Doh.base r) = Some latency_ms /\
       (Doh.ok (Doh.base r) = true ->
        ok response = true /\ Doh.ips (Doh.base r) <> [] /\
        Doh.error (Doh.base r) = None /\
        (Doh.response_format (Doh.base r) = Some FormatJson
         \/ Doh.response_format (Doh.base r) = Some FormatWire)) /\
       (Doh.ok (Doh.base r) = false ->
        exists e, Doh.error (Doh.base r) = Some e))
    \/ (exists m,
          decodeDohResponse extractIpsFromAnswer mode latency_ms response w
          = (Thrown m, w)).
Proof.
  intros extract mode latency_ms response w. unfold decodeDohResponse.
  destruct (isJsonContentType (contentType response));
    [|destruct (isTextContentType (contentType response))];
    unfold tryCatch, mbind, lift, ret.
  - left. destruct (json response) as [body|m]; cbn [await].
    + eexists. split; [reflexivity|].
      cbn [Doh.mode Doh.base Doh.ok Doh.ips Doh.error Doh.status
           Doh.latency_ms Doh.response_format].
      repeat split; try (intros H; rewrite H; eauto; fail).
      * apply andb_true_iff in H. tauto.
      * apply andb_true_iff in H.
        apply ExecutorFacts.positive_length, H.
      * now rewrite H.
      * now left.
    + eexists. split; [reflexivity|].
      cbn. repeat split; try discriminate. eauto.
  - destruct (text response) as [body|m]; cbn [await]; [left | eauto].
    eexists. split; [reflexivity|].
    cbn [Doh.mode Doh.base Doh.ok Doh.ips Doh.error Doh.status
         Doh.latency_ms Doh.response_format].
    repeat split; try discriminate. eauto.
  - destruct (arrayBuffer response) as [buffer|m]; cbn [await]; [left | eauto].
    pose proof (WireTermination.extractIpsFromDnsMessage_finishes buffer) as H.
    destruct (Wire.extractIpsFromDnsMessage buffer) as [ips|m|];
      [ | | now elim H].
    + eexists. split; [reflexivity|].
      cbn [Doh.mode Doh.base Doh.ok Doh.ips Doh.error Doh.status
           Doh.latency_ms Doh.response_format].
      repeat split; try (intros H0; rewrite H0; eauto; fail).
      * apply andb_true_iff in H0. tauto.
      * apply andb_true_iff in H0.
        apply ExecutorFacts.positive_length, H0.
      * now rewrite H0.
      * now right.
    + eexists. split; [reflexivity|].
      cbn. repeat split; try discriminate. eauto.
Qed.

(** X10.  [performDohRequest] never throws and reports the mode it was
    called with.  A successful result has a status between 200 and 299,
    a latency, no error, at least one address and the format json or
    wire, and exactly one request was sent for it.  A failed result has
    an error.  A result without status is a failure with no address, no
    latency, no content type, no raw body and the format unknown. *)
Theorem performDohRequest_outcome :
  forall platform extractIpsFromAnswer endpoint name recordType timeout mode
         (w : World),
    exists r w',
      performDohRequest platform extractIpsFromAnswer endpoint name recordType
        timeout mode w
      = (Normal r, w') /\
      Doh.mode r = mode /\
      (Doh.ok (Doh.base r) = true ->
       (exists s, Doh.status (Doh.base r) = Some s /\ (200 <= s <= 299)%Z) /\
       (exists l, Doh.latency_ms (Doh.base r) = Some l) /\
       Doh.error (Doh.base r) = None /\
       Doh.ips (Doh.base r) <> [] /\
       (Doh.response_format (Doh.base r) = Some FormatJson
        \/ Doh.response_format (Doh.base r) = Some FormatWire) /\
       exists request, requests w' = requests w ++ [request]) /\
      (Doh.ok (Doh.base r) = false ->
       exists e, Doh.error (Doh.base r) = Some e) /\
      (Doh.status (Doh.base r) = None ->
       Doh.ok (Doh.base r) = false /\
       Doh.ips (Doh.base r) = [] /\
       Doh.latency_ms (Doh.base r) = None /\
       Doh.response_format (Doh.base r) = Some FormatUnknown /\
       Doh.content_type (Doh.base r) = None /\
       Doh.raw (Doh.base r) = None).
Proof.
  intros platform extract endpoint name recordType timeout mode w.
  assert (Hfailure : forall m w',
            exists r w'',
              (Normal (dohFailure mode m), w') = (Normal r, w'') /\
              Doh.mode r = mode /\
              (Doh.ok (Doh.base r) = true ->
               (exists s, Doh.status (Doh.base r) = Some s
                          /\ (200 <= s <= 299)%Z) /\
               (exists l, Doh.latency_ms (Doh.base r) = Some l) /\
               Doh.error (Doh.base r) = None /\
               Doh.ips (Doh.base r) <> [] /\
               (Doh.response_format (Doh.base r) = Some FormatJson
                \/ Doh.response_format (Doh.base r) = Some FormatWire) /\
               exists request, requests w'' = requests w ++ [request]) /\
              (Doh.ok (Doh.base r) = false ->
               exists e, Doh.error (Doh.base r) = Some e) /\
              (Doh.status (Doh.base r) = None ->
               Doh.ok (Doh.base r) = false /\
               Doh.ips (Doh.base r) = [] /\
               Doh.latency_ms (Doh.base r) = None /\
               Doh.response_format (Doh.base r) = Some FormatUnknown /\
               Doh.content_type (Doh.base r) = None /\
               Doh.raw (Doh.base r) = None)).
  { intros m w'. do 2 eexists. split; [reflexivity|]. cbn.
    repeat split; try discriminate. eauto. }
  unfold performDohRequest, mbind, attempt.
  destruct (ExecutorFacts.buildUrl_cases platform mode endpoint name
              recordType w)
    as (w1 & Hsame & [[url ->] | [m ->]]); [|apply Hfailure].
  unfold tryCatch, mbind, doFetch.
  destruct (fetch platform (requests w1) _) as [latency_ms response|m];
    [|apply Hfailure].
  match goal with
  | |- context [decodeDohResponse ?e ?m ?l ?r ?w] =>
    destruct (decodeDohResponse_outcome e m l r w)
      as [(r' & -> & Hmode & Hstatus & Hlatency & Hok & Hnot) | (m' & ->)]
  end; [|apply Hfailure].
  unfold ret. do 2 eexists. split; [reflexivity|].
  split; [exact Hmode|]. split; [|split; [exact Hnot|]].
  - intros H. destruct (Hok H) as (Hresponse & Hips & Herror & Hformat).
    split.
    { exists (status response). split; [exact Hstatus|].
      unfold ok in Hresponse. apply andb_true_iff in Hresponse.
      destruct Hresponse as [Hlow Hhigh].
      apply Z.leb_le in Hlow, Hhigh. lia. }
    split; [eauto|]. split; [exact Herror|]. split; [exact Hips|].
    split; [exact Hformat|].
    eexists. cbn [requests]. rewrite Hsame. reflexivity.
  - rewrite Hstatus. discriminate.
Qed.

(** X11.  In JSON mode nothing is checked before the request is sent:
    whenever the endpoint is a URL, one request goes out with the name
    and the record type as they were given.  In wire mode a record type
    that [recordTypeToNumber] refuses and a name that is blank end the
    attempt with that error, and no request is sent and no identifier
    drawn. *)
Theorem performDohRequest_validation :
  (forall platform extractIpsFromAnswer endpoint name recordType timeout
          (w : World) (parsed : Url),
     newURL platform endpoint = fulfilled parsed ->
     exists r w',
       performDohRequest platform extractIpsFromAnswer endpoint name
         recordType timeout ModeJson w
       = (Normal r, w') /\
       requests w'
       = requests w
         ++ [ {| url := searchParams_set "type" recordType
                          (searchParams_set "name" name parsed);
                 accept := "application/dns-json";
                 timeout := timeout |} ])
  /\
  (forall platform extractIpsFromAnswer endpoint name recordType timeout
          (w : World) (m : string),
     RecordType.recordTypeToNumber recordType = Thrown m ->
     performDohRequest platform extractIpsFromAnswer endpoint name recordType
       timeout ModeWire w
     = (Normal (dohFailure ModeWire m), w))
  /\
  (forall platform extractIpsFromAnswer endpoint name recordType timeout
          (w : World) (n : RecordType.JsNumber),
     RecordType.recordTypeToNumber recordType = Normal n ->
     RecordType.trim name = EmptyString ->
     performDohRequest platform extractIpsFromAnswer endpoint name recordType
       timeout ModeWire w
     = (Normal (dohFailure ModeWire "域名不能为空。"), w)).
Proof.
  split; [|split].
  - intros platform extract endpoint name recordType timeout w parsed Hparsed.
    unfold performDohRequest, mbind, attempt, buildUrl, lift,
      buildDohJsonUrl, newUrl.
    rewrite Hparsed. cbn [await bind].
    unfold tryCatch, mbind, doFetch. cbn [acceptHeader].
    destruct (fetch platform (requests w) _) as [latency_ms response|m].
    + match goal with
      | |- context [decodeDohResponse ?e ?m ?l ?r ?w] =>
        destruct (ExecutorFacts.decodeDohResponse_cases e m l r w)
          as [(r' & -> & _) | (m' & ->)]
      end; unfold ret; do 2 eexists; split; reflexivity.
    + unfold ret. do 2 eexists. split; reflexivity.
  - intros platform extract endpoint name recordType timeout w m Htype.
    unfold performDohRequest, mbind, attempt, buildUrl, buildDohWireUrl,
      mbind, lift.
    rewrite Htype. reflexivity.
  - intros platform extract endpoint name recordType timeout w n Htype Hblank.
    unfold performDohRequest, mbind, attempt, buildUrl, buildDohWireUrl,
      mbind, lift, normalizeDomain.
    rewrite Htype, Hblank. reflexivity.
Qed.

Lemma performDohRequest_validation_witness :
  exists r w',
    performDohRequest examplePlatform exampleExtractIps
      "https://dns.example/dns-query" " " "TXT" 5000%Z ModeJson emptyWorld
    = (Normal r, w') /\
    map accept (requests w') = ["application/dns-json"] /\
    performDohRequest examplePlatform exampleExtractIps
      "https://dns.example/dns-query" " " "TXT" 5000%Z ModeWire emptyWorld
    = (Normal (dohFailure ModeWire "不支持的 DNS 记录类型: TXT"), emptyWorld) /\
    performDohRequest examplePlatform exampleExtractIps
      "https://dns.example/dns-query" " " "A" 5000%Z ModeWire emptyWorld
    = (Normal (dohFailure ModeWire "域名不能为空。"), emptyWorld).
Proof.
  destruct performDohRequest_validation as (Hjson & Htype & Hblank).
  destruct (Hjson examplePlatform exampleExtractIps
              "https://dns.example/dns-query" " " "TXT" 5000%Z emptyWorld
              _ eq_refl)
    as (r & w' & Hrun & Hrequests).
  exists r, w'. split; [exact Hrun|]. split; [now rewrite Hrequests|]. split.
  - apply Htype. reflexivity.
  - eapply Hblank; reflexivity.
Defined.

(** What [performHttpsRequest] makes of a response. *)
Lemma decodeHttpsResponse_outcome :
  forall extractHttpsRecord mode latency_ms response (w : World),
    (exists r,
       decodeHttpsResponse extractHttpsRecord mode latency_ms response w
       = (Normal r, w) /\
       Ech.attempted_formats r = [mode] /\
       (Ech.found r = true ->
        Ech.error r = None /\ Js.truthy (Ech.record r) = true) /\
       (Ech.found r = false -> exists e, Ech.error r = Some e))
    \/ (exists m,
          decodeHttpsResponse extractHttpsRecord mode latency_ms response w
          = (Thrown m, w)).
Proof.
  intros extract mode latency_ms response w. unfold decodeHttpsResponse.
  destruct (isJsonContentType (contentType response));
    [|destruct (isTextContentType (contentType response))];
    unfold tryCatch, mbind, lift, ret.
  - left. destruct (json response) as [body|m]; cbn [await].
    + eexists. split; [reflexivity|].
      cbn [Ech.attempted_formats Ech.found Ech.error Ech.record].
      split; [reflexivity|].
      destruct (extract body) as [text|]; cbn [Js.truthy].
      * split; intros H; rewrite H; [|eauto].
        split; [reflexivity|]. apply andb_true_iff in H. tauto.
      * split; [discriminate | eauto].
    + eexists. split; [reflexivity|]. cbn.
      split; [reflexivity|]. split; [discriminate | eauto].
  - destruct (text response) as [body|m]; cbn [await]; [left | eauto].
    eexists. split; [reflexivity|].
    cbn [Ech.attempted_formats Ech.found Ech.error Ech.record].
    split; [reflexivity|]. split; [discriminate | eauto].
  - destruct (arrayBuffer response) as [buffer|m]; cbn [await]; [left | eauto].
    destruct (HttpsLookupFacts.findHttpsRecord_result buffer)
      as (lookup & -> & Hlookup).
    eexists. split; [reflexivity|].
    cbn [Ech.attempted_formats Ech.found Ech.error Ech.record].
    split; [reflexivity|]. split.
    + intros Hfound. rewrite Hfound in *. split; [reflexivity|].
      destruct (Wire.error lookup) as [e|].
      * destruct Hlookup as [Hno _]. discriminate Hno.
      * destruct Hlookup
          as (_ & text & -> & middle & [-> | (first & last & _ & ->)]);
          reflexivity.
    + intros ->. eauto.
Qed.

Lemma performHttpsRequest_outcome :
  forall platform extractHttpsRecord endpoint domain timeout mode (w : World),
    exists r w',
      performHttpsRequest platform extractHttpsRecord endpoint domain timeout
        mode w
      = (Normal r, w') /\
      Ech.attempted_formats r = [mode] /\
      (Ech.found r = true ->
       Ech.error r = None /\ Js.truthy (Ech.record r) = true) /\
      (Ech.found r = false -> exists e, Ech.error r = Some e).
Proof.
  intros platform extract endpoint domain timeout mode w.
  assert (Hfailure : forall m (w' : World),
            exists r (w'' : World),
              (Normal (echFailure mode m), w') = (Normal r, w'') /\
              Ech.attempted_formats r = [mode] /\
              (Ech.found r = true ->
               Ech.error r = None /\ Js.truthy (Ech.record r) = true) /\
              (Ech.found r = false -> exists e, Ech.error r = Some e)).
  { intros m w'. do 2 eexists. split; [reflexivity|]. cbn.
    split; [reflexivity|]. split; [discriminate | eauto]. }
  unfold performHttpsRequest, mbind, attempt.
  destruct (ExecutorFacts.buildUrl_cases platform mode endpoint domain
              (Text.decimal Wire.HTTPS_RECORD_TYPE) w)
    as (w1 & Hsame & [[url ->] | [m ->]]); [|apply Hfailure].
  unfold tryCatch, mbind, doFetch.
  destruct (fetch platform (requests w1) _) as [latency_ms response|m];
    [|apply Hfailure].
  match goal with
  | |- context [decodeHttpsResponse ?e ?m ?l ?r ?w] =>
    destruct (decodeHttpsResponse_outcome e m l r w)
      as [(r' & -> & Hformats & Hfound & Hnot) | (m' & ->)]
  end; [|apply Hfailure].
  unfold ret. eauto 6.
Qed.

Lemma joined_nonempty : forall (errors : list (option string)) (default : string),
  default <> EmptyString ->
  match Js.filterTruthy errors with
  | [] => default
  | _ => String.concat " | " (Js.filterTruthy errors)
  end <> EmptyString.
Proof.
  intros errors default Hdefault.
  destruct (Js.filterTruthy errors) as [|e rest] eqn:Herrors;
    [exact Hdefault|].
  assert (He : e <> EmptyString).
  { assert (Hin : In e (Js.filterTruthy errors))
      by (rewrite Herrors; now left).
    unfold Js.filterTruthy in Hin. apply in_flat_map in Hin.
    destruct Hin as ([[|c s]|] & _ & Hin); cbn in Hin; try tauto.
    destruct Hin as [<- | []]. discriminate. }
  destruct e as [|c s]; [congruence|].
  destruct rest; discriminate.
Qed.

Lemma joined_truthy : forall (errors : list (option string)) (default : string),
  default <> EmptyString ->
  Js.truthy
    (Some match Js.filterTruthy errors with
          | [] => default
          | _ => String.concat " | " (Js.filterTruthy errors)
          end) = true.
Proof.
  intros errors default Hdefault.
  pose proof (joined_nonempty errors default Hdefault) as Hne.
  cbn [Js.truthy].
  destruct (match Js.filterTruthy errors with [] => _ | _ => _ end);
    [now elim Hne | reflexivity].
Qed.

(** X12.  [fetchHttpsRecord] never throws.  A result that reports a
    record as found has no error, a record text that is not empty, and
    one attempted format, json or wire.  A result that reports none has
    an error that is not empty and both formats attempted, json
    first. *)
Theorem fetchHttpsRecord_outcome :
  forall platform extractHttpsRecord endpoint domain timeout (w : World),
    exists r w',
      fetchHttpsRecord platform extractHttpsRecord endpoint domain timeout w
      = (Normal r, w') /\
      (Ech.found r = true ->
       Ech.error r = None /\ Js.truthy (Ech.record r) = true /\
       (Ech.attempted_formats r = [ModeJson]
        \/ Ech.attempted_formats r = [ModeWire])) /\
      (Ech.found r = false ->
       Js.truthy (Ech.error r) = true /\
       Ech.attempted_formats r = [ModeJson; ModeWire]).
Proof.
  intros platform extract endpoint domain timeout w.
  destruct (performHttpsRequest_outcome platform extract endpoint domain
              timeout ModeJson w)
    as (jsonAttempt & w1 & Hjson & Hjf & Hjfound & Hjnot).
  unfold fetchHttpsRecord, mbind. rewrite Hjson.
  destruct (Ech.found jsonAttempt) eqn:Hj.
  { unfold ret. do 2 eexists. split; [reflexivity|]. rewrite Hj.
    split; [|discriminate]. intros _.
    destruct (Hjfound eq_refl). auto. }
  destruct (performHttpsRequest_outcome platform extract endpoint domain
              timeout ModeWire w1)
    as (wireAttempt & w2 & Hwire & Hwf & Hwfound & Hwnot).
  rewrite Hwire.
  destruct (Ech.found wireAttempt) eqn:Hw.
  { unfold ret. do 2 eexists. split; [reflexivity|]. rewrite Hw.
    split; [|discriminate]. intros _.
    destruct (Hwfound eq_refl). auto. }
  cbn [app]. unfold Ech.combineEchFailures.
  cbn [Js.lastItem List.length Nat.sub nth_error].
  unfold ret. do 2 eexists. split; [reflexivity|].
  cbn [Ech.found Ech.error Ech.attempted_formats existsb map flat_map].
  rewrite Hj, Hw, Hjf, Hwf. split; [discriminate|]. intros _. split.
  - apply (joined_truthy [Ech.error jsonAttempt; Ech.error wireAttempt]).
    discriminate.
  - reflexivity.
Qed.

End AttemptFacts.

Module SettingsFacts.
Import RecordType Settings.

(** X13.  The timeout that [resolveTimeout] returns is always a finite
    number above zero.  It is the default of 5000 when the setting is
    absent or empty and when the setting is not read as a finite number
    above zero.  Of a setting of decimal digits: a positive integer of
    at most 2^53 is taken as that number, a greater one below the
    magnitude at which doubles overflow as the double nearest to it,
    and zero or an integer from that magnitude on gives the default. *)
Theorem resolveTimeout_positive : forall timeoutSetting : option string,
  isFinite (resolveTimeout timeoutSetting)
  && greaterThanZero (resolveTimeout timeoutSetting) = true /\
  (Js.truthy timeoutSetting = false ->
   resolveTimeout timeoutSetting = DEFAULT_TIMEOUT_MS) /\
  (forall text,
     timeoutSetting = Some text ->
     isFinite (Number text) && greaterThanZero (Number text) = false ->
     resolveTimeout timeoutSetting = DEFAULT_TIMEOUT_MS) /\
  (forall text,
     timeoutSetting = Some text ->
     run isDigit text = true ->
     let n := Z.of_N (numeral 10 text 0) in
     ((0 < n <= 2 ^ 53)%Z ->
      resolveTimeout timeoutSetting = Finite (inject_Z n)) /\
     ((0 < n < OVERFLOW)%Z ->
      resolveTimeout timeoutSetting
      = Finite (nearestDouble (inject_Z n))) /\
     ((n = 0 \/ OVERFLOW <= n)%Z ->
      resolveTimeout timeoutSetting = DEFAULT_TIMEOUT_MS)).
Proof.
  intros timeoutSetting. unfold resolveTimeout.
  split; [|split; [|split]].
  - destruct (Js.truthy timeoutSetting); cbn [negb]; [|reflexivity].
    destruct timeoutSetting as [text|]; [|reflexivity].
    destruct (isFinite (Number text) && greaterThanZero (Number text))
      eqn:Hparsed; [exact Hparsed | reflexivity].
  - now intros ->.
  - intros text -> Hbad. rewrite Hbad. now destruct (Js.truthy (Some text)).
  - intros text -> Hrun. set (n := Z.of_N (numeral 10 text 0)).
    assert (Htruthy : Js.truthy (Some text) = true)
      by (destruct text; [discriminate Hrun | reflexivity]).
    rewrite Htruthy. cbn [negb].
    rewrite (RecordTypeFacts.Number_digits _ Hrun).
    assert (Hrounded : (0 < n < OVERFLOW)%Z ->
              (if isFinite (toNumber false (numeral 10 text 0) 0)
                  && greaterThanZero (toNumber false (numeral 10 text 0) 0)
               then toNumber false (numeral 10 text 0) 0
               else DEFAULT_TIMEOUT_MS)
              = Finite (nearestDouble (inject_Z n))).
    { intros [Hpos Hmax].
      rewrite RecordTypeFacts.toNumber_integer_rounded
        by (unfold n in *; lia).
      fold n. rewrite RecordTypeFacts.positive_number; [reflexivity|].
      now apply RecordTypeFacts.nearestDouble_integer_positive. }
    split; [|split].
    + intros [Hpos Hmax].
      assert (Hbelow : (2 ^ 53 < OVERFLOW)%Z) by reflexivity.
      rewrite Hrounded by lia.
      now rewrite RecordTypeFacts.nearestDouble_integer by lia.
    + exact Hrounded.
    + intros [Hzero | Hover].
      * assert (Hn : numeral 10 text 0 = 0%N) by (unfold n in *; lia).
        rewrite Hn. reflexivity.
      * now rewrite RecordTypeFacts.toNumber_integer_overflow.
Qed.

Lemma resolveTimeout_positive_witness :
  resolveTimeout (Some "2500") = Finite (inject_Z 2500) /\
  resolveTimeout (Some "-1") = DEFAULT_TIMEOUT_MS /\
  resolveTimeout (Some EmptyString) = DEFAULT_TIMEOUT_MS.
Proof.
  split; [|split].
  - destruct (proj2 (proj2 (proj2 (resolveTimeout_positive (Some "2500"))))
                "2500" eq_refl eq_refl) as (Hexact & _ & _).
    apply Hexact. vm_compute. split; [reflexivity | discriminate].
  - apply (proj1 (proj2 (proj2 (resolveTimeout_positive (Some "-1"))))
             "-1"); reflexivity.
  - apply (proj1 (proj2 (resolveTimeout_positive (Some EmptyString)))).
    reflexivity.
Defined.

End SettingsFacts.

Module JsonAnswersFacts.
Import JsonAnswers.

Lemma addAnswer_add : forall (seen : list string) (answer : Value),
  addAnswer seen answer
  = fold_left (Js.add String.eqb)
      (if isObject answer then answerAddress answer else []) seen.
Proof.
  intros seen answer. unfold addAnswer, answerAddress.
  destruct (isObject answer); cbn [negb]; [|reflexivity].
  destruct (member "data" answer) as [[| | |data| |]|]; try reflexivity.
  destruct (Address.isIpAddress data); reflexivity.
Qed.

Lemma fold_addAnswer : forall (answers : list Value) (seen : list string),
  fold_left addAnswer answers seen
  = fold_left (Js.add String.eqb)
      (flat_map (fun answer =>
                   if isObject answer then answerAddress answer else [])
         answers) seen.
Proof.
  induction answers as [|answer answers IH]; intros seen; [reflexivity|].
  cbn [fold_left flat_map]. rewrite fold_left_app, <- addAnswer_add.
  apply IH.
Qed.

(** X14.  [extractIpsFromAnswer] returns each address once, and every
    text it returns passes [isIpAddress].  A text is returned exactly
    when the body is an object whose member [Answer] is an array with
    an object among its items whose member [data] is that text as a
    string, and the text passes [isIpAddress]; every other body gives no
    address, and none makes the function throw. *)
Theorem extractIpsFromAnswer_addresses : forall json : Value,
  NoDup (extractIpsFromAnswer json) /\
  Forall (fun ip => Address.isIpAddress ip = true)
    (extractIpsFromAnswer json) /\
  (forall ip : string,
     In ip (extractIpsFromAnswer json) <->
     exists answers answer,
       member "Answer" json = Some (JArray answers) /\
       In answer answers /\
       member "data" answer = Some (JString ip) /\
       Address.isIpAddress ip = true).
Proof.
  intros json.
  assert (Hin : forall ip : string,
     In ip (extractIpsFromAnswer json) <->
     exists answers answer,
       member "Answer" json = Some (JArray answers) /\
       In answer answers /\
       member "data" answer = Some (JString ip) /\
       Address.isIpAddress ip = true).
  { intros ip. unfold extractIpsFromAnswer, extractAnswerArray.
    destruct json as [| | | | items|members]; cbn [isObject negb member];
      try (split; [intros [] | intros (? & ? & H & _); discriminate H]).
    destruct (option_map snd _) as [[| | | |answers|]|] eqn:Hanswer;
      try (split; [intros [] | intros (? & ? & H & _); discriminate H]).
    rewrite fold_addAnswer.
    change (fold_left (Js.add String.eqb) ?l [])
      with (Js.newSet String.eqb l).
    rewrite JsFacts.newSet_In, in_flat_map. split.
    - intros (answer & Hanswers & Hip). exists answers, answer.
      split; [reflexivity|]. split; [exact Hanswers|].
      destruct (isObject answer); [|destruct Hip].
      unfold answerAddress in Hip.
      destruct (member "data" answer) as [[| | |data| |]|];
        try destruct Hip.
      destruct (Address.isIpAddress data) eqn:Hdata; [|destruct Hip].
      destruct Hip as [<- | []]. auto.
    - intros (answers' & answer & Heq & Hanswers & Hdata & Hip).
      injection Heq as <-. exists answer. split; [exact Hanswers|].
      assert (Hobject : isObject answer = true).
      { destruct answer; try discriminate Hdata; reflexivity. }
      rewrite Hobject. unfold answerAddress. rewrite Hdata, Hip. now left. }
  split; [|split; [|exact Hin]].
  - unfold extractIpsFromAnswer.
    destruct (extractAnswerArray json) as [answers|]; [|constructor].
    rewrite fold_addAnswer. apply JsFacts.newSet_NoDup.
  - apply Forall_forall. intros ip Hip. apply Hin in Hip.
    destruct Hip as (_ & _ & _ & _ & _ & Hip). exact Hip.
Qed.

End JsonAnswersFacts.

Module EchConfigFacts.
Import RecordType EchConfig.

Example parse_unquoted :
  parseEchFromRecordString "1 . alpn=h2 ech=AEX+DQBBpQAgACB"
  = Some "AEX+DQBBpQAgACB".
Proof. reflexivity. Qed.

Example parse_wire_description :
  parseEchFromRecordString
    "priority=1 target=. params=[key5(2B)] echconfig(base64)=3q0="
  = Some "3q0=".
Proof. reflexivity. Qed.

Example parse_cut_at_s :
  parseEchFromRecordString "1 . ech=AEXsAQ== alpn=h2" = Some "AEX".
Proof. reflexivity. Qed.

Lemma span_run : forall (p : ascii -> bool) (value rest : string),
  all p value = true ->
  (rest = EmptyString
   \/ exists c rest', rest = String c rest' /\ p c = false) ->
  span p (value ++ rest) = (value, rest).
Proof.
  intros p value rest. induction value as [|c value IH]; intros Hall Hend.
  - cbn [append]. destruct Hend as [-> | (c & rest' & -> & Hc)];
      [reflexivity|]. cbn [span]. now rewrite Hc.
  - cbn in Hall. apply andb_true_iff in Hall. destruct Hall as [Hc Hall].
    cbn [append span]. now rewrite Hc, (IH Hall Hend).
Qed.

Lemma matchValue_run : forall value rest : string,
  run unescaped value = true ->
  String.get 0 value <> Some QUOTE ->
  endsValue rest ->
  matchValue (value ++ rest) = Some value.
Proof.
  intros value rest Hrun Hfirst Hend.
  destruct value as [|c value]; [discriminate Hrun|].
  unfold matchValue. cbn [append].
  assert (Hc : Ascii.eqb c QUOTE = false).
  { apply Ascii.eqb_neq. intros ->. now apply Hfirst. }
  rewrite Hc.
  change (String c (value ++ rest)) with (String c value ++ rest)%string.
  rewrite (span_run unescaped (String c value) rest Hrun Hend).
  reflexivity.
Qed.

Lemma matchHere_value : forall value rest : string,
  run unescaped value = true ->
  String.get 0 value <> Some QUOTE ->
  endsValue rest ->
  matchHere ("ech=" ++ value ++ rest) = Some value /\
  matchHere ("echconfig(base64)=" ++ value ++ rest) = Some value.
Proof.
  intros value rest Hrun Hfirst Hend.
  pose proof (matchValue_run value rest Hrun Hfirst Hend) as Hvalue.
  split; unfold matchHere.
  - change (dropPattern "ech" ("ech=" ++ value ++ rest))
      with (Some (String "=" (value ++ rest))).
    cbv beta iota zeta.
    change (dropPattern "config(base64)" (String "=" (value ++ rest)))
      with (@None string).
    cbv beta iota zeta delta [matchAssignment]. exact Hvalue.
  - change (dropPattern "ech" ("echconfig(base64)=" ++ value ++ rest))
      with (Some ("config(base64)=" ++ value ++ rest)%string).
    cbv beta iota zeta.
    change (dropPattern "config(base64)"
              ("config(base64)=" ++ value ++ rest))
      with (Some (String "=" (value ++ rest))).
    cbv beta iota zeta delta [matchAssignment]. now rewrite Hvalue.
Qed.

(** A place in front of the pattern does not begin a match, whether it
    lies wholly inside [front] or not. *)
Lemma dropPattern_front : forall (c : ascii) (front tail : string),
  dropPattern "ech" (String c front) = None ->
  dropPattern "ech" (String c (front ++ String "e" (String "c" tail))) = None.
Proof.
  intros c front tail. cbn [dropPattern].
  destruct (Ascii.eqb (foldCase "e") (foldCase c)); [|reflexivity].
  destruct front as [|c2 front]; [reflexivity|]. cbn [append].
  destruct (Ascii.eqb (foldCase "c") (foldCase c2)); [|reflexivity].
  destruct front as [|c3 front]; [reflexivity|]. cbn [append].
  destruct (Ascii.eqb (foldCase "h") (foldCase c3)); [discriminate|].
  reflexivity.
Qed.

Lemma search_front : forall front tail : string,
  freeOfEch front = true ->
  search (front ++ String "e" (String "c" tail))
  = search (String "e" (String "c" tail)).
Proof.
  induction front as [|c front IH]; intros tail Hfree; [reflexivity|].
  cbn [freeOfEch] in Hfree.
  destruct (dropPattern "ech" (String c front)) eqn:Hdrop;
    [discriminate Hfree|].
  cbn [append search]. unfold matchHere at 1.
  rewrite (dropPattern_front c front tail Hdrop).
  apply IH, Hfree.
Qed.

Lemma search_here : forall record value : string,
  matchHere record = Some value -> search record = Some value.
Proof.
  intros record value H. destruct record; cbn [search]; now rewrite H.
Qed.

Lemma parse_found : forall record value : string,
  record <> EmptyString ->
  search record = Some value ->
  value <> EmptyString ->
  String.get 0 value <> Some QUOTE ->
  parseEchFromRecordString record = Some value.
Proof.
  intros record value Hrecord Hsearch Hvalue Hfirst.
  unfold parseEchFromRecordString.
  destruct record as [|r record]; [congruence|].
  rewrite Hsearch. destruct value as [|c value]; [congruence|].
  assert (Hc : Ascii.eqb c QUOTE = false).
  { apply Ascii.eqb_neq. intros ->. now apply Hfirst. }
  unfold quotedValue. rewrite Hc. reflexivity.
Qed.

Lemma append_nonempty : forall front tail : string,
  tail <> EmptyString -> (front ++ tail)%string <> EmptyString.
Proof. intros [|c front] tail H; [exact H | discriminate]. Qed.

(** The value that is read from a record text. *)
Lemma parse_value : forall front value rest : string,
  freeOfEch front = true ->
  run unescaped value = true ->
  String.get 0 value <> Some QUOTE ->
  endsValue rest ->
  parseEchFromRecordString (front ++ "ech=" ++ value ++ rest) = Some value /\
  parseEchFromRecordString (front ++ "echconfig(base64)=" ++ value ++ rest)
  = Some value.
Proof.
  intros front value rest Hfree Hrun Hfirst Hend.
  destruct (matchHere_value value rest Hrun Hfirst Hend) as [Hshort Hlong].
  assert (Hvalue : value <> EmptyString)
    by (destruct value; [discriminate Hrun | discriminate]).
  split; apply parse_found; try assumption;
    try (apply append_nonempty; discriminate).
  - change ("ech=" ++ value ++ rest)%string
      with (String "e" (String "c" ("h=" ++ value ++ rest)))%string.
    rewrite (search_front front _ Hfree).
    change (String "e" (String "c" ("h=" ++ value ++ rest)))%string
      with ("ech=" ++ value ++ rest)%string.
    apply search_here, Hshort.
  - change ("echconfig(base64)=" ++ value ++ rest)%string
      with (String "e"
              (String "c" ("hconfig(base64)=" ++ value ++ rest)))%string.
    rewrite (search_front front _ Hfree).
    change (String "e"
              (String "c" ("hconfig(base64)=" ++ value ++ rest)))%string
      with ("echconfig(base64)=" ++ value ++ rest)%string.
    apply search_here, Hlong.
Qed.

(** X15.  The value that [parseEchFromRecordString] reads behind
    [ech=] or [echconfig(base64)=] ends before the first backslash,
    lowercase s or uppercase S, and not at white space: where the text
    before the key has no earlier match, and the value does not begin
    with a quotation mark, has none of these three characters and is
    followed by one of them or by the end of the text, the function
    returns that value. *)
Theorem parseEchFromRecordString_value : forall front value rest : string,
  freeOfEch front = true ->
  run unescaped value = true ->
  String.get 0 value <> Some QUOTE ->
  endsValue rest ->
  parseEchFromRecordString (front ++ "ech=" ++ value ++ rest) = Some value /\
  parseEchFromRecordString (front ++ "echconfig(base64)=" ++ value ++ rest)
  = Some value.
Proof. exact parse_value. Qed.

Lemma parseEchFromRecordString_value_witness :
  parseEchFromRecordString "1 . alpn=h2 ech=AEXsAQ== ipv4hint=1.2.3.4"
  = Some "AEX" /\
  parseEchFromRecordString
    "priority=1 target=. params=[key5(4B)] echconfig(base64)=AEXsAQ=="
  = Some "AEX".
Proof.
  split.
  - apply (parseEchFromRecordString_value "1 . alpn=h2 " "AEX"
             "sAQ== ipv4hint=1.2.3.4");
      [reflexivity | reflexivity | discriminate |].
    right. exists "s"%char, "AQ== ipv4hint=1.2.3.4". split; reflexivity.
  - apply (parseEchFromRecordString_value
             "priority=1 target=. params=[key5(4B)] " "AEX" "sAQ==");
      [reflexivity | reflexivity | discriminate |].
    right. exists "s"%char, "AQ==". split; reflexivity.
Defined.

(** X16.  Hence [computeEchMatch] compares the ECH configurations of
    two record descriptions up to the first of these characters only:
    two descriptions whose configurations agree up to there are
    reported as matching, whatever follows in either. *)
Theorem ech_match_up_to_first_s :
  forall (front front' value rest rest' label : string)
         (notes : list string),
    freeOfEch front = true -> freeOfEch front' = true ->
    run unescaped value = true ->
    String.get 0 value <> Some QUOTE ->
    endsValue rest -> endsValue rest' ->
    fst (Compare.computeEchMatch
           (parseEchFromRecordString
              (front ++ "echconfig(base64)=" ++ value ++ rest))
           (parseEchFromRecordString
              (front' ++ "echconfig(base64)=" ++ value ++ rest'))
           notes label)
    = Some true.
Proof.
  intros front front' value rest rest' label notes Hfree Hfree' Hrun Hfirst
    Hend Hend'.
  rewrite (proj2 (parse_value front value rest Hfree Hrun Hfirst Hend)).
  rewrite (proj2 (parse_value front' value rest' Hfree' Hrun Hfirst Hend')).
  unfold Compare.computeEchMatch.
  destruct value as [|c value]; [discriminate Hrun|].
  cbn [Js.truthy negb andb Js.strictEq]. now rewrite String.eqb_refl.
Qed.

Lemma ech_match_up_to_first_s_witness :
  fst (Compare.computeEchMatch
         (parseEchFromRecordString
            "priority=1 target=. params=[key5(4B)] echconfig(base64)=AEXsAQ==")
         (parseEchFromRecordString
            "priority=1 target=. params=[key5(4B)] echconfig(base64)=AEXsAg==")
         [] "Cloudflare")
  = Some true.
Proof.
  apply (ech_match_up_to_first_s
           "priority=1 target=. params=[key5(4B)] "
           "priority=1 target=. params=[key5(4B)] " "AEX" "sAQ==" "sAg==");
    try reflexivity; try discriminate.
  - right. exists "s"%char, "AQ==". split; reflexivity.
  - right. exists "s"%char, "Ag==". split; reflexivity.
Defined.


End EchConfigFacts.

Module MergedFieldsFacts.

(** A [Set] built from a list, for any type whose [===] is decided by
    [eqb]: each element once. *)
Section AnySet.

Context {A : Type} (eqb : A -> A -> bool).
Hypothesis eqb_spec : forall a b : A, eqb a b = true <-> a = b.

Lemma set_add : forall (set : list A) (item : A),
  NoDup set ->
  NoDup (Js.add eqb set item) /\
  (forall x, In x (Js.add eqb set item) <-> In x set \/ x = item).
Proof.
  intros set item Hnd. unfold Js.add, Js.has.
  destruct (existsb (eqb item) set) eqn:Hhas.
  - apply existsb_exists in Hhas. destruct Hhas as (x & Hx & Heq).
    apply eqb_spec in Heq. subst x. split; [assumption|].
    intros x. split; [tauto | intros [H | ->]; assumption].
  - assert (Hnot : ~ In item set).
    { intros Hin. apply not_true_iff_false in Hhas. apply Hhas.
      apply existsb_exists. exists item. split; [assumption|].
      now apply eqb_spec. }
    split.
    + apply NoDup_app; [assumption | repeat constructor; intros [] |].
      intros x Hx [<- | []]. contradiction.
    + intros x. rewrite in_app_iff. cbn. intuition congruence.
Qed.

Lemma set_fold : forall (items acc : list A),
  NoDup acc ->
  NoDup (fold_left (Js.add eqb) items acc) /\
  (forall x, In x (fold_left (Js.add eqb) items acc)
             <-> In x acc \/ In x items).
Proof.
  induction items as [|item items IH]; intros acc Hnd; cbn.
  - split; [assumption | intros x; tauto].
  - destruct (set_add acc item Hnd) as [Hnd' Hin'].
    destruct (IH _ Hnd') as [Hnd'' Hin'']. split; [assumption|].
    intros x. rewrite Hin'', Hin'. intuition congruence.
Qed.

Lemma set_of_list : forall items : list A,
  NoDup (Js.newSet eqb items) /\
  (forall x, In x (Js.newSet eqb items) <-> In x items).
Proof.
  intros items. destruct (set_fold items [] (NoDup_nil _)) as [Hnd Hin].
  split; [exact Hnd|]. intros x. rewrite (Hin x). cbn. tauto.
Qed.

End AnySet.

Lemma mode_eqb_spec : forall a b : DohRequestMode,
  DohRequestMode_eqb a b = true <-> a = b.
Proof. intros [|] [|]; cbn; split; congruence. Qed.

(** The first record that is neither missing nor empty. *)
Lemma first_truthy : forall (records : list (option string)),
  match find Js.truthy records with
  | Some r => r
  | None => None
  end
  = match Js.filterTruthy records with
    | [] => None
    | text :: _ => Some text
    end.
Proof.
  induction records as [|[[|c text]|] records IH]; cbn; auto.
Qed.

(** X18.  The result that [combineDohFailures] makes of the attempts is
    a failure with an error that is not empty; its addresses are those
    of all attempts, each once; it lists the modes of the attempts in
    order and keeps the attempts themselves.  The result that
    [combineEchFailures] makes of at least one attempt reports a record
    found when some attempt found one, has the first record text that
    is not empty, an error that is not empty, the formats of all
    attempts, each once, and the raw body of the last attempt. *)
Theorem combine_failures_other_fields :
  (forall results : list Doh.ModeResult,
     let merged := Doh.combineDohFailures results in
     Doh.ok (Doh.result merged) = false /\
     Js.truthy (Doh.error (Doh.result merged)) = true /\
     NoDup (Doh.ips (Doh.result merged)) /\
     (forall ip,
        In ip (Doh.ips (Doh.result merged)) <->
        exists item, In item results /\ In ip (Doh.ips (Doh.base item))) /\
     Doh.attempted_formats merged = map Doh.mode results /\
     Doh.mode_results merged = Some results)
  /\
  (forall (results : list Ech.ProviderResult) (merged : Ech.ProviderResult),
     Ech.combineEchFailures results = Some merged ->
     Ech.found merged = existsb Ech.found results /\
     Ech.record merged
     = match Js.filterTruthy (map Ech.record results) with
       | [] => None
       | text :: _ => Some text
       end /\
     Js.truthy (Ech.error merged) = true /\
     NoDup (Ech.attempted_formats merged) /\
     (forall mode,
        In mode (Ech.attempted_formats merged) <->
        exists item,
          In item results /\ In mode (Ech.attempted_formats item)) /\
     Js.lastItem (map Ech.raw results) = Some (Ech.raw merged)).
Proof.
  split.
  - intros results. cbv zeta. unfold Doh.combineDohFailures.
    destruct (Js.lastItem results) as [last|] eqn:Hlast;
      cbn [Doh.result Doh.ok Doh.error Doh.ips Doh.attempted_formats
           Doh.mode_results].
    + split; [reflexivity|]. split.
      { apply (AttemptFacts.joined_truthy
                 (map (fun item => Doh.error (Doh.base item)) results)).
        discriminate. }
      split; [apply JsFacts.newSet_NoDup|]. split; [|split; reflexivity].
      intros ip. rewrite JsFacts.newSet_In, in_flat_map. tauto.
    + assert (Hnil : results = []).
      { destruct results as [|x results]; [reflexivity|].
        unfold Js.lastItem in Hlast. apply nth_error_None in Hlast.
        cbn [List.length] in Hlast. lia. }
      subst results. repeat split; try constructor.
      * intros [].
      * intros (item & [] & _).
  - intros results merged. unfold Ech.combineEchFailures.
    destruct (Js.lastItem results) as [last|] eqn:Hlast; [|discriminate].
    intros H. injection H as <-.
    cbn [Ech.found Ech.record Ech.error Ech.attempted_formats Ech.raw].
    split; [reflexivity|]. split; [apply first_truthy|]. split.
    { apply (AttemptFacts.joined_truthy (map Ech.error results)).
      discriminate. }
    destruct (set_of_list DohRequestMode_eqb mode_eqb_spec
                (flat_map Ech.attempted_formats results)) as [Hnd Hin].
    split; [exact Hnd|]. split.
    + intros mode. rewrite Hin, in_flat_map. tauto.
    + apply JsFacts.lastItem_Some in Hlast. destruct Hlast as [front ->].
      rewrite map_app. cbn [map]. apply JsFacts.lastItem_snoc.
Qed.

Lemma combine_failures_other_fields_witness :
  Doh.ok (Doh.result (Doh.combineDohFailures CombinerSpec.mixedAttempts))
  = false /\
  exists merged,
    Ech.combineEchFailures CombinerSpec.mixedEchAttempts = Some merged /\
    Ech.found merged = false /\
    Ech.attempted_formats merged = [ModeJson; ModeWire].
Proof.
  split.
  - apply (proj1 combine_failures_other_fields CombinerSpec.mixedAttempts).
  - eexists. split; [reflexivity|].
    pose proof (proj2 combine_failures_other_fields
                  CombinerSpec.mixedEchAttempts _ eq_refl) as H.
    split; [apply H | reflexivity].
Defined.

End MergedFieldsFacts.

Module AddressTextFacts.
Import Wire Address.

(** The number that a decimal text of a byte denotes. *)
Lemma decimal_value : forall b : byte,
  RecordType.numeral 10 (Text.decimal (Byte.to_N b)) 0 = Byte.to_N b.
Proof. intros b. destruct b; vm_compute; reflexivity. Qed.

(** The number that the hexadecimal text of a segment denotes. *)
Lemma hexadecimal_value : forall n : N,
  (n < 65536)%N -> RecordType.numeral 16 (Text.hexadecimal n) 0 = n.
Proof. intros n Hn. apply AddressFacts.hexadecimal_checked, Hn. Qed.

Lemma segment_parts : forall hi lo : N,
  (lo < 256)%N ->
  N.shiftr (N.lor (N.shiftl hi 8) lo) 8 = hi /\
  (N.lor (N.shiftl hi 8) lo mod 256 = lo)%N.
Proof.
  intros hi lo Hlo. split.
  - rewrite N.shiftr_lor, N.shiftr_shiftl_r by lia.
    change (8 - 8)%N with 0%N. rewrite N.shiftr_0_r.
    rewrite N.shiftr_div_pow2, N.div_small
      by (change (2 ^ 8)%N with 256%N; lia).
    apply N.lor_0_r.
  - change 256%N with (2 ^ 8)%N. rewrite <- N.land_ones.
    rewrite N.land_lor_distr_l, !N.land_ones.
    rewrite N.shiftl_mul_pow2, N.Div0.mod_mul.
    rewrite N.mod_small by (change (2 ^ 8)%N with 256%N; lia).
    reflexivity.
Qed.

Lemma segment_inj : forall hi lo hi' lo' : N,
  (lo < 256)%N -> (lo' < 256)%N ->
  N.lor (N.shiftl hi 8) lo = N.lor (N.shiftl hi' 8) lo' ->
  hi = hi' /\ lo = lo'.
Proof.
  intros hi lo hi' lo' Hlo Hlo' H.
  destruct (segment_parts hi lo Hlo) as [Hhi Hlow].
  destruct (segment_parts hi' lo' Hlo') as [Hhi' Hlow'].
  rewrite H in Hhi, Hlow. split; congruence.
Qed.

Lemma split_formatIpv4 : forall a b c d : byte,
  Js.split "." (formatIpv4 [a; b; c; d])
  = [Text.decimal (Byte.to_N a); Text.decimal (Byte.to_N b);
     Text.decimal (Byte.to_N c); Text.decimal (Byte.to_N d)].
Proof.
  intros a b c d. unfold formatIpv4, byteText. cbn [nth_error].
  assert (Hdot : forall x : byte,
            RecordType.all (fun c => negb (Ascii.eqb c "."))
              (Text.decimal (Byte.to_N x)) = true).
  { intros x. eapply AddressFacts.all_impl; [exact AddressFacts.digit_not_dot|].
    eapply AddressFacts.group_all. apply AddressFacts.decimal_byte. }
  change (Text.decimal (Byte.to_N a) ++ "." ++ Text.decimal (Byte.to_N b)
          ++ "." ++ Text.decimal (Byte.to_N c) ++ "."
          ++ Text.decimal (Byte.to_N d))%string
    with (Text.decimal (Byte.to_N a)
          ++ String "."
               (Text.decimal (Byte.to_N b)
                ++ String "."
                     (Text.decimal (Byte.to_N c)
                      ++ String "." (Text.decimal (Byte.to_N d)))))%string.
  now rewrite !AddressFacts.split_app, AddressFacts.split_whole
    by apply Hdot.
Qed.

Lemma split_formatIpv6 : forall bytes : list byte,
  Js.split ":" (formatIpv6 bytes)
  = map (fun i =>
           Text.hexadecimal
             (N.lor (N.shiftl (byteBits bytes (i * 2)) 8)
                (byteBits bytes (i * 2 + 1))))
      (seq 0 8).
Proof.
  intros bytes. unfold formatIpv6. apply AddressFacts.split_concat.
  - discriminate.
  - apply Forall_forall. intros part Hin. apply in_map_iff in Hin.
    destruct Hin as (i & <- & _).
    eapply AddressFacts.all_impl; [exact AddressFacts.hexDigit_not_colon|].
    eapply AddressFacts.group_all.
    apply AddressFacts.hexadecimal_segment, AddressFacts.segment_bound;
      apply AddressFacts.byteBits_bound.
Qed.

Lemma decimal_inj : forall a b : byte,
  Text.decimal (Byte.to_N a) = Text.decimal (Byte.to_N b) -> a = b.
Proof.
  intros a b H. apply Base64Facts.to_N_inj.
  now rewrite <- (decimal_value a), <- (decimal_value b), H.
Qed.

Lemma hexadecimal_inj : forall hi lo hi' lo' : byte,
  Text.hexadecimal (N.lor (N.shiftl (Byte.to_N hi) 8) (Byte.to_N lo))
  = Text.hexadecimal (N.lor (N.shiftl (Byte.to_N hi') 8) (Byte.to_N lo')) ->
  hi = hi' /\ lo = lo'.
Proof.
  intros hi lo hi' lo' H.
  pose proof (Base64Facts.byte_bound hi). pose proof (Base64Facts.byte_bound lo).
  pose proof (Base64Facts.byte_bound hi').
  pose proof (Base64Facts.byte_bound lo').
  apply (f_equal (fun text => RecordType.numeral 16 text 0)) in H.
  rewrite !hexadecimal_value in H
    by (apply AddressFacts.segment_bound; assumption).
  apply segment_inj in H; [|assumption|assumption].
  destruct H as [Hhi Hlo]. split; now apply Base64Facts.to_N_inj.
Qed.

Ltac sized l H :=
  repeat (destruct l as [|? l]; [discriminate H|]);
  destruct l; [clear H | discriminate H].

(** X19.  [formatIpv4] and [formatIpv6] lose nothing: two records of
    four bytes with the same dotted text hold the same bytes, and so do
    two records of sixteen bytes with the same text of eight
    hexadecimal groups.  Hence the sets of address texts that the
    comparison sees for wire answers are equal only when the answers
    hold the same addresses. *)
Theorem address_text_injective :
  (forall a b : list byte,
     List.length a = 4 -> List.length b = 4 ->
     formatIpv4 a = formatIpv4 b -> a = b)
  /\
  (forall a b : list byte,
     List.length a = 16 -> List.length b = 16 ->
     formatIpv6 a = formatIpv6 b -> a = b).
Proof.
  split.
  - intros a b Ha Hb H. sized a Ha. sized b Hb.
    apply (f_equal (Js.split ".")) in H. rewrite !split_formatIpv4 in H.
    injection H as H0 H1 H2 H3.
    apply decimal_inj in H0, H1, H2, H3. now subst.
  - intros a b Ha Hb H. sized a Ha. sized b Hb.
    apply (f_equal (Js.split ":")) in H. rewrite !split_formatIpv6 in H.
    cbn [seq map byteBits nth_error Nat.mul Nat.add] in H.
    injection H as H0 H1 H2 H3 H4 H5 H6 H7.
    apply hexadecimal_inj in H0, H1, H2, H3, H4, H5, H6, H7.
    destruct H0, H1, H2, H3, H4, H5, H6, H7. now subst.
Qed.

End AddressTextFacts.

Module WireAnswerFacts.
Import Executor WireFormat Address.

Lemma newSet_nonempty : forall l : list string,
  (0 <? List.length (Js.newSet String.eqb l)) = true <-> l <> [].
Proof.
  intros l. split.
  - intros H ->. discriminate H.
  - intros H. destruct l as [|x l]; [now elim H|].
    assert (Hin : In x (Js.newSet String.eqb (x :: l)))
      by (apply JsFacts.newSet_In; now left).
    destruct (Js.newSet String.eqb (x :: l)); [elim Hin | reflexivity].
Qed.

(** X20.  The content type of the response decides how an attempt is
    decoded, not the mode of the request: when the request of either
    mode is answered with a content type that is neither JSON nor text
    and a body that is a well-formed DNS response, the attempt reports
    the wire format, the status and the latency of the response and the
    addresses of its A and AAAA answers, each once and in order.  It is
    a success exactly when the status is between 200 and 299 and there
    is such an address. *)
Theorem performDohRequest_wire_answer :
  forall platform extractIpsFromAnswer endpoint name recordType timeout mode
         (w w1 : World) (url : Url) (latency_ms : Z) (response : Response)
         (m : Message),
    buildUrl platform mode endpoint name recordType w = (Normal url, w1) ->
    fetch platform (requests w1)
      {| url := url; accept := acceptHeader mode; timeout := timeout |}
    = Responded latency_ms response ->
    isJsonContentType (contentType response) = false ->
    isTextContentType (contentType response) = false ->
    arrayBuffer response = fulfilled (encodeMessage m) ->
    validMessage m ->
    exists r w',
      performDohRequest platform extractIpsFromAnswer endpoint name recordType
        timeout mode w
      = (Normal r, w') /\
      Doh.mode r = mode /\
      Doh.ips (Doh.base r) = Js.newSet String.eqb (addresses m) /\
      (Doh.ok (Doh.base r) = true <->
       ((200 <= status response <= 299)%Z /\ addresses m <> [])) /\
      Doh.response_format (Doh.base r) = Some FormatWire /\
      Doh.status (Doh.base r) = Some (status response) /\
      Doh.latency_ms (Doh.base r) = Some latency_ms /\
      Doh.content_type (Doh.base r) = contentType response.
Proof.
  intros platform extract endpoint name recordType timeout mode w w1 url
    latency_ms response m Hbuild Hfetch Hjson Htext Hbuffer Hvalid.
  unfold performDohRequest, mbind, attempt. rewrite Hbuild.
  unfold tryCatch, mbind, doFetch. rewrite Hfetch.
  unfold decodeDohResponse. rewrite Hjson, Htext.
  unfold mbind, lift. rewrite Hbuffer. cbn [await].
  unfold tryCatch, mbind, lift.
  rewrite (AddressFacts.encoded_addresses m Hvalid).
  unfold ret. do 2 eexists. split; [reflexivity|].
  cbn [Doh.mode Doh.base Doh.ips Doh.ok Doh.response_format Doh.status
       Doh.latency_ms Doh.content_type].
  repeat split; try reflexivity.
  - apply andb_true_iff in H. destruct H as [H _]. unfold ok in H.
    apply andb_true_iff in H. destruct H as [H _]. now apply Z.leb_le.
  - apply andb_true_iff in H. destruct H as [H _]. unfold ok in H.
    apply andb_true_iff in H. destruct H as [_ H]. now apply Z.leb_le.
  - apply andb_true_iff in H. destruct H as [_ H].
    now apply newSet_nonempty.
  - intros [[Hlow Hhigh] Hsome]. apply andb_true_iff. split.
    + unfold ok. apply andb_true_iff. split; now apply Z.leb_le.
    + now apply newSet_nonempty.
Qed.

Lemma performDohRequest_wire_answer_witness :
  exists r w',
    performDohRequest examplePlatform exampleExtractIps
      "https://dns.example/dns-query" "example.com" "A" 5000%Z ModeWire
      emptyWorld
    = (Normal r, w') /\
    Doh.mode r = ModeWire /\
    Doh.ips (Doh.base r) = ["93.184.216.34"] /\
    (Doh.ok (Doh.base r) = true <->
     ((200 <= 200 <= 299)%Z /\ ["93.184.216.34"] <> [])) /\
    Doh.response_format (Doh.base r) = Some FormatWire /\
    Doh.status (Doh.base r) = Some 200%Z /\
    Doh.latency_ms (Doh.base r) = Some 17%Z /\
    Doh.content_type (Doh.base r) = Some "application/dns-message".
Proof.
  eapply (performDohRequest_wire_answer examplePlatform exampleExtractIps
            "https://dns.example/dns-query" "example.com" "A" 5000%Z
            ModeWire emptyWorld _ _ 17%Z
            {| status := 200;
               contentType := Some "application/dns-message";
               json := rejected "body used";
               text := rejected "body used";
               arrayBuffer := fulfilled (encodeMessage echMessage) |}
            echMessage).
  - reflexivity.
  - reflexivity.
  - reflexivity.
  - reflexivity.
  - reflexivity.
  - exact WireFacts.validMessage_echMessage.
Defined.

End WireAnswerFacts.
